(** * Intersite reconciliation engine (applications/multisite/intersite.py)

    A shallow embedding of the intersite tool: the provenance tag, the
    endpoint batch store, the monitor's verification pass and the
    collector's configuration reload, with the properties the
    specification states about them. *)

From Stdlib Require Import Ascii String List Arith Lia Bool.
From stdpp Require Import base strings list gmap.

Local Open Scope string_scope.
Local Open Scope list_scope.
Local Open Scope stdpp_scope.

(** ** Python outcomes

    A call either returns a value or raises.  Only the exceptions the
    modelled code can raise are listed. *)

Inductive exn : Type :=
  | AssertionError
  | IndexError
  | KeyError
  | ValueError
  | AttributeError
  | TypeError
  | SystemExit.

Inductive result (A : Type) : Type :=
  | Returned (a : A)
  | Raised (e : exn).

Arguments Returned {A} a.
Arguments Raised {A} e.

#[global] Instance result_ret : MRet result := fun _ a => Returned a.
#[global] Instance result_bind : MBind result := fun _ _ f m =>
  match m with
  | Returned a => f a
  | Raised e => Raised e
  end.

(** [assert cond]: with [__debug__] set (the interpreter's default) a false
    condition raises; under [-O] the statement is compiled away. *)
Definition py_assert (__debug__ cond : bool) : result unit :=
  if __debug__ && negb cond then Raised AssertionError else Returned tt.

(** [l[i]] on a Python list. *)
Definition py_index {A} (l : list A) (i : nat) : result A :=
  match l !! i with
  | Some x => Returned x
  | None => Raised IndexError
  end.

(** ** Strings *)

Definition newline : ascii := ascii_of_nat 10.

(** [c in s] for a one-character [c]. *)
Fixpoint contains_char (c : ascii) (s : string) : bool :=
  match s with
  | EmptyString => false
  | String a s' => Ascii.eqb a c || contains_char c s'
  end.

(** [s.split(sep)] for a one-character separator. *)
Fixpoint split (sep : ascii) (s : string) : list string :=
  match s with
  | EmptyString => [EmptyString]
  | String c s' =>
      if Ascii.eqb c sep then EmptyString :: split sep s'
      else match split sep s' with
           | h :: t => String c h :: t
           | [] => [String c EmptyString]
           end
  end.

(** [s.rpartition(sep)[-1]]: what follows the last [sep], the whole string
    when there is none.  [acc] is the text seen since the last separator. *)
Fixpoint rpartition_go (sep : ascii) (s acc : string) : string :=
  match s with
  | EmptyString => acc
  | String c s' =>
      if Ascii.eqb c sep then rpartition_go sep s' EmptyString
      else rpartition_go sep s' (acc +:+ String c EmptyString)
  end.

Definition rpartition_last (sep : ascii) (s : string) : string :=
  rpartition_go sep s EmptyString.

(** ** The regular expressions of the tool

    The fragment of Python's [re] the source uses: literal characters, [.]
    (any character but a line feed) and [.*].  [re.match] anchors the
    pattern at the start of the string only. *)

Inductive re_atom : Type :=
  | ReChar (c : ascii)
  | ReDot
  | ReDotStar.

Fixpoint re_compile (p : string) : list re_atom :=
  match p with
  | EmptyString => []
  | String c rest =>
      if Ascii.eqb c "." then
        match rest with
        | String c2 rest2 =>
            if Ascii.eqb c2 "*" then ReDotStar :: re_compile rest2
            else ReDot :: re_compile rest
        | EmptyString => [ReDot]
        end
      else ReChar c :: re_compile rest
  end.

Fixpoint re_match_here (p : list re_atom) : string -> bool :=
  match p with
  | [] => fun _ => true
  | ReChar c :: p' => fun s =>
      match s with
      | String a s' => Ascii.eqb a c && re_match_here p' s'
      | EmptyString => false
      end
  | ReDot :: p' => fun s =>
      match s with
      | String a s' => negb (Ascii.eqb a newline) && re_match_here p' s'
      | EmptyString => false
      end
  | ReDotStar :: p' =>
      fix star (s : string) : bool :=
        re_match_here p' s ||
        match s with
        | String a s' => negb (Ascii.eqb a newline) && star s'
        | EmptyString => false
        end
  end.

Definition re_match (pattern s : string) : bool :=
  re_match_here (re_compile pattern) s.

(** ** IntersiteTag *)

Record IntersiteTag : Type := mkIntersiteTag {
  get_tenant_name : string;
  get_app_name : string;
  get_epg_name : string;
  get_remote_site_name : string
}.

Definition is_intersite_tag (tag : string) : bool :=
  re_match "isite:.*:.*:.*:.*" tag.

Definition fromstring (__debug__ : bool) (tag : string)
  : result (option IntersiteTag) :=
  if negb (is_intersite_tag tag) then
    _ ← py_assert __debug__ (is_intersite_tag tag);
    Returned None
  else
    let tag_data := split ":" tag in
    tenant_name ← py_index tag_data 1;
    app_name ← py_index tag_data 2;
    epg_name ← py_index tag_data 3;
    remote_site_name ← py_index tag_data 4;
    Returned (Some (mkIntersiteTag tenant_name app_name epg_name remote_site_name)).

Definition IntersiteTag_str (t : IntersiteTag) : string :=
  "isite:" +:+ get_tenant_name t +:+ ":" +:+ get_app_name t +:+ ":" +:+
  get_epg_name t +:+ ":" +:+ get_remote_site_name t.

(** ** Documents exchanged with a site *)

(** Modelled from the spec: the JSON rendering of acitoolkit's [Tenant],
    [OutsideEPG] and [OutsideNetwork] objects and of the answers to queries
    (acitoolkit.acitoolkit is not among the sources).  A tenant document
    holds outbound interfaces ([l3extOut]), each holding instance profiles
    ([l3extInstP]) that carry the key, the address or the deletion marker,
    the contract bindings and the tag.  Every level may also hold objects of
    classes the tool does not look at. *)
Inductive instp_child : Type :=
  | l3extSubnet (ip : string)
  | fvRsProv (tnVzBrCPName : string) (status : option string)
  | fvRsCons (tnVzBrCPName : string) (status : option string)
  | fvRsProtBy (tnVzTabooName : string) (status : option string)
  | fvRsConsIf (tnVzCPIfName : string) (status : option string)
  | tagInst (name : string)
  | instp_other (cls : string).

Record l3extInstP : Type := mk_l3extInstP {
  instp_name : string;
  instp_dn : option string;
  instp_status : option string;
  instp_children : list instp_child
}.

Inductive l3extOut_child : Type :=
  | Mo_l3extInstP (p : l3extInstP)
  | Mo_out_other (cls : string).

Record l3extOut : Type := mk_l3extOut {
  out_name : string;
  out_children : list l3extOut_child
}.

Inductive fvTenant_child : Type :=
  | Mo_l3extOut (o : l3extOut)
  | Mo_tn_other (cls : string).

Record fvTenant : Type := mk_fvTenant {
  tn_name : string;
  tn_children : list fvTenant_child
}.

#[global] Instance instp_child_eq_dec : EqDecision instp_child.
Proof. solve_decision. Defined.
#[global] Instance l3extInstP_eq_dec : EqDecision l3extInstP.
Proof. solve_decision. Defined.
#[global] Instance l3extOut_child_eq_dec : EqDecision l3extOut_child.
Proof. solve_decision. Defined.
#[global] Instance l3extOut_eq_dec : EqDecision l3extOut.
Proof. solve_decision. Defined.
#[global] Instance fvTenant_child_eq_dec : EqDecision fvTenant_child.
Proof. solve_decision. Defined.
#[global] Instance fvTenant_eq_dec : EqDecision fvTenant.
Proof. solve_decision. Defined.

(** ** Python list idioms *)

(** [l.remove(x)]: drops the first item that compares equal to [x]. *)
Fixpoint py_remove {A} (eqv : A → A → bool) (x : A) (l : list A) : list A :=
  match l with
  | [] => []
  | y :: l' => if eqv y x then l' else y :: py_remove eqv x l'
  end.

(** [for x in l: if p(x): l.remove(x)].  The list is changed while it is
    walked: the iterator keeps a position [i], reads [l[i]] from the list as
    it is at that moment and stops once [i] is past the end. *)
Fixpoint for_remove_from {A} (p : A → bool) (eqv : A → A → bool)
    (fuel i : nat) (l : list A) : list A :=
  match fuel with
  | 0 => l
  | S fuel' =>
      match l !! i with
      | None => l
      | Some x =>
          if p x then for_remove_from p eqv fuel' (S i) (py_remove eqv x l)
          else for_remove_from p eqv fuel' (S i) l
      end
  end.

Definition for_remove {A} (p : A → bool) (eqv : A → A → bool) (l : list A)
  : list A :=
  for_remove_from p eqv (length l) 0 l.

(** Equality of JSON documents is structural. *)
Definition json_eqb {A} `{EqDecision A} (x y : A) : bool := bool_decide (x = y).

(** ** Export policies (the configuration objects) *)

Record ProvidedContractPolicy : Type := mkProvidedContractPolicy {
  contract_name : string
}.

(** [ConsumedContractPolicy] is a subclass that adds nothing. *)
Definition ConsumedContractPolicy : Type := ProvidedContractPolicy.

Record ProtectedByPolicy : Type := mkProtectedByPolicy {
  taboo_name : string
}.

Record ConsumedInterfacePolicy : Type := mkConsumedInterfacePolicy {
  consumes_interface : string
}.

Record L3OutPolicy : Type := mkL3OutPolicy {
  L3OutPolicy_name : string;
  L3OutPolicy_tenant : string;
  get_provided_contract_policies : list ProvidedContractPolicy;
  get_consumed_contract_policies : list ConsumedContractPolicy;
  get_protected_by_policies : list ProtectedByPolicy;
  get_consumes_interface_policies : list ConsumedInterfacePolicy
}.

Record RemoteSitePolicy : Type := mkRemoteSitePolicy {
  RemoteSitePolicy_name : string;
  get_interfaces : list L3OutPolicy
}.

(** [ExportPolicy] defines no [__eq__]: [in] and [list.remove] compare
    object identities, kept here as [export_id]. *)
Record ExportPolicy : Type := mkExportPolicy {
  export_id : nat;
  ExportPolicy_tenant : string;
  ExportPolicy_app : string;
  ExportPolicy_epg : string;
  get_site_policies : list RemoteSitePolicy
}.

Definition has_same_epg (self policy : ExportPolicy) : bool :=
  if bool_decide (ExportPolicy_tenant self ≠ ExportPolicy_tenant policy)
     || bool_decide (ExportPolicy_app self ≠ ExportPolicy_app policy)
     || bool_decide (ExportPolicy_epg self ≠ ExportPolicy_epg policy)
  then false else true.

(** ** Endpoints (acitoolkit's [Endpoint], as far as the tool reads it) *)

Record Endpoint : Type := mkEndpoint {
  mac : string;
  ip : option string;
  is_deleted : bool;
  ep_tenant : string;
  ep_app : string;
  ep_epg : string
}.

(** ** State and exceptions

    A method that mutates an object and may raise is a function from the
    state before to an outcome and the state after: what was mutated before
    an exception stays mutated. *)

Definition M (S A : Type) : Type := S → result A * S.

#[global] Instance M_ret {S} : MRet (M S) := fun _ a s => (Returned a, s).
#[global] Instance M_bind {S} : MBind (M S) := fun _ _ f m s =>
  match m s with
  | (Returned a, s') => f a s'
  | (Raised e, s') => (Raised e, s')
  end.

Definition raise {S A} (e : exn) : M S A := fun s => (Raised e, s).
Definition get_state {S} : M S S := fun s => (Returned s, s).
Definition modify {S} (f : S → S) : M S unit := fun s => (Returned tt, f s).
Definition lift_result {S A} (r : result A) : M S A := fun s => (r, s).

(** What a loop body asks for: go on with the next item, or leave the
    enclosing function ([return]). *)
Inductive flow : Type :=
  | Next
  | Return.

(** [for x in l: body(x)] when the body neither breaks nor returns. *)
Fixpoint for_each {S A} (l : list A) (body : A → M S unit) : M S unit :=
  match l with
  | [] => mret tt
  | x :: l' => _ ← body x; for_each l' body
  end.

(** [for x in l: body(x)] when the body may [return]. *)
Fixpoint for_each_until {S A} (l : list A) (body : A → M S flow) : M S flow :=
  match l with
  | [] => mret Next
  | x :: l' =>
      f ← body x;
      match f with
      | Next => for_each_until l' body
      | Return => mret Return
      end
  end.

(** ** Sites *)

Record SiteLoginCredentials : Type := mkSiteLoginCredentials {
  cred_ip_address : string;
  cred_user_name : string;
  cred_password : string;
  cred_use_https : bool
}.

(** acitoolkit's [Session]: where requests go and as whom. *)
Record Session : Type := mkSession {
  session_url : string;
  session_uid : string;
  session_pwd : string
}.

(** The [db] of an [EndpointHandler]: tenant documents by remote site. *)
Abbreviation Queue := (gmap string (list fvTenant)).

(** The monitor thread of a local site: its session, its exit flag and the
    [db] of its [EndpointHandler]. *)
Record MultisiteMonitor : Type := mkMultisiteMonitor {
  _session : Session;
  _exit : bool;
  _endpoints : gmap string (list fvTenant)
}.

(** [Site] with its two subclasses: [Site_local] tells a [LocalSite] from a
    [RemoteSite]; the monitor and the policy registry are the attributes only a
    [LocalSite] has. *)
Record Site : Type := mkSite {
  Site_name : string;
  Site_local : bool;
  Site_credentials : SiteLoginCredentials;
  Site_session : option Session;
  Site_logged_in : bool;
  LocalSite_monitor : option MultisiteMonitor;
  LocalSite_policy_db : list ExportPolicy
}.

(** [Site.__eq__]: sites are equal when their names are. *)
Definition Site_eq (self other : Site) : bool :=
  if bool_decide (Site_name self = Site_name other) then true else false.

Definition get_policy_for_epg (self : Site) (tenant_name app_name epg_name : string)
  : option ExportPolicy :=
  List.find (fun policy =>
               bool_decide (ExportPolicy_tenant policy = tenant_name)
               && bool_decide (ExportPolicy_app policy = app_name)
               && bool_decide (ExportPolicy_epg policy = epg_name))
            (LocalSite_policy_db self).

(** ** The outside world

    Sessions answer requests; what they answer may depend on everything
    that happened before, so each oracle reads the history of events. *)

Inductive Document : Type :=
  | TenantDoc (t : fvTenant)
  | InstPDoc (p : l3extInstP)
  | StatusDeletedDoc.

Record Response : Type := mkResponse {
  Response_ok : bool;
  totalCount : string;
  imdata : list l3extInstP
}.

Inductive Event : Type :=
  | EvLogin (s : Session) (resp_ok : bool)
  | EvGet (s : Session) (url : string) (resp_ok : bool)
  | EvPush (s : Session) (url : string) (doc : Document) (resp_ok : bool)
  | EvGetAllByEpg (s : Session) (tenant_name app_name epg_name : string)
  | EvGetEvent (s : Session) (endpoint : Endpoint)
  | EvPrint (msg : string)
  | EvPrintError (e : exn).

Record Environment : Type := mkEnvironment {
  env_login : list Event → Session → bool;
  env_get : list Event → Session → string → Response;
  env_push_to_apic : list Event → Session → string → Document → bool;
  env_get_all_by_epg : list Event → Session → string → string → string → list Endpoint;
  env_has_events : list Event → Session → bool;
  env_get_event : list Event → Session → Endpoint;
  env_inet_aton : string → bool;
  env_tenant_url : string
}.

(** ** EndpointHandler *)

Definition l3instp_matches (endpoint : Endpoint) (l3instp : l3extOut_child) : bool :=
  match l3instp with
  | Mo_l3extInstP p =>
      bool_decide (rpartition_last "-" (instp_name p) = mac endpoint)
  | Mo_out_other _ => false
  end.

(** [_remove_queued_endpoint], loop by loop: the instance profiles of one
    [l3extOut], the children of one tenant document, the tenant documents
    of the remote site. *)
Definition remove_in_l3out (endpoint : Endpoint) (o : l3extOut) : l3extOut :=
  mk_l3extOut (out_name o)
    (for_remove (l3instp_matches endpoint) json_eqb (out_children o)).

Definition remove_in_tenant_child (l3out_policy : L3OutPolicy) (endpoint : Endpoint)
    (l3out : fvTenant_child) : fvTenant_child :=
  match l3out with
  | Mo_tn_other _ => l3out
  | Mo_l3extOut o =>
      if bool_decide (out_name o ≠ L3OutPolicy_name l3out_policy) then l3out
      else Mo_l3extOut (remove_in_l3out endpoint o)
  end.

Definition remove_in_tenant (l3out_policy : L3OutPolicy) (endpoint : Endpoint)
    (tenant_json : fvTenant) : fvTenant :=
  if bool_decide (tn_name tenant_json ≠ L3OutPolicy_tenant l3out_policy)
  then tenant_json
  else mk_fvTenant (tn_name tenant_json)
         (remove_in_tenant_child l3out_policy endpoint <$> tn_children tenant_json).

Definition _remove_queued_endpoint (remote_site : string)
    (l3out_policy : L3OutPolicy) (endpoint : Endpoint) (db : Queue) : Queue :=
  match db !! remote_site with
  | None => db
  | Some db_entry =>
      <[remote_site := remove_in_tenant l3out_policy endpoint <$> db_entry]> db
  end.

Definition _create_tenant_with_l3instp (l3out_policy : L3OutPolicy)
    (endpoint : Endpoint) (tag : IntersiteTag) : result fvTenant :=
  network_attrs ←
    (if is_deleted endpoint then Returned (Some "deleted", [])
     else match ip endpoint with
          | Some addr => Returned (None, [l3extSubnet (addr +:+ "/32")])
          | None => Raised TypeError
          end);
  let network :=
    mk_l3extInstP (mac endpoint) None (fst network_attrs)
      (snd network_attrs
       ++ ((fun c => fvRsProv (contract_name c) None)
             <$> get_provided_contract_policies l3out_policy)
       ++ ((fun c => fvRsCons (contract_name c) None)
             <$> get_consumed_contract_policies l3out_policy)
       ++ ((fun t => fvRsProtBy (taboo_name t) None)
             <$> get_protected_by_policies l3out_policy)
       ++ ((fun c => fvRsConsIf (consumes_interface c) None)
             <$> get_consumes_interface_policies l3out_policy)
       ++ [tagInst (IntersiteTag_str tag)]) in
  Returned (mk_fvTenant (L3OutPolicy_tenant l3out_policy)
              [Mo_l3extOut (mk_l3extOut (L3OutPolicy_name l3out_policy)
                              [Mo_l3extInstP network])]).

Definition is_l3extOut_named (n : string) (c : fvTenant_child) : bool :=
  match c with
  | Mo_l3extOut o => bool_decide (out_name o = n)
  | Mo_tn_other _ => false
  end.

Definition is_l3extInstP (c : l3extOut_child) : bool :=
  match c with
  | Mo_l3extInstP _ => true
  | Mo_out_other _ => false
  end.

(** [_merge_tenant_json], from the inside out: the instance profile goes
    into the [l3extOut] found, the [l3extOut] into the tenant document
    found, the tenant document into the list of the remote site. *)
Definition merge_l3instp (__debug__ : bool) (new_l3out l3out : l3extOut)
  : result l3extOut :=
  match out_children new_l3out with
  | [] => Raised IndexError
  | new_l3instp :: _ =>
      if __debug__ && negb (is_l3extInstP new_l3instp) then Raised AssertionError
      else if bool_decide (new_l3instp ∉ out_children l3out)
      then Returned (mk_l3extOut (out_name l3out) (out_children l3out ++ [new_l3instp]))
      else Returned l3out
  end.

Definition merge_l3out (__debug__ : bool) (new_json tenant_json : fvTenant)
  : result fvTenant :=
  match tn_children new_json with
  | [] => Raised IndexError
  | Mo_tn_other cls :: _ =>
      if __debug__ then Raised AssertionError
      else if existsb (fun l3out => match l3out with
                                    | Mo_l3extOut _ => true
                                    | Mo_tn_other _ => false
                                    end) (tn_children tenant_json)
      then Raised KeyError
      else Returned (mk_fvTenant (tn_name tenant_json)
                       (tn_children tenant_json ++ [Mo_tn_other cls]))
  | Mo_l3extOut new_l3out :: _ =>
      match list_find (fun l3out => is_l3extOut_named (out_name new_l3out) l3out)
                      (tn_children tenant_json) with
      | Some (oi, Mo_l3extOut l3out) =>
          l3out' ← merge_l3instp __debug__ new_l3out l3out;
          Returned (mk_fvTenant (tn_name tenant_json)
                      (<[oi := Mo_l3extOut l3out']> (tn_children tenant_json)))
      | _ =>
          Returned (mk_fvTenant (tn_name tenant_json)
                      (tn_children tenant_json ++ [Mo_l3extOut new_l3out]))
      end
  end.

Definition merge_tenant (__debug__ : bool) (new_json : fvTenant)
    (db_json : list fvTenant) : result (list fvTenant) :=
  match list_find (fun tenant_json => tn_name tenant_json = tn_name new_json)
                  db_json with
  | None => Returned (db_json ++ [new_json])
  | Some (ti, tenant_json) =>
      tenant_json' ← merge_l3out __debug__ new_json tenant_json;
      Returned (<[ti := tenant_json']> db_json)
  end.

Definition _merge_tenant_json (__debug__ : bool) (remote_site : string)
    (new_json : fvTenant) : M Queue unit := fun db =>
  match db !! remote_site with
  | None => (Returned tt, <[remote_site := [new_json]]> db)
  | Some db_json =>
      match merge_tenant __debug__ new_json db_json with
      | Returned db_json' => (Returned tt, <[remote_site := db_json']> db)
      | Raised e => (Raised e, db)
      end
  end.

(** The body of the two loops of [add_endpoint]. *)
Definition queue_endpoint (__debug__ : bool) (endpoint : Endpoint)
    (local_site : Site) (remote_site_policy : RemoteSitePolicy)
    (l3out_policy : L3OutPolicy) : M Queue unit :=
  _ ← modify (_remove_queued_endpoint
                (RemoteSitePolicy_name remote_site_policy) l3out_policy endpoint);
  let tag := mkIntersiteTag (ep_tenant endpoint) (ep_app endpoint)
               (ep_epg endpoint) (Site_name local_site) in
  tenant_json ← lift_result (_create_tenant_with_l3instp l3out_policy endpoint tag);
  _merge_tenant_json __debug__ (RemoteSitePolicy_name remote_site_policy) tenant_json.

Definition add_endpoint (__debug__ : bool) (endpoint : Endpoint)
    (local_site : Site) : M Queue unit :=
  if bool_decide (ip endpoint = Some "0.0.0.0")
     || (bool_decide (ip endpoint = None) && negb (is_deleted endpoint))
  then mret tt
  else
    match get_policy_for_epg local_site (ep_tenant endpoint) (ep_app endpoint)
            (ep_epg endpoint) with
    | None => mret tt
    | Some policy =>
        for_each (get_site_policies policy) (fun remote_site_policy =>
          for_each (get_interfaces remote_site_policy)
            (queue_endpoint __debug__ endpoint local_site remote_site_policy))
    end.

(** ** ExportPolicy: what a policy authorizes *)

Fixpoint _get_l3out_policy_in (sites : list RemoteSitePolicy)
    (site_name l3out_name l3out_tenant : string) : option L3OutPolicy :=
  match sites with
  | [] => None
  | site :: sites' =>
      let next := _get_l3out_policy_in sites' site_name l3out_name l3out_tenant in
      if bool_decide (RemoteSitePolicy_name site = site_name) then
        match List.find (fun l3out =>
                           bool_decide (L3OutPolicy_name l3out = l3out_name)
                           && bool_decide (L3OutPolicy_tenant l3out = l3out_tenant))
                        (get_interfaces site) with
        | Some l3out => Some l3out
        | None => next
        end
      else next
  end.

Definition _get_l3out_policy (self : ExportPolicy)
    (site_name l3out_name l3out_tenant : string) : option L3OutPolicy :=
  _get_l3out_policy_in (get_site_policies self) site_name l3out_name l3out_tenant.

(** The four membership tests return [True], [False] or, when the loop
    runs off the end of the list, nothing ([None]).  The body of each loop
    returns on its first pass, whatever the comparison gives. *)
Definition first_is {A} (name_of : A → string) (l : list A) (wanted : string)
  : option bool :=
  match l with
  | [] => None
  | x :: _ => if bool_decide (name_of x = wanted) then Some true else Some false
  end.

Definition py_truth (v : option bool) : bool :=
  match v with
  | Some b => b
  | None => false
  end.

Definition provides (self : ExportPolicy)
    (site_name l3out_name l3out_tenant contract_name' : string) : option bool :=
  match _get_l3out_policy self site_name l3out_name l3out_tenant with
  | None => Some false
  | Some l3out =>
      first_is contract_name (get_provided_contract_policies l3out) contract_name'
  end.

Definition consumes (self : ExportPolicy)
    (site_name l3out_name l3out_tenant contract_name' : string) : option bool :=
  match _get_l3out_policy self site_name l3out_name l3out_tenant with
  | None => Some false
  | Some l3out =>
      first_is contract_name (get_consumed_contract_policies l3out) contract_name'
  end.

Definition protected_by (self : ExportPolicy)
    (site_name l3out_name l3out_tenant taboo_name' : string) : option bool :=
  match _get_l3out_policy self site_name l3out_name l3out_tenant with
  | None => Some false
  | Some l3out =>
      first_is taboo_name (get_protected_by_policies l3out) taboo_name'
  end.

Definition consumes_cif (self : ExportPolicy)
    (site_name l3out_name l3out_tenant consumes_interface' : string) : option bool :=
  match _get_l3out_policy self site_name l3out_name l3out_tenant with
  | None => Some false
  | Some l3out =>
      first_is consumes_interface (get_consumes_interface_policies l3out)
        consumes_interface'
  end.

(** ** MultisiteMonitor *)

Record MonitorState : Type := mkMonitorState {
  mon_db : Queue;
  mon_history : list Event
}.

Definition get_site (sites : list Site) (name : string) : option Site :=
  List.find (fun site => bool_decide (Site_name site = name)) sites.

(** [session.push_to_apic(url, doc)]; the answer's [ok] flag is returned. *)
Definition Session_push_to_apic (env : Environment) (s : Session) (url : string)
    (doc : Document) : M (list Event) bool := fun h =>
  let resp_ok := env_push_to_apic env h s url doc in
  (Returned resp_ok, h ++ [EvPush s url doc resp_ok]).

(** [session.get(url)]. *)
Definition Session_get (env : Environment) (s : Session) (url : string)
  : M (list Event) Response := fun h =>
  let resp := env_get env h s url in
  (Returned resp, h ++ [EvGet s url (Response_ok resp)]).

(** Requests made from the monitor. *)
Definition on_history {A} (m : M (list Event) A) : M MonitorState A := fun st =>
  match m (mon_history st) with
  | (r, h') => (r, mkMonitorState (mon_db st) h')
  end.

Definition push_to_apic (env : Environment) (s : Session) (url : string)
    (doc : Document) : M MonitorState bool :=
  on_history (Session_push_to_apic env s url doc).

Definition session_get (env : Environment) (s : Session) (url : string)
  : M MonitorState Response :=
  on_history (Session_get env s url).

(** Attribute access on an object that may be [None]. *)
Definition attr {S A B} (o : option A) (f : A → B) : M S B :=
  match o with
  | Some x => mret (f x)
  | None => raise AttributeError
  end.

Definition deref {S A} (o : option A) : M S A := attr o id.

(** acitoolkit's [Tenant.get_url()]: the address tenant documents are pushed
    to, a constant of the library. *)
Definition Tenant_get_url (env : Environment) : string := env_tenant_url env.

Definition on_db {A} (m : M Queue A) : M MonitorState A := fun st =>
  match m (mon_db st) with
  | (r, db') => (r, mkMonitorState db' (mon_history st))
  end.

(** The inner loop of [push_to_remote_sites]: the tenant documents queued
    for one remote site. *)
Definition push_site_queue (env : Environment) (__debug__ : bool)
    (collector_sites : list Site) (entry : string * list fvTenant)
  : M MonitorState unit :=
  let remote_site_obj := get_site collector_sites entry.1 in
  _ ← lift_result (py_assert __debug__ (bool_decide (is_Some remote_site_obj)));
  remote_session ← attr remote_site_obj Site_session;
  for_each entry.2 (fun tenant_json =>
    s ← deref remote_session;
    _ ← push_to_apic env s (Tenant_get_url env) (TenantDoc tenant_json);
    mret tt).

Definition push_to_remote_sites (env : Environment) (__debug__ : bool)
    (collector_sites : list Site) : M MonitorState unit :=
  db ← (fun st => (Returned (mon_db st), st));
  _ ← for_each (map_to_list db) (push_site_queue env __debug__ collector_sites);
  on_db (modify (fun _ => ∅)).

Definition dquote : string := String (ascii_of_nat 34) EmptyString.

Definition tagged_query_url (l3out_tenant l3out_name itag : string) : string :=
  "/api/mo/uni/tn-" +:+ l3out_tenant +:+ "/out-" +:+ l3out_name +:+
  ".json?query-target=children&target-subtree-class=l3extInstP&" +:+
  "rsp-subtree=children&rsp-subtree-filter=eq(tagInst.name," +:+
  dquote +:+ itag +:+ dquote +:+ ")&rsp-subtree-include=required".

(** The filter naming every instance profile of the first answer. *)
Fixpoint names_filter_from (num_names : nat) (names : string)
    (entries : list l3extInstP) : nat * string :=
  match entries with
  | [] => (num_names, names)
  | l3instp :: rest =>
      let names := if bool_decide (0 < num_names) then names +:+ "," else names in
      let names := names +:+ "eq(l3extInstP.name," +:+ dquote +:+
                   instp_name l3instp +:+ dquote +:+ ")" in
      names_filter_from (S num_names) names rest
  end.

Definition names_filter (entries : list l3extInstP) : string :=
  let '(num_names, names) := names_filter_from 0 "" entries in
  if bool_decide (1 < num_names) then "or(" +:+ names +:+ ")" else names.

Definition children_query_url (l3out_tenant l3out_name names : string) : string :=
  "/api/mo/uni/tn-" +:+ l3out_tenant +:+ "/out-" +:+ l3out_name +:+
  ".json?query-target=children&target-subtree-class=l3extInstP&" +:+
  "query-target-filter=" +:+ names +:+
  "&rsp-subtree=children&rsp-prop-include=config-only".

(** One child of a found instance profile: the child as it is afterwards
    and whether it was marked. *)
Definition verify_child (export_policy : ExportPolicy) (site : RemoteSitePolicy)
    (l3out : L3OutPolicy) (child : instp_child) : instp_child * bool :=
  let site_name := RemoteSitePolicy_name site in
  let l3out_name := L3OutPolicy_name l3out in
  let l3out_tenant := L3OutPolicy_tenant l3out in
  match child with
  | fvRsProv n _ =>
      if py_truth (provides export_policy site_name l3out_name l3out_tenant n)
      then (child, false)
      else (fvRsProv n (Some "deleted"), true)
  | fvRsCons n _ =>
      if py_truth (consumes export_policy site_name l3out_name l3out_tenant n)
      then (child, false)
      else (fvRsCons n (Some "deleted"), true)
  | fvRsProtBy n _ =>
      if py_truth (protected_by export_policy site_name l3out_name l3out_tenant n)
      then (child, false)
      else (fvRsProtBy n (Some "deleted"), true)
  | fvRsConsIf n _ =>
      if py_truth (consumes_cif export_policy site_name l3out_name l3out_tenant n)
      then (child, false)
      else (fvRsConsIf n (Some "deleted"), true)
  | _ => (child, false)
  end.

(** The children loop over one entry: the entry as changed in place and
    the [dirty] flag. *)
Definition verify_entry (export_policy : ExportPolicy) (site : RemoteSitePolicy)
    (l3out : L3OutPolicy) (entry : l3extInstP) : l3extInstP * bool :=
  let checked := verify_child export_policy site l3out <$> instp_children entry in
  (mk_l3extInstP (instp_name entry) (instp_dn entry) (instp_status entry)
     (fst <$> checked),
   existsb snd checked).

Definition verify_endpoints (env : Environment) (collector_sites : list Site)
    (local_site : Site) (export_policy : ExportPolicy) : M MonitorState unit :=
  _ ← for_each_until (get_site_policies export_policy) (fun site =>
    let site_obj := get_site collector_sites (RemoteSitePolicy_name site) in
    for_each_until (get_interfaces site) (fun l3out =>
      let itag := mkIntersiteTag (ExportPolicy_tenant export_policy)
                    (ExportPolicy_app export_policy) (ExportPolicy_epg export_policy)
                    (Site_name local_site) in
      let query_url := tagged_query_url (L3OutPolicy_tenant l3out)
                         (L3OutPolicy_name l3out) (IntersiteTag_str itag) in
      site_session ← attr site_obj Site_session;
      s ← deref site_session;
      resp ← session_get env s query_url;
      if negb (Response_ok resp) then mret Return
      else if bool_decide (totalCount resp = "0") then mret Next
      else
        let query := children_query_url (L3OutPolicy_tenant l3out)
                       (L3OutPolicy_name l3out) (names_filter (imdata resp)) in
        resp ← session_get env s query;
        if negb (Response_ok resp) then mret Return
        else
          _ ← for_each (imdata resp) (fun entry =>
                 let '(entry', dirty) := verify_entry export_policy site l3out entry in
                 if dirty then
                   let url := "/api/mo/uni/tn-" +:+ L3OutPolicy_tenant l3out +:+
                              "/out-" +:+ L3OutPolicy_name l3out +:+ ".json" in
                   _ ← push_to_apic env s url (InstPDoc entry');
                   mret tt
                 else mret tt);
          mret Next));
  mret tt.

(** [Endpoint.get_all_by_epg(session, tenant, app, epg)]. *)
Definition get_all_by_epg (env : Environment) (s : Session)
    (tenant_name app_name epg_name : string) : M MonitorState (list Endpoint) :=
  fun st =>
    (Returned (env_get_all_by_epg env (mon_history st) s tenant_name app_name epg_name),
     mkMonitorState (mon_db st)
       (mon_history st ++ [EvGetAllByEpg s tenant_name app_name epg_name])).

Definition handle_existing_endpoints (env : Environment) (__debug__ : bool)
    (collector_sites : list Site) (local_site : Site) (self_session : Session)
    (policy : ExportPolicy) : M MonitorState unit :=
  endpoints ← get_all_by_epg env self_session (ExportPolicy_tenant policy)
                 (ExportPolicy_app policy) (ExportPolicy_epg policy);
  _ ← for_each endpoints (fun endpoint =>
         on_db (add_endpoint __debug__ endpoint local_site));
  _ ← push_to_remote_sites env __debug__ collector_sites;
  verify_endpoints env collector_sites local_site policy.

(** Maximum number of endpoints to handle in a single burst. *)
Definition MAX_ENDPOINTS : nat := 1000.

Fixpoint handle_endpoint_event_loop (env : Environment) (__debug__ : bool)
    (local_site : Site) (self_session : Session) (num_eps : nat)
  : M MonitorState unit :=
  match num_eps with
  | 0 => mret tt
  | S num_eps' => fun st =>
      if env_has_events env (mon_history st) self_session then
        let ep := env_get_event env (mon_history st) self_session in
        let st' := mkMonitorState (mon_db st)
                     (mon_history st ++ [EvGetEvent self_session ep]) in
        (_ ← on_db (add_endpoint __debug__ ep local_site);
         handle_endpoint_event_loop env __debug__ local_site self_session num_eps') st'
      else (Returned tt, st)
  end.

Definition handle_endpoint_event (env : Environment) (__debug__ : bool)
    (collector_sites : list Site) (local_site : Site) (self_session : Session)
  : M MonitorState unit :=
  _ ← handle_endpoint_event_loop env __debug__ local_site self_session MAX_ENDPOINTS;
  push_to_remote_sites env __debug__ collector_sites.

(** ** Configuration objects *)

Record SitePolicy : Type := mkSitePolicy {
  SitePolicy_name : string;
  SitePolicy_username : string;
  SitePolicy_ip_address : string;
  SitePolicy_password : string;
  SitePolicy_local : string;
  SitePolicy_use_https : string
}.

(** [SitePolicy.__eq__]: the name is not among the fields compared. *)
Definition SitePolicy_eq (self other : SitePolicy) : bool :=
  if bool_decide (SitePolicy_username self ≠ SitePolicy_username other)
     || bool_decide (SitePolicy_ip_address self ≠ SitePolicy_ip_address other)
  then false
  else if bool_decide (SitePolicy_password self ≠ SitePolicy_password other)
          || bool_decide (SitePolicy_local self ≠ SitePolicy_local other)
  then false
  else if bool_decide (SitePolicy_use_https self ≠ SitePolicy_use_https other)
  then false
  else true.

(** [SitePolicy.__ne__]. *)
Definition SitePolicy_ne (self other : SitePolicy) : bool :=
  if SitePolicy_eq self other then false else true.

Definition _validate_boolean_string (item : string) : bool :=
  bool_decide (item ∈ ["True"; "False"]).

Definition _validate_non_empty_string (item : string) : bool :=
  negb (bool_decide (String.length item < 1) || bool_decide (64 < String.length item)).

(** The typed policies stand for entries of the file that hold every key,
    with strings and lists where the keys ask for them.  For these
    [validate] raises [ValueError] or returns; the fields typed [string]
    here pass [_validate_string] and the lists pass [_validate_list].  An
    address is taken to be a plain string, ASCII and without a null
    character, as [socket.inet_aton] wants it. *)
Definition SitePolicy_validate (env : Environment) (self : SitePolicy) : bool :=
  env_inet_aton env (SitePolicy_ip_address self)
  && _validate_boolean_string (SitePolicy_local self)
  && _validate_boolean_string (SitePolicy_use_https self).

Definition L3OutPolicy_validate (self : L3OutPolicy) : bool :=
  forallb (fun c => _validate_non_empty_string (contract_name c))
          (get_provided_contract_policies self)
  && forallb (fun c => _validate_non_empty_string (contract_name c))
             (get_consumed_contract_policies self)
  && forallb (fun t => _validate_non_empty_string (taboo_name t))
             (get_protected_by_policies self)
  && forallb (fun c => _validate_non_empty_string (consumes_interface c))
             (get_consumes_interface_policies self).

Definition RemoteSitePolicy_validate (self : RemoteSitePolicy) : bool :=
  forallb L3OutPolicy_validate (get_interfaces self).

Definition ExportPolicy_validate (self : ExportPolicy) : bool :=
  forallb RemoteSitePolicy_validate (get_site_policies self).

(** An item of the ["config"] list of the configuration file. *)
Inductive config_item : Type :=
  | ItemSite (site : SitePolicy)
  | ItemExport (export : ExportPolicy)
  | ItemOther.

Record IntersiteConfiguration : Type := mkIntersiteConfiguration {
  site_policies : list SitePolicy;
  export_policies : list ExportPolicy
}.

Fixpoint IntersiteConfiguration_items (env : Environment) (items : list config_item)
    (self : IntersiteConfiguration) : result IntersiteConfiguration :=
  match items with
  | [] => Returned self
  | ItemSite site_policy :: rest =>
      if SitePolicy_validate env site_policy
      then IntersiteConfiguration_items env rest
             (mkIntersiteConfiguration (site_policies self ++ [site_policy])
                (export_policies self))
      else Raised ValueError
  | ItemExport export_policy :: rest =>
      if ExportPolicy_validate export_policy
      then IntersiteConfiguration_items env rest
             (mkIntersiteConfiguration (site_policies self)
                (export_policies self ++ [export_policy]))
      else Raised ValueError
  | ItemOther :: rest => IntersiteConfiguration_items env rest self
  end.

(** [IntersiteConfiguration(config)]; [None] is a file without the
    ["config"] key. *)
Definition IntersiteConfiguration_init (env : Environment)
    (config : option (list config_item)) : result IntersiteConfiguration :=
  match config with
  | None => Raised ValueError
  | Some items => IntersiteConfiguration_items env items (mkIntersiteConfiguration [] [])
  end.

(** ** MultisiteCollector *)

Record CollectorState : Type := mkCollectorState {
  sites : list Site;
  config : option IntersiteConfiguration;
  history : list Event
}.

Definition set_sites (f : list Site → list Site) : M CollectorState unit :=
  modify (fun st => mkCollectorState (f (sites st)) (config st) (history st)).

Definition set_config (c : IntersiteConfiguration) : M CollectorState unit :=
  modify (fun st => mkCollectorState (sites st) (Some c) (history st)).

Definition emit (ev : Event) : M CollectorState unit :=
  modify (fun st => mkCollectorState (sites st) (config st) (history st ++ [ev])).

Definition print (msg : string) : M CollectorState unit := emit (EvPrint msg).

(** [print e] for a caught exception [e]: its text goes to the output; the
    model keeps the class of the exception, not its arguments. *)
Definition print_error (e : exn) : M CollectorState unit := emit (EvPrintError e).

Definition get_sites (self_sites : list Site) (local_only remote_only : bool)
  : list Site :=
  if local_only then List.filter Site_local self_sites
  else if remote_only then List.filter (fun site => negb (Site_local site)) self_sites
  else self_sites.

Definition get_local_site (self_sites : list Site) : option Site :=
  let local_sites := get_sites self_sites true false in
  match local_sites with
  | site :: _ => Some site
  | [] => None
  end.

(** Where the object [get_local_site] returns sits in [sites]. *)
Definition local_site_index (self_sites : list Site) : option nat :=
  fst <$> list_find (fun site => Site_local site) self_sites.

Definition delete_site (name : string) : M CollectorState unit :=
  set_sites (for_remove (fun site => bool_decide (name = Site_name site)) Site_eq).

(** [Site.login] and [Site.start], then [LocalSite.start]: the session is
    built from the credentials, the monitor only after a successful login. *)
Definition Site_start (env : Environment) (site : Site)
  : M CollectorState (bool * Site) := fun st =>
  let creds := Site_credentials site in
  let url := (if cred_use_https creds then "https://" else "http://")
             +:+ cred_ip_address creds in
  let s := mkSession url (cred_user_name creds) (cred_password creds) in
  let resp_ok := env_login env (history st) s in
  let st' := mkCollectorState (sites st) (config st)
               (history st ++ [EvLogin s resp_ok]) in
  let site' :=
    mkSite (Site_name site) (Site_local site) creds (Some s) resp_ok
      (if Site_local site && resp_ok then Some (mkMultisiteMonitor s false ∅)
       else LocalSite_monitor site)
      (LocalSite_policy_db site) in
  if resp_ok then (Returned (resp_ok, site'), st')
  else (_ ← print "%% Could not login to APIC on Site"; mret (resp_ok, site')) st'.

Definition add_site (env : Environment) (name : string)
    (creds : SiteLoginCredentials) (local : bool) : M CollectorState bool :=
  _ ← delete_site name;
  let site := mkSite name local creds None false None [] in
  started ← Site_start env site;
  _ ← set_sites (fun l => l ++ [snd started]);
  mret (fst started).

Definition add_site_from_config (env : Environment) (site : SitePolicy)
  : M CollectorState unit :=
  let use_https := if bool_decide (SitePolicy_use_https site = "True") then true else false in
  let creds := mkSiteLoginCredentials (SitePolicy_ip_address site)
                 (SitePolicy_username site) (SitePolicy_password site) use_https in
  let is_local := if bool_decide (SitePolicy_local site = "True") then true else false in
  _ ← add_site env (SitePolicy_name site) creds is_local;
  mret tt.

(** Requests made from the collector's own methods. *)
Definition in_collector {A} (m : M (list Event) A) : M CollectorState A := fun st =>
  match m (history st) with
  | (r, h') => (r, mkCollectorState (sites st) (config st) h')
  end.

Fixpoint _reload_sites_inner (env : Environment) (old_site : SitePolicy)
    (new_sites : list SitePolicy) (added_local_site : bool)
  : M CollectorState (bool * bool) :=
  match new_sites with
  | [] => mret (false, added_local_site)
  | new_site :: rest =>
      if SitePolicy_eq new_site old_site then
        if SitePolicy_ne new_site old_site then
          _ ← delete_site (SitePolicy_name new_site);
          _ ← add_site_from_config env new_site;
          _reload_sites_inner env old_site rest
            (if bool_decide (SitePolicy_local new_site = "True") then true
             else added_local_site)
        else mret (true, added_local_site)
      else _reload_sites_inner env old_site rest added_local_site
  end.

Fixpoint _reload_sites_old (env : Environment) (old_sites new_sites : list SitePolicy)
    (added_local_site : bool) : M CollectorState bool :=
  match old_sites with
  | [] => mret added_local_site
  | old_site :: rest =>
      r ← _reload_sites_inner env old_site new_sites added_local_site;
      let found_site := fst r in
      let added_local_site := snd r in
      _ ← (if negb found_site then delete_site (SitePolicy_name old_site)
           else mret tt);
      _reload_sites_old env rest new_sites added_local_site
  end.

Fixpoint _reload_sites_new (env : Environment) (new_sites old_sites : list SitePolicy)
    (added_local_site : bool) : M CollectorState bool :=
  match new_sites with
  | [] => mret added_local_site
  | new_site :: rest =>
      let site_found :=
        existsb (fun old_site =>
                   bool_decide (SitePolicy_name new_site = SitePolicy_name old_site))
                old_sites in
      if site_found then _reload_sites_new env rest old_sites added_local_site
      else
        _ ← add_site_from_config env new_site;
        _reload_sites_new env rest old_sites
          (if bool_decide (SitePolicy_local new_site = "True") then true
           else added_local_site)
  end.

Definition _reload_sites (env : Environment)
    (old_config new_config : IntersiteConfiguration) : M CollectorState bool :=
  added_local_site ← _reload_sites_old env (site_policies old_config)
                        (site_policies new_config) false;
  _reload_sites_new env (site_policies new_config) (site_policies old_config)
    added_local_site.

(** ** LocalSite and RemoteSite methods, run on the collector's state

    A site object is reached through its position in [sites]. *)

Definition same_object (p q : ExportPolicy) : bool :=
  bool_decide (export_id p = export_id q).

Definition site_at (i : nat) : M CollectorState Site := fun st =>
  match sites st !! i with
  | Some site => (Returned site, st)
  | None => (Raised AttributeError, st)
  end.

Definition set_policy_db (i : nat) (db : list ExportPolicy) : M CollectorState unit :=
  set_sites (fun l =>
    match l !! i with
    | Some site =>
        <[i := mkSite (Site_name site) (Site_local site) (Site_credentials site)
                 (Site_session site) (Site_logged_in site) (LocalSite_monitor site) db]> l
    | None => l
    end).

(** [local_site.monitor.handle_existing_endpoints(policy)]. *)
Definition monitor_handle_existing_endpoints (env : Environment) (__debug__ : bool)
    (i : nat) (policy : ExportPolicy) : M CollectorState unit :=
  local_site ← site_at i;
  mon ← deref (LocalSite_monitor local_site);
  ((fun st =>
      match handle_existing_endpoints env __debug__ (sites st) local_site
              (_session mon) policy
              (mkMonitorState (_endpoints mon) (history st)) with
      | (r, ms) =>
          let site' :=
            mkSite (Site_name local_site) (Site_local local_site)
              (Site_credentials local_site) (Site_session local_site)
              (Site_logged_in local_site)
              (Some (mkMultisiteMonitor (_session mon) (_exit mon) (mon_db ms)))
              (LocalSite_policy_db local_site) in
          (r, mkCollectorState (<[i := site']> (sites st)) (config st)
                (mon_history ms))
      end) : M CollectorState unit).

Definition add_policy (env : Environment) (__debug__ : bool) (i : nat)
    (policy : ExportPolicy) : M CollectorState unit :=
  self ← site_at i;
  let old_policy := get_policy_for_epg self (ExportPolicy_tenant policy)
                      (ExportPolicy_app policy) (ExportPolicy_epg policy) in
  let db1 := match old_policy with
             | Some old => py_remove same_object old (LocalSite_policy_db self)
             | None => LocalSite_policy_db self
             end in
  let db2 := if existsb (same_object policy) db1 then db1 else db1 ++ [policy] in
  _ ← set_policy_db i db2;
  monitor_handle_existing_endpoints env __debug__ i policy.

Definition remove_policy (i : nat) (policy : ExportPolicy) : M CollectorState unit :=
  self ← site_at i;
  if existsb (same_object policy) (LocalSite_policy_db self)
  then set_policy_db i (py_remove same_object policy (LocalSite_policy_db self))
  else raise ValueError.

Definition remove_all_entries (env : Environment) (self : Site)
    (itag l3out_name l3out_tenant_name : string) : M CollectorState unit :=
  if Site_local self then raise AttributeError
  else
    s ← deref (Site_session self);
    resp ← in_collector (Session_get env s
                           (tagged_query_url l3out_tenant_name l3out_name itag));
    if negb (Response_ok resp) then mret tt
    else
      for_each (imdata resp) (fun entry =>
        dn ← lift_result (match instp_dn entry with
                          | Some dn => Returned dn
                          | None => Raised KeyError
                          end);
        _ ← in_collector (Session_push_to_apic env s ("/api/mo/" +:+ dn +:+ ".json")
                            StatusDeletedDoc);
        mret tt).

Definition remove_all_entries_for_policy (env : Environment)
    (export_policy : ExportPolicy) : M CollectorState unit :=
  for_each (get_site_policies export_policy) (fun site =>
    for_each (get_interfaces site) (fun l3out =>
      st ← get_state;
      let site_obj := get_site (sites st) (RemoteSitePolicy_name site) in
      local_name ← attr (get_local_site (sites st)) Site_name;
      let itag := mkIntersiteTag (ExportPolicy_tenant export_policy)
                    (ExportPolicy_app export_policy) (ExportPolicy_epg export_policy)
                    local_name in
      site_obj ← deref site_obj;
      remove_all_entries env site_obj (IntersiteTag_str itag)
        (L3OutPolicy_name l3out) (L3OutPolicy_tenant l3out))).

Definition initialize_local_site (env : Environment) (__debug__ : bool)
  : M CollectorState unit :=
  st ← get_state;
  match local_site_index (sites st) with
  | None => print "%% No local site configured"
  | Some i =>
      cfg ← deref (config st);
      for_each (export_policies cfg) (fun export_policy =>
        add_policy env __debug__ i export_policy)
  end.

Definition reload_new_policies (env : Environment) (__debug__ : bool)
    (old_config new_config : IntersiteConfiguration) : M CollectorState flow :=
  for_each_until (export_policies new_config) (fun new_policy =>
    let found := List.find (fun old_policy => has_same_epg new_policy old_policy)
                           (export_policies old_config) in
    st ← get_state;
    match local_site_index (sites st) with
    | None => _ ← print "%% No local site configured"; mret Return
    | Some i =>
        _ ← match found with
            | Some old_policy => remove_policy i old_policy
            | None => mret tt
            end;
        _ ← add_policy env __debug__ i new_policy;
        _ ← monitor_handle_existing_endpoints env __debug__ i new_policy;
        mret Next
    end).

Definition reload_deleted_policies (env : Environment)
    (old_config new_config : IntersiteConfiguration) : M CollectorState flow :=
  for_each_until (export_policies old_config) (fun old_policy =>
    let policy_found :=
      existsb (fun new_policy => has_same_epg old_policy new_policy)
              (export_policies new_config) in
    if policy_found then mret Next
    else
      st ← get_state;
      match local_site_index (sites st) with
      | None => _ ← print "%% No local site configured"; mret Return
      | Some i =>
          _ ← remove_policy i old_policy;
          _ ← remove_all_entries_for_policy env old_policy;
          mret Next
      end).

(** [reload_config]; [new_config] is what [json.load] read from the
    configuration file. *)
Definition reload_config (env : Environment) (__debug__ : bool)
    (new_config : option (list config_item)) : M CollectorState unit :=
  match new_config with
  | None => print "%% Invalid configuration file"
  | Some _ =>
      st ← get_state;
      match IntersiteConfiguration_init env new_config with
      | Raised ValueError =>
          _ ← print "Could not load improperly formatted configuration file";
          print_error ValueError
      | Raised e => raise e
      | Returned new_config =>
          old_config ← deref (config st);
          added_local_site ← _reload_sites env old_config new_config;
          if added_local_site : bool then
            _ ← set_config new_config;
            initialize_local_site env __debug__
          else
            f ← reload_new_policies env __debug__ old_config new_config;
            match f with
            | Return => mret tt
            | Next =>
                _ ← reload_deleted_policies env old_config new_config;
                mret tt
            end
      end
  end.

(** [initialize_tool(config)], run on a collector that has no site yet. *)
Definition initialize_tool (env : Environment) (__debug__ : bool)
    (config : option (list config_item)) : M CollectorState unit :=
  match IntersiteConfiguration_init env config with
  | Raised ValueError =>
      _ ← print "Could not load improperly formatted configuration file";
      _ ← print_error ValueError;
      raise SystemExit
  | Raised e => raise e
  | Returned cfg =>
      _ ← set_config cfg;
      _ ← for_each (site_policies cfg) (add_site_from_config env);
      initialize_local_site env __debug__
  end.

Definition empty_collector : CollectorState := mkCollectorState [] None [].

(** ** Counting, for the proofs about patterns *)

Fixpoint count_char (c : ascii) (s : string) : nat :=
  match s with
  | EmptyString => 0
  | String a s' => (if Ascii.eqb a c then 1 else 0) + count_char c s'
  end.

(** The literal characters [c] of a pattern. *)
Fixpoint count_lit (c : ascii) (p : list re_atom) : nat :=
  match p with
  | [] => 0
  | ReChar a :: p' => (if Ascii.eqb a c then 1 else 0) + count_lit c p'
  | _ :: p' => count_lit c p'
  end.

(** ** Well-formed tag fields *)

(** A field as the specification wants it: not empty, without the
    delimiter. *)
Definition valid_field (s : string) : bool :=
  negb (bool_decide (s = "")) && negb (contains_char ":" s).

Definition single_line (s : string) : bool := negb (contains_char newline s).

(** The grammar as the specification words it: the prefix and exactly four
    non-empty fields, all separated by [:]. *)
Definition spec_tag_grammar (s : string) : bool :=
  match split ":" s with
  | [prefix; f1; f2; f3; f4] =>
      bool_decide (prefix = "isite")
      && negb (bool_decide (f1 = "")) && negb (bool_decide (f2 = ""))
      && negb (bool_decide (f3 = "")) && negb (bool_decide (f4 = ""))
  | _ => false
  end.

(** ** Requests of a flush *)

(** The session requests go through for a site of that name, if any. *)
Definition site_session_of (collector_sites : list Site) (name : string)
  : option Session :=
  site ← get_site collector_sites name; Site_session site.

(** The push requests among some events, without their outcome. *)
Definition push_requests (events : list Event)
  : list (Session * string * Document) :=
  omap (fun ev => match ev with
                  | EvPush s url doc _ => Some (s, url, doc)
                  | _ => None
                  end) events.

(** One push per queued tenant document, site after site. *)
Definition flush_requests (env : Environment) (collector_sites : list Site)
    (queue : list (string * list fvTenant)) : list (Session * string * Document) :=
  '(remote_site, tenants) ← queue;
  match site_session_of collector_sites remote_site with
  | Some s =>
      (fun tenant_json => (s, Tenant_get_url env, TenantDoc tenant_json)) <$> tenants
  | None => []
  end.

(** ** What is queued, and when a queue is well formed *)

Definition instp_named (key : string) (c : l3extOut_child) : option l3extInstP :=
  match c with
  | Mo_l3extInstP p => if decide (instp_name p = key) then Some p else None
  | Mo_out_other _ => None
  end.

Definition out_named (name : string) (c : fvTenant_child) : option l3extOut :=
  match c with
  | Mo_l3extOut o => if decide (out_name o = name) then Some o else None
  | Mo_tn_other _ => None
  end.

(** The instance profiles queued for [remote_site] under the tenant
    [tenant_name] and the interface [l3out_name] whose name is [key]. *)
Definition queued_in_tenant (l3out_name key : string) (cs : list fvTenant_child)
  : list l3extInstP :=
  l3out ← omap (out_named l3out_name) cs;
  omap (instp_named key) (out_children l3out).

Definition queued_in_site (tenant_name l3out_name key : string)
    (tenants : list fvTenant) : list l3extInstP :=
  tenant_json ← tenants;
  if decide (tn_name tenant_json = tenant_name)
  then queued_in_tenant l3out_name key (tn_children tenant_json)
  else [].

Definition queued (db : Queue) (remote_site tenant_name l3out_name key : string)
  : list l3extInstP :=
  queued_in_site tenant_name l3out_name key (default [] (db !! remote_site)).

Definition instp_key (c : l3extOut_child) : option string :=
  match c with
  | Mo_l3extInstP p => Some (instp_name p)
  | Mo_out_other _ => None
  end.

Definition out_key (c : fvTenant_child) : option string :=
  match c with
  | Mo_l3extOut o => Some (out_name o)
  | Mo_tn_other _ => None
  end.

Definition no_dash (s : string) : Prop := contains_char "-" s = false.

Definition wf_out_children (cs : list l3extOut_child) : Prop :=
  NoDup (omap instp_key cs) ∧ Forall no_dash (omap instp_key cs).

Definition wf_tenant_children (cs : list fvTenant_child) : Prop :=
  NoDup (omap out_key cs) ∧
  ∀ o, Mo_l3extOut o ∈ cs → wf_out_children (out_children o).

Definition wf_tenants (tenants : list fvTenant) : Prop :=
  NoDup (tn_name <$> tenants) ∧
  Forall (fun tenant_json => wf_tenant_children (tn_children tenant_json)) tenants.

Definition wf_queue (db : Queue) : Prop :=
  ∀ remote_site tenants, db !! remote_site = Some tenants → wf_tenants tenants.

(** ** What an endpoint asks to be queued *)

(** The instance profile shows the endpoint as it is: its key, its address
    or the deletion marker, and the tag. *)
Definition reflects (endpoint : Endpoint) (tag : IntersiteTag) (p : l3extInstP)
  : Prop :=
  instp_name p = mac endpoint ∧
  instp_status p = (if is_deleted endpoint then Some "deleted" else None) ∧
  (is_deleted endpoint = false →
   ∃ addr, ip endpoint = Some addr ∧ l3extSubnet (addr +:+ "/32") ∈ instp_children p) ∧
  tagInst (IntersiteTag_str tag) ∈ instp_children p.

(** The policy [add_endpoint] applies to an endpoint, if it applies one. *)
Definition exported (endpoint : Endpoint) (local_site : Site) : option ExportPolicy :=
  if bool_decide (ip endpoint = Some "0.0.0.0")
     || (bool_decide (ip endpoint = None) && negb (is_deleted endpoint))
  then None
  else get_policy_for_epg local_site (ep_tenant endpoint) (ep_app endpoint)
         (ep_epg endpoint).

(** The (remote site, tenant, interface) triples a policy exports to. *)
Definition targets (policy : ExportPolicy) : list (string * string * string) :=
  remote_site_policy ← get_site_policies policy;
  l3out_policy ← get_interfaces remote_site_policy;
  [(RemoteSitePolicy_name remote_site_policy, L3OutPolicy_tenant l3out_policy,
    L3OutPolicy_name l3out_policy)].

(** [add_endpoint] queues [endpoint] at the interface [l3out_name] of
    [tenant_name] at [remote_site]: the endpoint is not ignored and the
    export policy of its scope names that interface. *)
Definition queues_at (local_site : Site) (remote_site tenant_name l3out_name : string)
    (endpoint : Endpoint) : Prop :=
  ∃ policy, exported endpoint local_site = Some policy ∧
            (remote_site, tenant_name, l3out_name) ∈ targets policy.

Definition tag_of (endpoint : Endpoint) (local_site : Site) : IntersiteTag :=
  mkIntersiteTag (ep_tenant endpoint) (ep_app endpoint) (ep_epg endpoint)
    (Site_name local_site).

(** A burst: the endpoints fed to [add_endpoint] between two flushes. *)
Definition burst (__debug__ : bool) (local_site : Site) (endpoints : list Endpoint)
  : M Queue unit :=
  for_each endpoints (fun endpoint => add_endpoint __debug__ endpoint local_site).

(** What adding [endpoint] with the triples [T] as targets does to a queue:
    the queue stays well formed, each target holds exactly one instance
    profile for the endpoint's key, showing the endpoint, and nothing else
    changes. *)
Definition queue_post (endpoint : Endpoint) (tag : IntersiteTag)
    (T : list (string * string * string)) (db db' : Queue) : Prop :=
  wf_queue db' ∧
  ∀ s t o k,
    if decide (k = mac endpoint ∧ (s, t, o) ∈ T)
    then ∃ p, reflects endpoint tag p ∧ queued db' s t o k = [p]
    else queued db' s t o k = queued db s t o k.

(** ** Sample data

    The scenario of the specification: the scope (T1, A1, G1) is exported to
    the remote site R1 through the interface out1 of tenant T1. *)

Definition sample_l3out : L3OutPolicy :=
  mkL3OutPolicy "out1" "T1"
    [mkProvidedContractPolicy "c1"; mkProvidedContractPolicy "c2"] [] [] [].

Definition sample_export (id : nat) : ExportPolicy :=
  mkExportPolicy id "T1" "A1" "G1" [mkRemoteSitePolicy "R1" [sample_l3out]].

Definition sample_local_site : Site :=
  mkSite "local" true (mkSiteLoginCredentials "10.0.0.1" "admin" "pw" false)
    (Some (mkSession "http://10.0.0.1" "admin" "pw")) true
    (Some (mkMultisiteMonitor (mkSession "http://10.0.0.1" "admin" "pw") false ∅))
    [sample_export 0].

Definition sample_remote_site : Site :=
  mkSite "R1" false (mkSiteLoginCredentials "10.0.0.9" "admin" "pw" false)
    (Some (mkSession "http://10.0.0.9" "admin" "pw")) true None [].

Definition sample_endpoint (key : string) (addr : option string) (deleted : bool)
  : Endpoint :=
  mkEndpoint key addr deleted "T1" "A1" "G1".

(** ** Sample environments *)

Definition is_digit (c : ascii) : bool :=
  (48 <=? nat_of_ascii c)%nat && (nat_of_ascii c <=? 57)%nat.

Fixpoint decimal_value (s : string) (acc : nat) : option nat :=
  match s with
  | EmptyString => Some acc
  | String c s' =>
      if is_digit c then decimal_value s' (10 * acc + (nat_of_ascii c - 48))
      else None
  end.

(** Four decimal parts between 0 and 255: the addresses the sample
    environments take for valid ([socket.inet_aton] itself also takes
    shorter and non-decimal forms). *)
Definition dotted_quad (s : string) : bool :=
  match split "." s with
  | [a; b; c; d] =>
      forallb (fun part =>
                 negb (bool_decide (part = ""))
                 && match decimal_value part 0 with
                    | Some n => (n <=? 255)%nat
                    | None => false
                    end) [a; b; c; d]
  | _ => false
  end.

(** Every login and push succeeds, queries find nothing, the local site has
    no endpoint and no event. *)
Definition quiet_env : Environment :=
  mkEnvironment
    (fun _ _ => true)
    (fun _ _ _ => mkResponse true "0" [])
    (fun _ _ _ _ => true)
    (fun _ _ _ _ _ => [])
    (fun _ _ => false)
    (fun _ _ => mkEndpoint "" None false "" "" "")
    dotted_quad
    "/api/mo/uni.json".

(** Every push fails. *)
Definition failing_push_env : Environment :=
  mkEnvironment
    (fun _ _ => true)
    (fun _ _ _ => mkResponse true "0" [])
    (fun _ _ _ _ => false)
    (fun _ _ _ _ _ => [])
    (fun _ _ => false)
    (fun _ _ => mkEndpoint "" None false "" "" "")
    dotted_quad
    "/api/mo/uni.json".

(** An instance profile found at the remote site, providing the contracts
    c1 and c2. *)
Definition found_profile : l3extInstP :=
  mk_l3extInstP "aa:bb:cc" (Some "uni/tn-T1/out-out1/instP-aa:bb:cc") None
    [l3extSubnet "10.0.0.5/32"; fvRsProv "c1" None; fvRsProv "c2" None;
     tagInst "isite:T1:A1:G1:local"].

(** Every query finds [found_profile]. *)
Definition found_profile_env : Environment :=
  mkEnvironment
    (fun _ _ => true)
    (fun _ _ _ => mkResponse true "1" [found_profile])
    (fun _ _ _ _ => true)
    (fun _ _ _ _ _ => [])
    (fun _ _ => false)
    (fun _ _ => mkEndpoint "" None false "" "" "")
    dotted_quad
    "/api/mo/uni.json".

Definition sample_site_policy (name ip_address local : string) : SitePolicy :=
  mkSitePolicy name "admin" ip_address "pw" local "False".

(** ** Relating the state before and after a call *)

(** [always R m]: whatever [m] does, returning or raising, it takes a
    state to one related to it by [R]. *)
Definition always {S A} (R : S → S → Prop) (m : M S A) : Prop :=
  ∀ st, R st (m st).2.

(** The history only grows. *)
Definition history_grows (st st' : CollectorState) : Prop :=
  history st `prefix_of` history st'.

Definition mon_history_grows (st st' : MonitorState) : Prop :=
  mon_history st `prefix_of` mon_history st'.

(** Sites stay where they are and what they are, local or remote; the
    history only grows. *)
Definition sites_kept (st st' : CollectorState) : Prop :=
  Site_local <$> sites st' = Site_local <$> sites st ∧
  history st `prefix_of` history st'.

Definition num_local (self_sites : list Site) : nat :=
  length (get_sites self_sites true false).

Definition num_local_policies (policies : list SitePolicy) : nat :=
  length (List.filter (fun site => bool_decide (SitePolicy_local site = "True"))
            policies).

(** What the collector offers to change its sites. *)
Inductive site_operation : Type :=
  | OpAddSite (name : string) (credentials : SiteLoginCredentials) (local : bool)
  | OpAddSiteFromConfig (site : SitePolicy)
  | OpDeleteSite (name : string).

Definition adds_local (op : site_operation) : bool :=
  match op with
  | OpAddSite _ _ local => local
  | OpAddSiteFromConfig site => bool_decide (SitePolicy_local site = "True")
  | OpDeleteSite _ => false
  end.

Definition num_local_adds (ops : list site_operation) : nat :=
  length (List.filter adds_local ops).

Definition run_site_operation (env : Environment) (op : site_operation)
  : M CollectorState unit :=
  match op with
  | OpAddSite name credentials local => _ ← add_site env name credentials local; mret tt
  | OpAddSiteFromConfig site => add_site_from_config env site
  | OpDeleteSite name => delete_site name
  end.

(** The events since the history was [before] long. *)
Definition events_since (before : CollectorState) (after : CollectorState)
  : list Event :=
  drop (length (history before)) (history after).

(** A configuration file: the local site at [ip_address], the remote site
    R1 and the sample export policy, read into objects of identity [id]. *)
Definition sample_config (ip_address : string) (id : nat) : option (list config_item) :=
  Some [ItemSite (sample_site_policy "local" ip_address "True");
        ItemSite (sample_site_policy "R1" "10.0.0.9" "False");
        ItemExport (sample_export id)].

(** The collector once [sample_config] is loaded. *)
Definition sample_loaded : CollectorState :=
  (initialize_tool quiet_env true (sample_config "10.0.0.1" 0) empty_collector).2.

(** Two tenant documents queued for R1. *)
Definition sample_queue : MonitorState :=
  mkMonitorState (<["R1" := [mk_fvTenant "T1" []; mk_fvTenant "T2" []]]> ∅) [].

(** [sample_config] once validated. *)
Definition sample_configuration (ip_address : string) (id : nat)
  : IntersiteConfiguration :=
  mkIntersiteConfiguration
    [sample_site_policy "local" ip_address "True";
     sample_site_policy "R1" "10.0.0.9" "False"]
    [sample_export id].

(** ** More ways to state what the tool does *)

(** Whether a flush can serve one entry of the store: the remote site is a
    site of the collector, and it has a session unless nothing is queued
    for it. *)
Definition can_push (collector_sites : list Site) (entry : string * list fvTenant)
  : bool :=
  match get_site collector_sites entry.1 with
  | Some site =>
      match Site_session site with
      | Some _ => true
      | None => bool_decide (entry.2 = [])
      end
  | None => false
  end.

(** ** Bindings of an instance profile *)

(** The name a binding refers to; nothing for a child that is no binding. *)
Definition binding_name (child : instp_child) : option string :=
  match child with
  | fvRsProv n _ | fvRsCons n _ | fvRsProtBy n _ | fvRsConsIf n _ => Some n
  | l3extSubnet _ | tagInst _ | instp_other _ => None
  end.

Definition binding_status (child : instp_child) : option string :=
  match child with
  | fvRsProv _ status | fvRsCons _ status | fvRsProtBy _ status
  | fvRsConsIf _ status => status
  | l3extSubnet _ | tagInst _ | instp_other _ => None
  end.

(** The names an interface policy lists for the kind of a binding. *)
Definition listed_names (l3out : L3OutPolicy) (child : instp_child) : list string :=
  match child with
  | fvRsProv _ _ => contract_name <$> get_provided_contract_policies l3out
  | fvRsCons _ _ => contract_name <$> get_consumed_contract_policies l3out
  | fvRsProtBy _ _ => taboo_name <$> get_protected_by_policies l3out
  | fvRsConsIf _ _ => consumes_interface <$> get_consumes_interface_policies l3out
  | l3extSubnet _ | tagInst _ | instp_other _ => []
  end.

(** A binding with its status set to "deleted"; other children as they
    are. *)
Definition mark_deleted (child : instp_child) : instp_child :=
  match child with
  | fvRsProv n _ => fvRsProv n (Some "deleted")
  | fvRsCons n _ => fvRsCons n (Some "deleted")
  | fvRsProtBy n _ => fvRsProtBy n (Some "deleted")
  | fvRsConsIf n _ => fvRsConsIf n (Some "deleted")
  | l3extSubnet _ | tagInst _ | instp_other _ => child
  end.

(** ** The verification pass, loop by loop *)

Definition interface_url (l3out : L3OutPolicy) : string :=
  "/api/mo/uni/tn-" +:+ L3OutPolicy_tenant l3out +:+
  "/out-" +:+ L3OutPolicy_name l3out +:+ ".json".

(** The body of the loop over the entries found: an entry that was marked
    is pushed back. *)
Definition verify_push_entry (env : Environment) (export_policy : ExportPolicy)
    (site : RemoteSitePolicy) (l3out : L3OutPolicy) (s : Session)
    (entry : l3extInstP) : M MonitorState unit :=
  let '(entry', dirty) := verify_entry export_policy site l3out entry in
  if dirty then
    let url := "/api/mo/uni/tn-" +:+ L3OutPolicy_tenant l3out +:+
               "/out-" +:+ L3OutPolicy_name l3out +:+ ".json" in
    _ ← push_to_apic env s url (InstPDoc entry');
    mret tt
  else mret tt.

(** The body of the loop over the interfaces of one remote site. *)
Definition verify_interface (env : Environment) (collector_sites : list Site)
    (local_site : Site) (export_policy : ExportPolicy) (site : RemoteSitePolicy)
    (l3out : L3OutPolicy) : M MonitorState flow :=
  let site_obj := get_site collector_sites (RemoteSitePolicy_name site) in
  let itag := mkIntersiteTag (ExportPolicy_tenant export_policy)
                (ExportPolicy_app export_policy) (ExportPolicy_epg export_policy)
                (Site_name local_site) in
  let query_url := tagged_query_url (L3OutPolicy_tenant l3out)
                     (L3OutPolicy_name l3out) (IntersiteTag_str itag) in
  site_session ← attr site_obj Site_session;
  s ← deref site_session;
  resp ← session_get env s query_url;
  if negb (Response_ok resp) then mret Return
  else if bool_decide (totalCount resp = "0") then mret Next
  else
    let query := children_query_url (L3OutPolicy_tenant l3out)
                   (L3OutPolicy_name l3out) (names_filter (imdata resp)) in
    resp ← session_get env s query;
    if negb (Response_ok resp) then mret Return
    else
      _ ← for_each (imdata resp)
             (verify_push_entry env export_policy site l3out s);
      mret Next.

(** The first query of the pass for an interface: the instance profiles
    that carry the tag of the policy. *)
Definition tagged_query (local_site : Site) (export_policy : ExportPolicy)
    (l3out : L3OutPolicy) : string :=
  tagged_query_url (L3OutPolicy_tenant l3out) (L3OutPolicy_name l3out)
    (IntersiteTag_str
       (mkIntersiteTag (ExportPolicy_tenant export_policy)
          (ExportPolicy_app export_policy) (ExportPolicy_epg export_policy)
          (Site_name local_site))).

(** A query that was not answered. *)
Definition failed_get (ev : Event) : bool :=
  match ev with
  | EvGet _ _ resp_ok => negb resp_ok
  | _ => false
  end.

(** What the verification of [export_policy] may ask of the remote sites:
    queries, and pushes of an instance profile with a binding marked
    deleted to an interface of the policy; both through the session of a
    remote site the policy names. *)
Definition verify_request (collector_sites : list Site) (export_policy : ExportPolicy)
    (ev : Event) : Prop :=
  match ev with
  | EvGet s _ _ =>
      ∃ site, site ∈ get_site_policies export_policy ∧
              site_session_of collector_sites (RemoteSitePolicy_name site) = Some s
  | EvPush s url (InstPDoc entry) _ =>
      (∃ site l3out,
         site ∈ get_site_policies export_policy ∧ l3out ∈ get_interfaces site ∧
         site_session_of collector_sites (RemoteSitePolicy_name site) = Some s ∧
         url = interface_url l3out) ∧
      ∃ child, child ∈ instp_children entry ∧ is_Some (binding_name child) ∧
               binding_status child = Some "deleted"
  | _ => False
  end.

(** How the events of a pass relate to its outcome: a pass that gave up
    ([Return]) ends with the query that failed, the first to fail; any
    other pass saw no query fail. *)
Definition stops_at_failed_get {A} (r : result A) (is_return : A → bool)
    (events : list Event) : Prop :=
  match r with
  | Returned a =>
      if is_return a then
        ∃ before ev, events = before ++ [ev] ∧ failed_get ev = true ∧
                     Forall (fun ev => failed_get ev = false) before
      else Forall (fun ev => failed_get ev = false) events
  | Raised _ => Forall (fun ev => failed_get ev = false) events
  end.

Definition is_Return (f : flow) : bool :=
  match f with
  | Return => true
  | Next => false
  end.

(** Every remote site a registered export policy of the local site names
    with an interface has a session in the collector. *)
Definition remote_sites_known (collector_sites : list Site) (local_site : Site)
  : Prop :=
  ∀ policy s,
    policy ∈ LocalSite_policy_db local_site →
    s ∈ (fun x : string * string * string => x.1.1) <$> targets policy →
    is_Some (site_session_of collector_sites s).

(** ** The collector's registry of sites *)

(** The session [Site.login] builds from the credentials of a site. *)
Definition login_session (creds : SiteLoginCredentials) : Session :=
  mkSession ((if cred_use_https creds then "https://" else "http://")
             +:+ cred_ip_address creds)
    (cred_user_name creds) (cred_password creds).

(** What identifies a site and its connection, apart from the policies
    registered with it and the store of its monitor. *)
Definition site_identity (site : Site)
  : string * bool * SiteLoginCredentials * option Session * bool * option Session :=
  (Site_name site, Site_local site, Site_credentials site, Site_session site,
   Site_logged_in site, _session <$> LocalSite_monitor site).

Definition site_names (st : CollectorState) : list string :=
  Site_name <$> sites st.

(** The calls that change a collector once [initialize_tool] has made it. *)
Inductive collector_call : Type :=
  | CallAddSite (name : string) (credentials : SiteLoginCredentials) (local : bool)
  | CallAddSiteFromConfig (site : SitePolicy)
  | CallDeleteSite (name : string)
  | CallInitializeLocalSite
  | CallReloadConfig (new_config : option (list config_item)).

Definition run_collector_call (env : Environment) (__debug__ : bool)
    (call : collector_call) : M CollectorState unit :=
  match call with
  | CallAddSite name credentials local =>
      _ ← add_site env name credentials local; mret tt
  | CallAddSiteFromConfig site => add_site_from_config env site
  | CallDeleteSite name => delete_site name
  | CallInitializeLocalSite => initialize_local_site env __debug__
  | CallReloadConfig new_config => reload_config env __debug__ new_config
  end.

(** Site names stay distinct. *)
Definition names_stay_unique (st st' : CollectorState) : Prop :=
  NoDup (site_names st) → NoDup (site_names st').

(** The sites stay, each with its identity. *)
Definition identities_kept (st st' : CollectorState) : Prop :=
  site_identity <$> sites st' = site_identity <$> sites st.

(** ** The registry of export policies of the local site *)

Definition policy_scope (policy : ExportPolicy) : string * string * string :=
  (ExportPolicy_tenant policy, ExportPolicy_app policy, ExportPolicy_epg policy).

(** A registry as [add_policy] keeps it: one policy for a scope, and every
    object in it once. *)
Definition registry_wf (db : list ExportPolicy) : Prop :=
  NoDup (policy_scope <$> db) ∧ NoDup (export_id <$> db).

(** An identity stands for one object: what is registered under the
    identity of [policy] is [policy]. *)
Definition same_identity_same_policy (policy : ExportPolicy)
    (db : list ExportPolicy) : Prop :=
  ∀ registered, registered ∈ db → export_id registered = export_id policy →
                registered = policy.

(** The test [get_policy_for_epg] applies to each registered policy. *)
Definition scope_is (tenant_name app_name epg_name : string) (policy : ExportPolicy)
  : bool :=
  bool_decide (ExportPolicy_tenant policy = tenant_name)
  && bool_decide (ExportPolicy_app policy = app_name)
  && bool_decide (ExportPolicy_epg policy = epg_name).

(** A site with another registry. *)
Definition with_policy_db (self : Site) (db : list ExportPolicy) : Site :=
  mkSite (Site_name self) (Site_local self) (Site_credentials self)
    (Site_session self) (Site_logged_in self) (LocalSite_monitor self) db.

(** ** Configurations, entry by entry *)

Definition item_valid (env : Environment) (item : config_item) : bool :=
  match item with
  | ItemSite site => SitePolicy_validate env site
  | ItemExport export => ExportPolicy_validate export
  | ItemOther => true
  end.

Definition item_site (item : config_item) : option SitePolicy :=
  match item with
  | ItemSite site => Some site
  | _ => None
  end.

Definition item_export (item : config_item) : option ExportPolicy :=
  match item with
  | ItemExport export => Some export
  | _ => None
  end.

(** ** Reloading the sites, as calls on the collector *)

(** The old sites a reload deletes: those without a new entry that has the
    same username, address, password, locality and https flag. *)
Definition sites_to_delete (old_sites new_sites : list SitePolicy) : list string :=
  SitePolicy_name <$>
    List.filter (fun old_site =>
                   negb (existsb (fun new_site => SitePolicy_eq new_site old_site)
                           new_sites))
                old_sites.

(** The new entries a reload adds: those whose name no old entry has. *)
Definition sites_to_add (old_sites new_sites : list SitePolicy) : list SitePolicy :=
  List.filter (fun new_site =>
                 negb (existsb (fun old_site =>
                                  bool_decide (SitePolicy_name new_site
                                               = SitePolicy_name old_site))
                         old_sites))
              new_sites.

(** The deletion requests [remove_all_entries] sends for the entries a
    query found. *)
Definition deletion_requests (s : Session) (entries : list l3extInstP)
  : list (Session * string * Document) :=
  omap (fun entry =>
          dn ← instp_dn entry;
          Some (s, "/api/mo/" +:+ dn +:+ ".json", StatusDeletedDoc)) entries.

(** ** More sample data *)

(** One endpoint event is pending until it is taken, the local site lists
    one endpoint, and every request succeeds. *)
Definition pending_event_env : Environment :=
  mkEnvironment
    (fun _ _ => true)
    (fun _ _ _ => mkResponse true "0" [])
    (fun _ _ _ _ => true)
    (fun _ _ _ _ _ => [sample_endpoint "aa:bb:cc" (Some "10.0.0.5") false])
    (fun h _ => match h with [] => true | _ :: _ => false end)
    (fun _ _ => sample_endpoint "aa:bb:cc" (Some "10.0.0.5") false)
    dotted_quad
    "/api/mo/uni.json".

(** Two endpoint events are pending, for the same endpoint: it appears
    with an address, then it is removed.  Every request succeeds. *)
Definition two_event_env : Environment :=
  mkEnvironment
    (fun _ _ => true)
    (fun _ _ _ => mkResponse true "0" [])
    (fun _ _ _ _ => true)
    (fun _ _ _ _ _ => [])
    (fun h _ => bool_decide (length h < 2))
    (fun h _ => match h with
                | [] => sample_endpoint "aa:bb:cc" (Some "10.0.0.5") false
                | _ :: _ => sample_endpoint "aa:bb:cc" None true
                end)
    dotted_quad
    "/api/mo/uni.json".

Definition sample_sites : list Site := [sample_local_site; sample_remote_site].

Definition sample_session : Session := mkSession "http://10.0.0.1" "admin" "pw".

(** ** Configuration files as JSON values

    The configuration objects of the tool wrap what [json.load] read and
    validate it when they are made.  Under Python 2, which the tool is
    written for, [json.load] yields [None], booleans, numbers, [unicode]
    strings, lists and dicts with string keys.  A dict is listed here in the
    order its keys are iterated; a number is kept as its literal; strings
    are made of code points below 256. *)

#[warnings="-register-all"] Inductive json : Type :=
  | JNull
  | JBool (b : bool)
  | JNum (literal : string)
  | JStr (s : string)
  | JList (items : list json)
  | JDict (entries : list (string * json)).

(** [needle in haystack] on strings. *)
Fixpoint is_substring (needle haystack : string) : bool :=
  String.prefix needle haystack ||
  match haystack with
  | String _ rest => is_substring needle rest
  | EmptyString => false
  end.

Definition json_is_str (s : string) (j : json) : bool :=
  match j with
  | JStr s' => bool_decide (s' = s)
  | _ => false
  end.

Fixpoint assoc {A} (key : string) (entries : list (string * A)) : option A :=
  match entries with
  | [] => None
  | (k, v) :: rest => if bool_decide (k = key) then Some v else assoc key rest
  end.

(** [needle in container] for a string [needle]: a key of a dict, an item
    of a list, a part of a string; other values are not iterable. *)
Definition py_contains (needle : string) (container : json) : result bool :=
  match container with
  | JDict entries => Returned (bool_decide (is_Some (assoc needle entries)))
  | JList items => Returned (existsb (json_is_str needle) items)
  | JStr s => Returned (is_substring needle s)
  | JNull | JBool _ | JNum _ => Raised TypeError
  end.

(** [container[key]] for a string [key]: only a dict takes one. *)
Definition py_getitem (container : json) (key : string) : result json :=
  match container with
  | JDict entries =>
      match assoc key entries with
      | Some v => Returned v
      | None => Raised KeyError
      end
  | JNull | JBool _ | JNum _ | JStr _ | JList _ => Raised TypeError
  end.

Fixpoint chars (s : string) : list string :=
  match s with
  | EmptyString => []
  | String c rest => String c EmptyString :: chars rest
  end.

(** [for x in container]: the keys of a dict, the items of a list, the
    characters of a string. *)
Definition py_iter (container : json) : result (list json) :=
  match container with
  | JDict entries => Returned (JStr <$> entries.*1)
  | JList items => Returned items
  | JStr s => Returned (JStr <$> chars s)
  | JNull | JBool _ | JNum _ => Raised TypeError
  end.

(** Loops of code that only raises or returns. *)
Fixpoint result_for_each {A} (l : list A) (body : A → result unit) : result unit :=
  match l with
  | [] => Returned tt
  | x :: l' => _ ← body x; result_for_each l' body
  end.

(** [for x in l: out.append(f(x))]. *)
Fixpoint result_map {A B} (l : list A) (f : A → result B) : result (list B) :=
  match l with
  | [] => Returned []
  | x :: l' => y ← f x; ys ← result_map l' f; Returned (y :: ys)
  end.

(** *** The validators of [ConfigObject] *)

Inductive validator : Type :=
  | _validate_string
  | _validate_ip_address
  | _validate_boolean_string_of
  | _validate_list.

Fixpoint is_ascii_string (s : string) : bool :=
  match s with
  | EmptyString => true
  | String a rest => (nat_of_ascii a <? 128)%nat && is_ascii_string rest
  end.

Definition nul : ascii := ascii_of_nat 0.

(** [_validate_string]: a [unicode] passes, anything else is no [str]. *)
Definition run__validate_string (item : json) : result unit :=
  match item with
  | JStr _ => Returned tt
  | _ => Raised ValueError
  end.

(** [_validate_non_empty_string]. *)
Definition run__validate_non_empty_string (item : json) : result unit :=
  match item with
  | JStr s =>
      if bool_decide (String.length s < 1) || bool_decide (64 < String.length s)
      then Raised ValueError
      else Returned tt
  | _ => Raised ValueError
  end.

(** [_validate_ip_address]: [str(item)] fails on a [unicode] that is not
    ASCII with [UnicodeEncodeError], which is a [ValueError];
    [socket.inet_aton] raises [TypeError] on what is no string and on a
    string with a null character, and [socket.error], turned into
    [ValueError] here, on a string it cannot read. *)
Definition run__validate_ip_address (env : Environment) (item : json) : result unit :=
  match item with
  | JStr s =>
      if negb (is_ascii_string s) then Raised ValueError
      else if contains_char nul s then Raised TypeError
      else if env_inet_aton env s then Returned tt
      else Raised ValueError
  | _ => Raised TypeError
  end.

(** [_validate_boolean_string]: [item not in ['True', 'False']]. *)
Definition run__validate_boolean_string (item : json) : result unit :=
  if json_is_str "True" item || json_is_str "False" item then Returned tt
  else Raised ValueError.

(** [_validate_list]. *)
Definition run__validate_list (item : json) : result unit :=
  match item with
  | JList _ => Returned tt
  | _ => Raised ValueError
  end.

Definition run_validator (env : Environment) (v : validator) (item : json)
  : result unit :=
  match v with
  | _validate_string => run__validate_string item
  | _validate_ip_address => run__validate_ip_address env item
  | _validate_boolean_string_of => run__validate_boolean_string item
  | _validate_list => run__validate_list item
  end.

(** The loop the [validate] methods share:
    [for item in policy: if item not in keyword_validators: raise ValueError;
    validator(policy[item]); ...].  Looking an item up in the dict of
    validators hashes it, which a list or a dict does not allow. *)
Definition validate_keywords (env : Environment)
    (keyword_validators : list (string * validator)) (policy : json)
    (then_each : result unit) : result unit :=
  items ← py_iter policy;
  result_for_each items (fun item =>
    match item with
    | JStr keyword =>
        match assoc keyword keyword_validators with
        | None => Raised ValueError
        | Some v =>
            value ← py_getitem policy keyword;
            _ ← run_validator env v value;
            then_each
        end
    | JList _ | JDict _ => Raised TypeError
    | JNull | JBool _ | JNum _ => Raised ValueError
    end).

(** *** SitePolicy *)

Definition SitePolicy_keyword_validators : list (string * validator) :=
  [("username", _validate_string);
   ("name", _validate_string);
   ("ip_address", _validate_ip_address);
   ("password", _validate_string);
   ("local", _validate_boolean_string_of);
   ("use_https", _validate_boolean_string_of)].

Definition SitePolicy_json_validate (env : Environment) (_policy : json)
  : result unit :=
  has_site ← py_contains "site" _policy;
  if negb has_site then Raised ValueError
  else
    policy ← py_getitem _policy "site";
    validate_keywords env SitePolicy_keyword_validators policy (Returned tt).

(** The properties of a [SitePolicy]: [self._policy['site'][field]]. *)
Definition SitePolicy_json_field (_policy : json) (field : string) : result json :=
  site ← py_getitem _policy "site";
  py_getitem site field.

(** *** The contract, taboo and contract-interface policies *)

(** [ProvidedContractPolicy], [ConsumedContractPolicy], [ProtectedByPolicy]
    and [ConsumedInterfacePolicy] differ by the keyword they read. *)
Definition named_policy_json_validate (keyword : string) (_policy : json)
  : result unit :=
  has_keyword ← py_contains keyword _policy;
  if negb has_keyword then Raised ValueError
  else
    item ← py_getitem _policy keyword;
    run__validate_non_empty_string item.

(** *** L3OutPolicy *)

Definition L3OutPolicy_keyword_validators : list (string * validator) :=
  [("name", _validate_string);
   ("tenant", _validate_string);
   ("provides", _validate_list);
   ("consumes", _validate_list);
   ("protected_by", _validate_list);
   ("consumes_interface", _validate_list)].

(** [_get_policies(cls, keyword)], [cls] reading [element_keyword]. *)
Definition _get_policies (element_keyword keyword : string) (_policy : json)
  : result (list json) :=
  l3out ← py_getitem _policy "l3out";
  has_keyword ← py_contains keyword l3out;
  if negb has_keyword then Returned []
  else
    l3out ← py_getitem _policy "l3out";
    listed ← py_getitem l3out keyword;
    policies ← py_iter listed;
    result_map policies (fun policy =>
      _ ← named_policy_json_validate element_keyword policy;
      Returned policy).

Definition L3OutPolicy_json_validate (env : Environment) (_policy : json)
  : result unit :=
  has_l3out ← py_contains "l3out" _policy;
  if negb has_l3out then Raised ValueError
  else
    policy ← py_getitem _policy "l3out";
    validate_keywords env L3OutPolicy_keyword_validators policy
      (_ ← _get_policies "contract_name" "provides" _policy;
       _ ← _get_policies "contract_name" "consumes" _policy;
       _ ← _get_policies "taboo_name" "protected_by" _policy;
       _ ← _get_policies "cif_name" "consumes_interface" _policy;
       Returned tt).

(** *** RemoteSitePolicy *)

Definition RemoteSitePolicy_keyword_validators : list (string * validator) :=
  [("name", _validate_string);
   ("interfaces", _validate_list)].

Definition get_interfaces_json (env : Environment) (_policy : json)
  : result (list json) :=
  site ← py_getitem _policy "site";
  listed ← py_getitem site "interfaces";
  interfaces ← py_iter listed;
  result_map interfaces (fun interface =>
    _ ← L3OutPolicy_json_validate env interface;
    Returned interface).

Definition RemoteSitePolicy_json_validate (env : Environment) (_policy : json)
  : result unit :=
  has_site ← py_contains "site" _policy;
  if negb has_site then Raised ValueError
  else
    policy ← py_getitem _policy "site";
    validate_keywords env RemoteSitePolicy_keyword_validators policy
      (_ ← get_interfaces_json env _policy; Returned tt).

(** *** ExportPolicy *)

Definition ExportPolicy_keyword_validators : list (string * validator) :=
  [("tenant", _validate_string);
   ("app", _validate_string);
   ("epg", _validate_string);
   ("remote_sites", _validate_list)].

Definition get_site_policies_json (env : Environment) (_policy : json)
  : result (list json) :=
  export ← py_getitem _policy "export";
  listed ← py_getitem export "remote_sites";
  sites ← py_iter listed;
  result_map sites (fun site =>
    _ ← RemoteSitePolicy_json_validate env site;
    Returned site).

Definition ExportPolicy_json_validate (env : Environment) (_policy : json)
  : result unit :=
  has_export ← py_contains "export" _policy;
  if negb has_export then Raised ValueError
  else
    policy ← py_getitem _policy "export";
    validate_keywords env ExportPolicy_keyword_validators policy
      (_ ← get_site_policies_json env _policy; Returned tt).

(** *** IntersiteConfiguration *)

(** The site and export entries kept so far, as the JSON they wrap. *)
Record IntersiteConfiguration_json : Type := mkIntersiteConfiguration_json {
  site_policies_json : list json;
  export_policies_json : list json
}.

Fixpoint IntersiteConfiguration_json_items (env : Environment) (items : list json)
    (self : IntersiteConfiguration_json) : result IntersiteConfiguration_json :=
  match items with
  | [] => Returned self
  | item :: rest =>
      is_site ← py_contains "site" item;
      if is_site : bool then
        _ ← SitePolicy_json_validate env item;
        IntersiteConfiguration_json_items env rest
          (mkIntersiteConfiguration_json (site_policies_json self ++ [item])
             (export_policies_json self))
      else
        is_export ← py_contains "export" item;
        if is_export : bool then
          _ ← ExportPolicy_json_validate env item;
          IntersiteConfiguration_json_items env rest
            (mkIntersiteConfiguration_json (site_policies_json self)
               (export_policies_json self ++ [item]))
        else IntersiteConfiguration_json_items env rest self
  end.

(** [IntersiteConfiguration(config)] on what [json.load] read. *)
Definition IntersiteConfiguration_json_init (env : Environment) (config : json)
  : result IntersiteConfiguration_json :=
  has_config ← py_contains "config" config;
  if negb has_config then Raised ValueError
  else
    listed ← py_getitem config "config";
    items ← py_iter listed;
    IntersiteConfiguration_json_items env items (mkIntersiteConfiguration_json [] []).

(** *** Writing the typed configuration out as JSON *)

Definition json_of_named (keyword : string) (name : string) : json :=
  JDict [(keyword, JStr name)].

Definition json_of_L3OutPolicy (l3out : L3OutPolicy) : json :=
  JDict [("l3out",
          JDict [("name", JStr (L3OutPolicy_name l3out));
                 ("tenant", JStr (L3OutPolicy_tenant l3out));
                 ("provides",
                  JList (json_of_named "contract_name" ∘ contract_name
                           <$> get_provided_contract_policies l3out));
                 ("consumes",
                  JList (json_of_named "contract_name" ∘ contract_name
                           <$> get_consumed_contract_policies l3out));
                 ("protected_by",
                  JList (json_of_named "taboo_name" ∘ taboo_name
                           <$> get_protected_by_policies l3out));
                 ("consumes_interface",
                  JList (json_of_named "cif_name" ∘ consumes_interface
                           <$> get_consumes_interface_policies l3out))])].

Definition json_of_RemoteSitePolicy (site : RemoteSitePolicy) : json :=
  JDict [("site",
          JDict [("name", JStr (RemoteSitePolicy_name site));
                 ("interfaces",
                  JList (json_of_L3OutPolicy <$> get_interfaces site))])].

Definition json_of_ExportPolicy (export : ExportPolicy) : json :=
  JDict [("export",
          JDict [("tenant", JStr (ExportPolicy_tenant export));
                 ("app", JStr (ExportPolicy_app export));
                 ("epg", JStr (ExportPolicy_epg export));
                 ("remote_sites",
                  JList (json_of_RemoteSitePolicy <$> get_site_policies export))])].

Definition json_of_SitePolicy (site : SitePolicy) : json :=
  JDict [("site",
          JDict [("name", JStr (SitePolicy_name site));
                 ("ip_address", JStr (SitePolicy_ip_address site));
                 ("username", JStr (SitePolicy_username site));
                 ("password", JStr (SitePolicy_password site));
                 ("use_https", JStr (SitePolicy_use_https site));
                 ("local", JStr (SitePolicy_local site))])].

Definition json_of_item (item : config_item) : json :=
  match item with
  | ItemSite site => json_of_SitePolicy site
  | ItemExport export => json_of_ExportPolicy export
  | ItemOther => JDict []
  end.

Definition json_of_config (config : option (list config_item)) : json :=
  match config with
  | Some items => JDict [("config", JList (json_of_item <$> items))]
  | None => JDict []
  end.

(** An address [str] and [socket.inet_aton] take as a string: ASCII, with
    no null character. *)
Definition plain_address (item : config_item) : bool :=
  match item with
  | ItemSite site =>
      is_ascii_string (SitePolicy_ip_address site)
      && negb (contains_char nul (SitePolicy_ip_address site))
  | _ => true
  end.

(** ** Local sites, by name *)

(** [site.local == 'True']. *)
Definition marked_local (site : SitePolicy) : bool :=
  bool_decide (SitePolicy_local site = "True").

(** The names the site entries of a configuration file mark local. *)
Definition config_local_names (config : option (list config_item)) : list string :=
  match config with
  | Some items => SitePolicy_name <$> List.filter marked_local (omap item_site items)
  | None => []
  end.

(** The names a call on the collector asks a local site for. *)
Definition call_local_names (call : collector_call) : list string :=
  match call with
  | CallAddSite name _ local => if local then [name] else []
  | CallAddSiteFromConfig site =>
      if marked_local site then [SitePolicy_name site] else []
  | CallDeleteSite _ => []
  | CallInitializeLocalSite => []
  | CallReloadConfig new_config => config_local_names new_config
  end.

(** Calls made one after the other, each on the collector as the call
    before left it, whether that call returned or raised. *)
Definition run_calls (env : Environment) (__debug__ : bool)
    (calls : list collector_call) (st : CollectorState) : CollectorState :=
  foldl (fun st call => (run_collector_call env __debug__ call st).2) st calls.

(** Site names are distinct and every local site bears one of [names]. *)
Definition local_sites_named (names : list string) (st : CollectorState) : Prop :=
  NoDup (site_names st) ∧
  ∀ site, site ∈ sites st → Site_local site = true → Site_name site ∈ names.

(** A site entry asks for a local site only under one of [names]. *)
Definition allowed_local (names : list string) (site : SitePolicy) : Prop :=
  marked_local site = true → SitePolicy_name site ∈ names.

Definition keeps_local_names (names : list string) (st st' : CollectorState) : Prop :=
  local_sites_named names st → local_sites_named names st'.

(** ** The entries of a configuration file, as JSON objects *)

(** ['site' in item], for an item that is an object. *)
Definition entry_is_site (entry : list (string * json)) : bool :=
  bool_decide (is_Some (assoc "site" entry)).

(** The [elif 'export' in item] branch. *)
Definition entry_is_export (entry : list (string * json)) : bool :=
  negb (entry_is_site entry) && bool_decide (is_Some (assoc "export" entry)).

(** The validation an entry goes through, if any. *)
Definition entry_validate (env : Environment) (entry : list (string * json))
  : result unit :=
  if entry_is_site entry then SitePolicy_json_validate env (JDict entry)
  else if entry_is_export entry then ExportPolicy_json_validate env (JDict entry)
  else Returned tt.

(** * Properties *)

(** ** Strings and patterns *)

Lemma contains_char_cons c a s :
  contains_char c (String a s) = false ↔ a ≠ c ∧ contains_char c s = false.
Proof.
  simpl. destruct (Ascii.eqb_spec a c) as [->|Hne]; simpl.
  - split; [discriminate | intros [? _]; congruence].
  - tauto.
Qed.

Lemma split_nonempty sep s : split sep s ≠ [].
Proof.
  destruct s as [|c s]; simpl; [discriminate|].
  destruct (Ascii.eqb c sep); [discriminate|].
  destruct (split sep s); discriminate.
Qed.

Lemma split_no_sep sep s :
  contains_char sep s = false → split sep s = [s].
Proof.
  induction s as [|c s IH]; [reflexivity|].
  intros [Hc Hs]%contains_char_cons. simpl.
  destruct (Ascii.eqb_spec c sep); [contradiction|].
  by rewrite (IH Hs).
Qed.

Lemma string_app_nil (t : string) : "" +:+ t = t.
Proof. reflexivity. Qed.

Lemma string_app_cons a (s t : string) : String a s +:+ t = String a (s +:+ t).
Proof. reflexivity. Qed.

Lemma split_app sep x s :
  contains_char sep x = false →
  split sep (x +:+ String sep s) = x :: split sep s.
Proof.
  induction x as [|c x IH].
  - intros _. rewrite string_app_nil. simpl. by rewrite Ascii.eqb_refl.
  - intros [Hc Hx]%contains_char_cons. rewrite string_app_cons. simpl.
    destruct (Ascii.eqb_spec c sep); [contradiction|].
    by rewrite (IH Hx).
Qed.


Lemma split_length sep s : length (split sep s) = S (count_char sep s).
Proof.
  induction s as [|c s IH]; [reflexivity|]. simpl.
  destruct (Ascii.eqb c sep); simpl; [by rewrite IH|].
  destruct (split sep s) eqn:E; simpl in *; [discriminate|]. done.
Qed.

Lemma string_app_empty_r (s : string) : s +:+ "" = s.
Proof.
  induction s as [|a s IH]; [reflexivity|]. by rewrite string_app_cons, IH.
Qed.

Lemma string_app_snoc (acc s : string) c :
  (acc +:+ String c "") +:+ s = acc +:+ String c s.
Proof.
  induction acc as [|a acc IH]; [reflexivity|].
  by rewrite !string_app_cons, IH.
Qed.

Lemma rpartition_go_no_sep sep s acc :
  contains_char sep s = false → rpartition_go sep s acc = acc +:+ s.
Proof.
  revert acc. induction s as [|c s IH]; intros acc.
  - intros _. cbn. by rewrite string_app_empty_r.
  - intros [Hc Hx]%contains_char_cons. cbn.
    destruct (Ascii.eqb_spec c sep); [contradiction|].
    by rewrite (IH _ Hx), string_app_snoc.
Qed.

Lemma rpartition_last_no_sep sep s :
  contains_char sep s = false → rpartition_last sep s = s.
Proof. intros H. unfold rpartition_last. by rewrite rpartition_go_no_sep. Qed.

(** [.*] unfolds into "stop here" or "eat one character that is not a line
    feed and go on". *)
Lemma re_match_star p s :
  re_match_here (ReDotStar :: p) s =
  re_match_here p s ||
  match s with
  | String a s' => negb (Ascii.eqb a newline) && re_match_here (ReDotStar :: p) s'
  | EmptyString => false
  end.
Proof. by destruct s. Qed.

Lemma re_match_star_skip p x s :
  contains_char newline x = false →
  re_match_here p s = true →
  re_match_here (ReDotStar :: p) (x +:+ s) = true.
Proof.
  intros Hx Hs. induction x as [|a x IH].
  - rewrite re_match_star, string_app_nil. by rewrite Hs.
  - apply contains_char_cons in Hx as [Ha Hx].
    rewrite string_app_cons, re_match_star.
    rewrite (IH Hx). destruct (Ascii.eqb_spec a newline); [contradiction|].
    apply orb_true_r.
Qed.

Lemma re_match_char c p s :
  re_match_here (ReChar c :: p) (String c s) = re_match_here p s.
Proof. simpl. by rewrite Ascii.eqb_refl. Qed.


Lemma re_match_count c p s :
  re_match_here p s = true → (count_lit c p <= count_char c s)%nat.
Proof.
  revert s. induction p as [|a p IH]; intros s; [simpl; lia|].
  destruct a as [a| |].
  - destruct s as [|b s]; [discriminate|]. simpl.
    destruct (Ascii.eqb_spec b a) as [->|]; [|discriminate]. simpl.
    intros H%IH. lia.
  - destruct s as [|b s]; [discriminate|]. simpl.
    intros [_ H%IH]%andb_true_iff. lia.
  - induction s as [|b s IHs]; rewrite re_match_star.
    + rewrite orb_false_r. intros H%IH. exact H.
    + intros [H%IH|[_ H%IHs]%andb_true_iff]%orb_true_iff; [exact H|].
      simpl in *. lia.
Qed.


(** ** The provenance tag *)




Lemma valid_field_no_colon s : valid_field s = true → contains_char ":" s = false.
Proof. unfold valid_field. intros [_ H]%andb_true_iff. by apply negb_true_iff. Qed.

Lemma is_intersite_tag_str t :
  single_line (get_tenant_name t) = true →
  single_line (get_app_name t) = true →
  single_line (get_epg_name t) = true →
  is_intersite_tag (IntersiteTag_str t) = true.
Proof.
  unfold single_line. intros Ht%negb_true_iff Ha%negb_true_iff He%negb_true_iff.
  unfold is_intersite_tag, re_match, IntersiteTag_str.
  change (re_compile "isite:.*:.*:.*:.*") with
    ([ReChar "i"; ReChar "s"; ReChar "i"; ReChar "t"; ReChar "e"; ReChar ":";
      ReDotStar; ReChar ":"; ReDotStar; ReChar ":"; ReDotStar; ReChar ":";
      ReDotStar])%char.
  rewrite !string_app_cons, !string_app_nil, !re_match_char.
  apply re_match_star_skip; [done|]. rewrite re_match_char.
  apply re_match_star_skip; [done|]. rewrite re_match_char.
  apply re_match_star_skip; [done|]. rewrite re_match_char.
  rewrite re_match_star. reflexivity.
Qed.

Lemma split_str t :
  valid_field (get_tenant_name t) = true →
  valid_field (get_app_name t) = true →
  valid_field (get_epg_name t) = true →
  valid_field (get_remote_site_name t) = true →
  split ":" (IntersiteTag_str t) =
  ["isite"; get_tenant_name t; get_app_name t; get_epg_name t;
   get_remote_site_name t].
Proof.
  intros Ht%valid_field_no_colon Ha%valid_field_no_colon
         He%valid_field_no_colon Hr%valid_field_no_colon.
  change (IntersiteTag_str t) with
    ("isite" +:+ String ":" (get_tenant_name t +:+ String ":" (get_app_name t
       +:+ String ":" (get_epg_name t +:+ String ":" (get_remote_site_name t))))).
  rewrite split_app by reflexivity.
  rewrite !split_app by done.
  by rewrite split_no_sep.
Qed.

(** C3, amended.  For every tag whose four fields are non-empty and free of
    the [:] delimiter, and whose tenant, application and endpoint-group
    fields hold no line feed, parsing the formatted tag gives the tag back:
    [fromstring (str t) = t]. *)
Theorem tag_roundtrip (__debug__ : bool) (t : IntersiteTag) :
  valid_field (get_tenant_name t) = true →
  valid_field (get_app_name t) = true →
  valid_field (get_epg_name t) = true →
  valid_field (get_remote_site_name t) = true →
  single_line (get_tenant_name t) = true →
  single_line (get_app_name t) = true →
  single_line (get_epg_name t) = true →
  fromstring __debug__ (IntersiteTag_str t) = Returned (Some t).
Proof.
  intros Vt Va Ve Vr Lt La Le. unfold fromstring.
  rewrite is_intersite_tag_str, split_str by done. by destruct t.
Qed.

Lemma tag_roundtrip_witness :
  fromstring true (IntersiteTag_str (mkIntersiteTag "T1" "A1" "G1" "local"))
  = Returned (Some (mkIntersiteTag "T1" "A1" "G1" "local")).
Proof. apply tag_roundtrip; reflexivity. Defined.

(** C3 as stated fails: a field may be non-empty and free of [:] and still
    hold a line feed, which [.] does not match; the formatted tag is then not
    recognized and the assertion of [fromstring] fails. *)
Lemma tag_roundtrip_line_feed_counterexample :
  let t := mkIntersiteTag (String "a" (String newline "b")) "x" "y" "z" in
  valid_field (get_tenant_name t) = true ∧
  valid_field (get_app_name t) = true ∧
  valid_field (get_epg_name t) = true ∧
  valid_field (get_remote_site_name t) = true ∧
  fromstring true (IntersiteTag_str t) = Raised AssertionError ∧
  fromstring true (IntersiteTag_str t) ≠ Returned (Some t).
Proof. vm_compute. repeat split; discriminate. Qed.

Lemma is_intersite_tag_prefix tag :
  is_intersite_tag tag = true → ∃ tail, tag = "isite:" +:+ tail.
Proof.
  unfold is_intersite_tag, re_match.
  change (re_compile "isite:.*:.*:.*:.*") with
    ([ReChar "i"; ReChar "s"; ReChar "i"; ReChar "t"; ReChar "e"; ReChar ":";
      ReDotStar; ReChar ":"; ReDotStar; ReChar ":"; ReDotStar; ReChar ":";
      ReDotStar])%char.
  intros H.
  do 6 (destruct tag as [|? tag]; [discriminate|];
        apply andb_true_iff in H as [->%Ascii.eqb_eq H]).
  by exists tag.
Qed.

Lemma is_intersite_tag_fields tag :
  is_intersite_tag tag = true →
  ∃ t a e r rest, split ":" tag = "isite" :: t :: a :: e :: r :: rest.
Proof.
  intros H. destruct (is_intersite_tag_prefix _ H) as [tail ->].
  assert (Hlen : 5 <= length (split ":" ("isite:" +:+ tail))).
  { rewrite split_length. apply (re_match_count ":") in H.
    change (count_lit ":" (re_compile "isite:.*:.*:.*:.*")) with 4 in H. lia. }
  change ("isite:" +:+ tail) with ("isite" +:+ String ":" tail) in *.
  rewrite split_app in * by reflexivity.
  destruct (split ":" tail) as [|t [|a [|e [|r rest]]]]; simpl in Hlen; try lia.
  by exists t, a, e, r, rest.
Qed.

(** C4, amended.  A string the pattern [isite:.*:.*:.*:.*] does not match
    never yields a tag: [fromstring] fails its own assertion, and returns
    [None] only when assertions are compiled away.  A string the pattern
    matches is always accepted, whatever its fields hold and whatever
    follows them: the tag is made of the four fields after the prefix. *)
Theorem fromstring_outcome (__debug__ : bool) (tag : string) :
  (is_intersite_tag tag = false ∧
   fromstring __debug__ tag =
     if __debug__ then Raised AssertionError else Returned None)
  ∨
  (is_intersite_tag tag = true ∧
   ∃ t a e r rest,
     split ":" tag = "isite" :: t :: a :: e :: r :: rest ∧
     fromstring __debug__ tag = Returned (Some (mkIntersiteTag t a e r))).
Proof.
  destruct (is_intersite_tag tag) eqn:E.
  - right. split; [done|].
    destruct (is_intersite_tag_fields _ E) as (t & a & e & r & rest & Hs).
    exists t, a, e, r, rest. split; [done|].
    unfold fromstring. rewrite E, Hs. reflexivity.
  - left. split; [done|]. unfold fromstring. rewrite E. by destruct __debug__.
Qed.

(** C4 as stated fails: strings outside the grammar of the specification
    are accepted when their fields are empty or when more follows the
    fourth field, and a string that is not recognized raises. *)
Lemma fromstring_grammar_counterexample :
  spec_tag_grammar "isite::::" = false ∧
  fromstring true "isite::::" = Returned (Some (mkIntersiteTag "" "" "" "")) ∧
  spec_tag_grammar "isite:a:b:c:d:e" = false ∧
  fromstring true "isite:a:b:c:d:e" = Returned (Some (mkIntersiteTag "a" "b" "c" "d")) ∧
  spec_tag_grammar "tenant" = false ∧
  fromstring true "tenant" = Raised AssertionError.
Proof. vm_compute. repeat split. Qed.

(** ** Running binds and loops *)

Lemma M_bind_run {S A B} (m : M S A) (f : A → M S B) (st : S) :
  (m ≫= f) st =
  match m st with
  | (Returned a, st') => f a st'
  | (Raised e, st') => (Raised e, st')
  end.
Proof. reflexivity. Qed.

Lemma for_each_cons {S A} (x : A) (l : list A) (body : A → M S unit) (st : S) :
  for_each (x :: l) body st =
  match body x st with
  | (Returned _, st') => for_each l body st'
  | (Raised e, st') => (Raised e, st')
  end.
Proof. reflexivity. Qed.

Lemma for_each_app {S A} (l1 l2 : list A) (body : A → M S unit) (st : S) :
  for_each (l1 ++ l2) body st =
  match for_each l1 body st with
  | (Returned _, st') => for_each l2 body st'
  | (Raised e, st') => (Raised e, st')
  end.
Proof.
  revert st. induction l1 as [|x l1 IH]; intros st; [done|].
  rewrite <- app_comm_cons, !for_each_cons.
  destruct (body x st) as [[[]|e] st']; [apply IH|done].
Qed.

(** ** Flushing the batch store *)

Section flush.
Variable env : Environment.
Variable __debug__ : bool.
Variable collector_sites : list Site.

Lemma push_requests_app ev1 ev2 :
  push_requests (ev1 ++ ev2) = push_requests ev1 ++ push_requests ev2.
Proof. unfold push_requests. apply omap_app. Qed.

Lemma push_one (s : Session) (t : fvTenant) (st : MonitorState) :
  (s' ← deref (Some s);
   _ ← push_to_apic env s' (Tenant_get_url env) (TenantDoc t);
   mret tt) st
  = (Returned tt,
     mkMonitorState (mon_db st)
       (mon_history st ++
          [EvPush s (Tenant_get_url env) (TenantDoc t)
             (env_push_to_apic env (mon_history st) s (Tenant_get_url env) (TenantDoc t))])).
Proof. reflexivity. Qed.

(** The pushes of one site: every tenant document is sent, whatever the
    earlier pushes answered. *)
Lemma push_tenants_loop (s : Session) (tenants : list fvTenant) (st : MonitorState) :
  ∃ events,
    for_each tenants (fun tenant_json =>
      s' ← deref (Some s);
      _ ← push_to_apic env s' (Tenant_get_url env) (TenantDoc tenant_json);
      mret tt) st
    = (Returned tt, mkMonitorState (mon_db st) (mon_history st ++ events))
    ∧ push_requests events
      = (fun tenant_json => (s, (Tenant_get_url env), TenantDoc tenant_json)) <$> tenants
    ∧ length events = length tenants.
Proof.
  revert st. induction tenants as [|t ts IH]; intros st.
  - exists []. rewrite app_nil_r. by destruct st.
  - rewrite for_each_cons. cbv beta. rewrite push_one.
    edestruct IH as (events & -> & Hreq & Hlen).
    exists (EvPush s (Tenant_get_url env) (TenantDoc t)
              (env_push_to_apic env (mon_history st) s (Tenant_get_url env) (TenantDoc t))
            :: events).
    cbn [mon_db mon_history]. split; [|split].
    + by rewrite <- app_assoc.
    + unfold push_requests in *. cbn. by rewrite Hreq.
    + cbn. by rewrite Hlen.
Qed.

Lemma push_site_queue_run (remote_site : string) (tenants : list fvTenant)
    (st : MonitorState) :
  is_Some (site_session_of collector_sites remote_site) →
  ∃ events,
    push_site_queue env __debug__ collector_sites (remote_site, tenants) st
    = (Returned tt, mkMonitorState (mon_db st) (mon_history st ++ events))
    ∧ push_requests events
    = flush_requests env collector_sites [(remote_site, tenants)]
    ∧ length events = length tenants.
Proof.
  intros [s Hs]. unfold site_session_of in Hs.
  destruct (push_tenants_loop s tenants st) as (events & Hrun & Hreq & Hlen).
  exists events. split; [|split; [|done]].
  - unfold push_site_queue. cbn [fst snd].
    destruct (get_site collector_sites remote_site) as [site|]; [|discriminate].
    cbn in Hs.
    replace (py_assert __debug__ (bool_decide (is_Some (Some site))))
      with (Returned tt : result unit)
      by (unfold py_assert; rewrite bool_decide_eq_true_2 by eauto;
          by destruct __debug__).
    cbn [attr]. rewrite Hs. exact Hrun.
  - rewrite Hreq. unfold flush_requests, site_session_of. cbn.
    destruct (get_site collector_sites remote_site) as [site|]; [|discriminate].
    cbn in *. rewrite Hs. by rewrite app_nil_r.
Qed.

Lemma push_sites_loop (queue : list (string * list fvTenant)) (st : MonitorState) :
  Forall (fun entry => is_Some (site_session_of collector_sites entry.1)) queue →
  ∃ events,
    for_each queue (push_site_queue env __debug__ collector_sites) st
    = (Returned tt, mkMonitorState (mon_db st) (mon_history st ++ events))
    ∧ push_requests events = flush_requests env collector_sites queue
    ∧ length events = length (queue ≫= snd).
Proof.
  intros Hq. revert st.
  induction Hq as [|[remote_site tenants] queue Hs _ IH]; intros st.
  - exists []. rewrite app_nil_r. by destruct st.
  - rewrite for_each_cons.
    destruct (push_site_queue_run remote_site tenants st Hs)
      as (ev1 & -> & Hreq1 & Hlen1).
    destruct (IH (mkMonitorState (mon_db st) (mon_history st ++ ev1)))
      as (ev2 & -> & Hreq2 & Hlen2).
    exists (ev1 ++ ev2). cbn [mon_db mon_history]. split; [|split].
    + by rewrite <- app_assoc.
    + rewrite push_requests_app, Hreq1, Hreq2. cbn. by rewrite app_nil_r.
    + rewrite length_app, Hlen1, Hlen2. cbn. by rewrite length_app.
Qed.

(** C7, amended.  Whenever the queued remote sites are sites of the
    collector (what the flush asserts), a flush pushes every tenant
    document of every queued site, one request each and in the order of
    the queue, whatever the answers to the earlier pushes were (the events
    carry the outcome the environment chose), and leaves the store
    empty. *)
Theorem push_to_remote_sites_pushes_all (st : MonitorState) :
  (∀ remote_site, is_Some (mon_db st !! remote_site) →
                  is_Some (site_session_of collector_sites remote_site)) →
  ∃ events,
    push_to_remote_sites env __debug__ collector_sites st
    = (Returned tt, mkMonitorState ∅ (mon_history st ++ events))
    ∧ push_requests events
      = flush_requests env collector_sites (map_to_list (mon_db st))
    ∧ length events = length (map_to_list (mon_db st) ≫= snd).
Proof.
  intros Hsites.
  destruct (push_sites_loop (map_to_list (mon_db st)) st) as (events & Hrun & Hreq & Hlen).
  { apply Forall_forall. intros [remote_site tenants] Hin%elem_of_map_to_list.
    apply Hsites. by exists tenants. }
  exists events. split; [|done].
  unfold push_to_remote_sites.
  rewrite M_bind_run. cbv beta iota. rewrite M_bind_run, Hrun. reflexivity.
Qed.
End flush.

(** C7 as stated fails when a queued remote site is not a site of the
    collector: an export policy names R1, an endpoint is queued for it, and
    the flush stops at its assertion before any push; the store is kept. *)
Lemma push_to_remote_sites_unknown_site_counterexample :
  let db := (add_endpoint true (sample_endpoint "aa:bb:cc" (Some "10.0.0.5") false)
               sample_local_site ∅).2 in
  let flushed := push_to_remote_sites quiet_env true [sample_local_site]
                   (mkMonitorState db []) in
  length (map_to_list db ≫= snd) = 1 ∧
  flushed.1 = Raised AssertionError ∧
  mon_history flushed.2 = [] ∧
  mon_db flushed.2 = db ∧
  mon_db flushed.2 ≠ ∅.
Proof. vm_compute. repeat split. discriminate. Qed.

(** ** Lists changed while they are walked *)

Section for_remove.
Context {A : Type} (p : A → bool) (eqv : A → A → bool).

Lemma for_remove_from_none fuel i l :
  (∀ x, x ∈ l → p x = false) → for_remove_from p eqv fuel i l = l.
Proof.
  intros Hp. revert i. induction fuel as [|fuel IH]; intros i; [done|]. simpl.
  destruct (l !! i) as [x|] eqn:E; [|done].
  by rewrite (Hp x (list_elem_of_lookup_2 _ _ _ E)).
Qed.

Lemma py_remove_first x l1 l2 :
  (∀ y, y ∈ l1 → eqv y x = false) → eqv x x = true →
  py_remove eqv x (l1 ++ x :: l2) = l1 ++ l2.
Proof.
  intros Hl1 Hx. induction l1 as [|y l1 IH]; simpl; [by rewrite Hx|].
  rewrite (Hl1 y) by left. f_equal. apply IH. intros z Hz. apply Hl1. by right.
Qed.

Lemma for_remove_from_one (fuel i : nat) (l1 : list A) x l2 :
  (∀ y, y ∈ l1 → p y = false) → (∀ y, y ∈ l2 → p y = false) →
  p x = true → (∀ y, p y = false → eqv y x = false) → eqv x x = true →
  (i <= length l1)%nat → (length l1 - i < fuel)%nat →
  for_remove_from p eqv fuel i (l1 ++ x :: l2) = l1 ++ l2.
Proof.
  intros Hl1 Hl2 Hx Hne Hrefl. revert i.
  induction fuel as [|fuel IH]; intros i Hi Hfuel; [lia|]. simpl.
  destruct (decide (i = length l1)) as [->|Hlt].
  - rewrite list_lookup_middle by done. rewrite Hx.
    rewrite py_remove_first by auto.
    apply for_remove_from_none. intros y [?|?]%elem_of_app; auto.
  - assert (Hi' : i < length l1) by lia.
    rewrite lookup_app_l by done.
    destruct (lookup_lt_is_Some_2 l1 i Hi') as [y Hy]. rewrite Hy.
    rewrite (Hl1 y (list_elem_of_lookup_2 _ _ _ Hy)).
    apply IH; lia.
Qed.

Lemma for_remove_none l :
  (∀ x, x ∈ l → p x = false) → for_remove p eqv l = l.
Proof. apply for_remove_from_none. Qed.

Lemma for_remove_one l1 x l2 :
  (∀ y, y ∈ l1 → p y = false) → (∀ y, y ∈ l2 → p y = false) →
  p x = true → (∀ y, p y = false → eqv y x = false) → eqv x x = true →
  for_remove p eqv (l1 ++ x :: l2) = l1 ++ l2.
Proof.
  intros. apply for_remove_from_one; try done; [lia|].
  rewrite length_app. simpl. lia.
Qed.
End for_remove.

(** A list whose keys are distinct holds a given key at most once. *)
Lemma unique_key_split {A} (key : A → option string) (k : string) (l : list A) :
  NoDup (omap key l) →
  (∀ x, x ∈ l → key x ≠ Some k) ∨
  (∃ l1 x l2, l = l1 ++ x :: l2 ∧ key x = Some k ∧
              (∀ y, y ∈ l1 → key y ≠ Some k) ∧ (∀ y, y ∈ l2 → key y ≠ Some k)).
Proof.
  induction l as [|x l IH]; intros Hnd.
  - left. intros x Hx. by apply elem_of_nil in Hx.
  - destruct (decide (key x = Some k)) as [Hk|Hk].
    + right. exists [], x, l. split; [done|]. split; [done|]. split.
      * intros y Hy. by apply elem_of_nil in Hy.
      * intros y Hy Hyk. cbn in Hnd. rewrite Hk in Hnd.
        apply NoDup_cons in Hnd as [Hnotin _]. apply Hnotin.
        apply list_elem_of_omap. by exists y.
    + assert (Hnd' : NoDup (omap key l)).
      { cbn in Hnd. destruct (key x); [by apply NoDup_cons in Hnd as [_ ?]|done]. }
      destruct (IH Hnd') as [Hall|(l1 & y & l2 & -> & Hy & H1 & H2)].
      * left. intros y [->|Hy]%elem_of_cons; auto.
      * right. exists (x :: l1), y, l2. split; [done|]. split; [done|]. split; [|done].
        intros z [->|Hz]%elem_of_cons; auto.
Qed.

(** ** One endpoint, one outbound interface: the instance profiles *)

Lemma instp_named_Some k c p :
  instp_named k c = Some p ↔ c = Mo_l3extInstP p ∧ instp_name p = k.
Proof.
  destruct c as [q|cls]; simpl.
  - destruct (decide (instp_name q = k)); split.
    + by intros [= ->].
    + by intros [[= ->] _].
    + done.
    + intros [[= ->] ?]. contradiction.
  - split; [done|by intros [? _]].
Qed.

Lemma instp_named_None k c : instp_named k c = None ↔ instp_key c ≠ Some k.
Proof.
  destruct c as [q|cls]; simpl; [|done].
  destruct (decide (instp_name q = k)); split; try done; congruence.
Qed.

Lemma omap_instp_named_nil k (l : list l3extOut_child) :
  (∀ y, y ∈ l → instp_key y ≠ Some k) → omap (instp_named k) l = [].
Proof.
  induction l as [|x l IH]; intros H; [done|]. cbn.
  rewrite (proj2 (instp_named_None k x)) by (apply H; left).
  apply IH. intros y Hy. apply H. by right.
Qed.

Lemma wf_out_children_app l1 l2 :
  wf_out_children (l1 ++ l2) ↔
  NoDup (omap instp_key l1 ++ omap instp_key l2) ∧
  Forall no_dash (omap instp_key l1) ∧ Forall no_dash (omap instp_key l2).
Proof. unfold wf_out_children. by rewrite omap_app, Forall_app. Qed.

Section instance_profiles.
Variable endpoint : Endpoint.
Hypothesis Hmac : no_dash (mac endpoint).

Lemma l3instp_matches_key c :
  (∀ n, instp_key c = Some n → no_dash n) →
  l3instp_matches endpoint c = bool_decide (instp_key c = Some (mac endpoint)).
Proof.
  destruct c as [q|cls]; simpl; intros Hn; [|done].
  rewrite rpartition_last_no_sep; [|by apply Hn].
  apply bool_decide_ext. split; [by intros ->|by intros [=]].
Qed.

Lemma remove_in_l3out_spec (cs : list l3extOut_child) :
  wf_out_children cs →
  let cs' := for_remove (l3instp_matches endpoint) json_eqb cs in
  wf_out_children cs' ∧
  (∀ y, y ∈ cs' → instp_key y ≠ Some (mac endpoint)) ∧
  ∀ k, omap (instp_named k) cs' =
       if decide (k = mac endpoint) then [] else omap (instp_named k) cs.
Proof.
  intros Hwf. pose proof Hwf as [Hnd Hdash].
  assert (Hmatch : ∀ c, c ∈ cs →
            l3instp_matches endpoint c = bool_decide (instp_key c = Some (mac endpoint))).
  { intros c Hc. apply l3instp_matches_key. intros n Hn.
    rewrite Forall_forall in Hdash. apply Hdash, list_elem_of_omap. eauto. }
  destruct (unique_key_split instp_key (mac endpoint) cs Hnd)
    as [Hnone|(l1 & x & l2 & -> & Hx & H1 & H2)]; cbv zeta.
  - rewrite for_remove_none.
    2:{ intros c Hc. rewrite Hmatch by done. apply bool_decide_eq_false_2. auto. }
    split; [done|]. split; [done|]. intros k. destruct (decide _) as [->|]; [|done].
    by apply omap_instp_named_nil.
  - rewrite for_remove_one.
    + split; [|split].
      * apply wf_out_children_app. apply wf_out_children_app in Hwf.
        cbn in Hwf. rewrite Hx in Hwf. destruct Hwf as (Hnd' & F1 & F2).
        split; [|split; [done|by apply Forall_cons in F2 as [_ ?]]].
        apply NoDup_app in Hnd' as (N1 & N2 & N3). apply NoDup_app.
        split; [done|]. split; [|by apply NoDup_cons in N3 as [_ ?]].
        intros z Hz Hz'. apply (N2 z Hz). by right.
      * intros y [?|?]%elem_of_app; auto.
      * intros k. rewrite !omap_app. cbn. destruct (decide (k = mac endpoint)) as [->|Hk].
        -- by rewrite !omap_instp_named_nil.
        -- rewrite (proj2 (instp_named_None k x)); [done|]. rewrite Hx. congruence.
    + intros y Hy. rewrite Hmatch by (apply elem_of_app; auto).
      apply bool_decide_eq_false_2. auto.
    + intros y Hy. rewrite Hmatch by (apply elem_of_app; right; by right).
      apply bool_decide_eq_false_2. auto.
    + rewrite Hmatch by (apply elem_of_app; right; by left).
      by apply bool_decide_eq_true_2.
    + intros y Hy. apply bool_decide_eq_false_2. intros ->.
      rewrite Hmatch in Hy by (apply elem_of_app; right; by left).
      by rewrite bool_decide_eq_true_2 in Hy.
    + by apply bool_decide_eq_true_2.
Qed.

Lemma merge_l3instp_spec (__debug__ : bool) (n : string) (p : l3extInstP)
    (l3out : l3extOut) :
  instp_name p = mac endpoint →
  wf_out_children (out_children l3out) →
  (∀ y, y ∈ out_children l3out → instp_key y ≠ Some (mac endpoint)) →
  ∃ l3out',
    merge_l3instp __debug__ (mk_l3extOut n [Mo_l3extInstP p]) l3out = Returned l3out' ∧
    out_name l3out' = out_name l3out ∧
    wf_out_children (out_children l3out') ∧
    ∀ k, omap (instp_named k) (out_children l3out') =
         omap (instp_named k) (out_children l3out)
         ++ if decide (k = mac endpoint) then [p] else [].
Proof.
  intros Hp [Hnd Hdash] Hfresh. eexists. split; [|split; [|split]].
  - unfold merge_l3instp. cbn [out_children is_l3extInstP negb].
    rewrite andb_false_r. rewrite bool_decide_eq_true_2; [done|].
    intros Hin. apply (Hfresh _ Hin). cbn. by rewrite Hp.
  - done.
  - cbn. apply wf_out_children_app. cbn. rewrite Hp. split; [|split; [done|]].
    + apply NoDup_app. split; [done|]. split; [|apply NoDup_singleton].
      intros z Hz ->%list_elem_of_singleton.
      apply list_elem_of_omap in Hz as (y & Hy & Hk). by apply (Hfresh y).
    + by apply Forall_singleton.
  - intros k. cbn. rewrite omap_app. f_equal. cbn.
    destruct (decide (instp_name p = k)), (decide (k = mac endpoint)); congruence.
Qed.
End instance_profiles.

(** ** One endpoint, one outbound interface: the tenant document *)

Lemma list_find_middle {A} (P : A → Prop) `{!∀ x, Decision (P x)}
    (l1 : list A) (x : A) (l2 : list A) :
  P x → (∀ y, y ∈ l1 → ¬ P y) →
  list_find P (l1 ++ x :: l2) = Some (length l1, x).
Proof.
  intros Hx Hl1. apply list_find_Some. split; [by apply list_lookup_middle|].
  split; [done|]. intros j y Hj Hlt.
  rewrite lookup_app_l in Hj by done. apply Hl1. by eapply list_elem_of_lookup_2.
Qed.

Lemma insert_middle {A} (l1 : list A) (x y : A) (l2 : list A) :
  <[length l1 := y]> (l1 ++ x :: l2) = l1 ++ y :: l2.
Proof. by rewrite <- (Nat.add_0_r (length l1)), insert_app_r. Qed.

Lemma fmap_unchanged {A} (f : A → A) (l : list A) :
  (∀ x, x ∈ l → f x = x) → f <$> l = l.
Proof.
  intros H. rewrite <- (list_fmap_id l) at 2. apply list_fmap_ext.
  intros i x Hx. apply H. by eapply list_elem_of_lookup_2.
Qed.

Lemma out_named_Some n c o :
  out_named n c = Some o ↔ c = Mo_l3extOut o ∧ out_name o = n.
Proof.
  destruct c as [q|cls]; simpl.
  - destruct (decide (out_name q = n)); split.
    + by intros [= ->].
    + by intros [[= ->] _].
    + done.
    + intros [[= ->] ?]. contradiction.
  - split; [done|by intros [? _]].
Qed.

Lemma out_named_None n c : out_named n c = None ↔ out_key c ≠ Some n.
Proof.
  destruct c as [q|cls]; simpl; [|done].
  destruct (decide (out_name q = n)); split; try done; congruence.
Qed.

Lemma queued_in_tenant_app o k (l1 l2 : list fvTenant_child) :
  queued_in_tenant o k (l1 ++ l2) = queued_in_tenant o k l1 ++ queued_in_tenant o k l2.
Proof. unfold queued_in_tenant. by rewrite omap_app, bind_app. Qed.

Lemma queued_in_tenant_cons o k c (l : list fvTenant_child) :
  queued_in_tenant o k (c :: l) =
  match out_named o c with
  | Some x => omap (instp_named k) (out_children x)
  | None => []
  end ++ queued_in_tenant o k l.
Proof.
  unfold queued_in_tenant. cbn. destruct (out_named o c); [|done].
  by rewrite bind_cons.
Qed.

Lemma queued_in_tenant_nil o k (l : list fvTenant_child) :
  (∀ y, y ∈ l → out_key y ≠ Some o) → queued_in_tenant o k l = [].
Proof.
  induction l as [|x l IH]; intros H; [done|]. rewrite queued_in_tenant_cons.
  rewrite (proj2 (out_named_None o x)) by (apply H; left).
  apply IH. intros y Hy. apply H. by right.
Qed.

Lemma wf_out_children_singleton p :
  no_dash (instp_name p) → wf_out_children [Mo_l3extInstP p].
Proof.
  intros Hp. split; cbn; [apply NoDup_singleton|by apply Forall_singleton].
Qed.

Section tenant_document.
Variable endpoint : Endpoint.
Hypothesis Hmac : no_dash (mac endpoint).
Variable l3out_policy : L3OutPolicy.
Variable __debug__ : bool.
Variable p : l3extInstP.
Hypothesis Hp : instp_name p = mac endpoint.

Let new_l3out : l3extOut :=
  mk_l3extOut (L3OutPolicy_name l3out_policy) [Mo_l3extInstP p].
Let new_json : fvTenant :=
  mk_fvTenant (L3OutPolicy_tenant l3out_policy) [Mo_l3extOut new_l3out].

Lemma remove_in_tenant_child_other c :
  out_key c ≠ Some (L3OutPolicy_name l3out_policy) →
  remove_in_tenant_child l3out_policy endpoint c = c.
Proof.
  destruct c as [o|cls]; simpl; [|done]. intros Hne.
  rewrite bool_decide_eq_true_2; [done|congruence].
Qed.

Lemma is_l3extOut_named_key n c :
  is_l3extOut_named n c ↔ out_key c = Some n.
Proof.
  destruct c as [o|cls]; simpl; [|done].
  rewrite bool_decide_spec. split; congruence.
Qed.

Lemma tenant_children_step (tn : string) (cs : list fvTenant_child) :
  wf_tenant_children cs →
  ∃ cs',
    merge_l3out __debug__ new_json
      (mk_fvTenant tn (remove_in_tenant_child l3out_policy endpoint <$> cs))
    = Returned (mk_fvTenant tn cs') ∧
    wf_tenant_children cs' ∧
    ∀ o k, queued_in_tenant o k cs' =
           if decide (o = L3OutPolicy_name l3out_policy ∧ k = mac endpoint)
           then [p] else queued_in_tenant o k cs.
Proof.
  intros [Hnd Hwf].
  destruct (unique_key_split out_key (L3OutPolicy_name l3out_policy) cs Hnd)
    as [Hnone|(l1 & x & l2 & -> & Hx & H1 & H2)].
  - rewrite fmap_unchanged by (intros; by apply remove_in_tenant_child_other, Hnone).
    exists (cs ++ [Mo_l3extOut new_l3out]). split; [|split].
    + unfold merge_l3out. cbn [tn_children new_json].
      replace (list_find _ _) with (@None (nat * fvTenant_child)); [done|].
      symmetry. apply list_find_None, Forall_forall. intros c Hc Hn.
      apply (Hnone c Hc). by apply is_l3extOut_named_key.
    + split.
      * rewrite omap_app. cbn. apply NoDup_app. split; [done|].
        split; [|apply NoDup_singleton].
        intros n Hn ->%list_elem_of_singleton.
        apply list_elem_of_omap in Hn as (c & Hc & Hk). by apply (Hnone c).
      * intros o [Ho|Ho%list_elem_of_singleton]%elem_of_app; [by apply Hwf|].
        injection Ho as ->. apply wf_out_children_singleton. by rewrite Hp.
    + intros o k. rewrite queued_in_tenant_app, queued_in_tenant_cons. cbn.
      destruct (decide (L3OutPolicy_name l3out_policy = o)) as [<-|Ho].
      * rewrite queued_in_tenant_nil by done. cbn.
        destruct (decide (instp_name p = k)) as [<-|Hk].
        -- rewrite decide_True; [done|by rewrite Hp].
        -- rewrite decide_False; [done|]. intros [_ ->]. by rewrite Hp in Hk.
      * rewrite decide_False; [by rewrite app_nil_r|]. intros [-> _]. done.
  - destruct x as [o0|cls]; [|done]. injection Hx as Ho0.
    rewrite fmap_app, fmap_cons.
    rewrite !fmap_unchanged
      by (intros; apply remove_in_tenant_child_other; auto).
    cbn [remove_in_tenant_child]. rewrite bool_decide_eq_false_2 by (intros ?; done).
    assert (Hwf0 : wf_out_children (out_children o0)).
    { apply Hwf. apply elem_of_app. right. by left. }
    destruct (remove_in_l3out_spec endpoint (out_children o0) Hwf0)
      as (Hwf1 & Hfresh & Hq1).
    destruct (merge_l3instp_spec endpoint Hmac __debug__
                (L3OutPolicy_name l3out_policy) p (remove_in_l3out endpoint o0)
                Hp Hwf1 Hfresh) as (l3out' & Hmerge & Hname & Hwf' & Hq').
    exists (l1 ++ Mo_l3extOut l3out' :: l2). split; [|split].
    + unfold merge_l3out. cbn [tn_children new_json tn_name].
      rewrite (list_find_middle _ l1 (Mo_l3extOut (remove_in_l3out endpoint o0)) l2).
      * unfold new_l3out. rewrite Hmerge. cbn. by rewrite insert_middle.
      * apply is_l3extOut_named_key. cbn. by rewrite Ho0.
      * intros y Hy Hn. apply (H1 y Hy). by apply is_l3extOut_named_key.
    + split.
      * rewrite omap_app in *. cbn in *. by rewrite Hname.
      * intros o [Ho|[Ho|Ho]%elem_of_cons]%elem_of_app.
        -- apply Hwf. apply elem_of_app. by left.
        -- by injection Ho as ->.
        -- apply Hwf. apply elem_of_app. right. by right.
    + intros o k. rewrite !queued_in_tenant_app, !queued_in_tenant_cons. cbn.
      rewrite Hname. cbn. rewrite Ho0.
      destruct (decide (L3OutPolicy_name l3out_policy = o)) as [<-|Ho].
      * rewrite !queued_in_tenant_nil by done. cbn. rewrite !app_nil_r, Hq'.
        cbn in Hq1. rewrite Hq1.
        destruct (decide (k = mac endpoint)) as [->|Hk].
        -- by rewrite decide_True.
        -- rewrite decide_False by (intros [_ ?]; done). by rewrite app_nil_r.
      * rewrite decide_False; [done|]. intros [-> _]. done.
Qed.
End tenant_document.

(** ** One endpoint, one outbound interface: the queue of a remote site *)

Lemma omap_Some_fmap {A B} (f : A → B) (l : list A) :
  omap (fun x => Some (f x)) l = f <$> l.
Proof. induction l as [|x l IH]; [done|]. cbn. by rewrite IH. Qed.

Lemma queued_in_site_app t o k (l1 l2 : list fvTenant) :
  queued_in_site t o k (l1 ++ l2) = queued_in_site t o k l1 ++ queued_in_site t o k l2.
Proof. unfold queued_in_site. by rewrite bind_app. Qed.

Lemma queued_in_site_cons t o k tj (l : list fvTenant) :
  queued_in_site t o k (tj :: l) =
  (if decide (tn_name tj = t) then queued_in_tenant o k (tn_children tj) else [])
  ++ queued_in_site t o k l.
Proof. unfold queued_in_site. by rewrite bind_cons. Qed.

Lemma queued_in_site_nil t o k (l : list fvTenant) :
  (∀ y, y ∈ l → tn_name y ≠ t) → queued_in_site t o k l = [].
Proof.
  induction l as [|x l IH]; intros H; [done|]. rewrite queued_in_site_cons.
  rewrite decide_False by (apply H; left).
  apply IH. intros y Hy. apply H. by right.
Qed.

Section remote_site_queue.
Variable endpoint : Endpoint.
Hypothesis Hmac : no_dash (mac endpoint).
Variable l3out_policy : L3OutPolicy.
Variable __debug__ : bool.
Variable p : l3extInstP.
Hypothesis Hp : instp_name p = mac endpoint.

Let new_l3out : l3extOut :=
  mk_l3extOut (L3OutPolicy_name l3out_policy) [Mo_l3extInstP p].
Let new_json : fvTenant :=
  mk_fvTenant (L3OutPolicy_tenant l3out_policy) [Mo_l3extOut new_l3out].

Lemma wf_new_json : wf_tenant_children (tn_children new_json).
Proof.
  split; cbn; [apply NoDup_singleton|].
  intros o [= ->]%list_elem_of_singleton.
  apply wf_out_children_singleton. by rewrite Hp.
Qed.

Lemma queued_new_json o k :
  queued_in_tenant o k (tn_children new_json) =
  if decide (o = L3OutPolicy_name l3out_policy ∧ k = mac endpoint) then [p] else [].
Proof.
  unfold new_json, new_l3out. cbn [tn_children].
  rewrite queued_in_tenant_cons. cbn.
  destruct (decide (L3OutPolicy_name l3out_policy = o)) as [<-|Ho]; cbn.
  - destruct (decide (instp_name p = k)) as [<-|Hk].
    + rewrite decide_True; [done|by rewrite Hp].
    + rewrite decide_False; [done|]. intros [_ ->]. by rewrite Hp in Hk.
  - rewrite decide_False; [done|]. intros [-> _]. done.
Qed.

Lemma remove_in_tenant_other tj :
  tn_name tj ≠ L3OutPolicy_tenant l3out_policy →
  remove_in_tenant l3out_policy endpoint tj = tj.
Proof. intros Hne. unfold remove_in_tenant. by rewrite bool_decide_eq_true_2. Qed.

Lemma tenants_step (ts : list fvTenant) :
  wf_tenants ts →
  ∃ ts',
    merge_tenant __debug__ new_json (remove_in_tenant l3out_policy endpoint <$> ts)
    = Returned ts' ∧
    wf_tenants ts' ∧
    ∀ t o k, queued_in_site t o k ts' =
             if decide (t = L3OutPolicy_tenant l3out_policy ∧
                        o = L3OutPolicy_name l3out_policy ∧ k = mac endpoint)
             then [p] else queued_in_site t o k ts.
Proof.
  intros [Hnd Hwf]. rewrite Forall_forall in Hwf.
  rewrite <- omap_Some_fmap in Hnd.
  destruct (unique_key_split (fun tj => Some (tn_name tj))
              (L3OutPolicy_tenant l3out_policy) ts Hnd)
    as [Hnone|(l1 & tj & l2 & -> & Htj & H1 & H2)].
  - assert (Hnone' : ∀ y, y ∈ ts → tn_name y ≠ L3OutPolicy_tenant l3out_policy).
    { intros y Hy Hn. apply (Hnone y Hy). by rewrite Hn. }
    rewrite fmap_unchanged by (intros; by apply remove_in_tenant_other, Hnone').
    exists (ts ++ [new_json]). split; [|split].
    + unfold merge_tenant.
      replace (list_find _ _) with (@None (nat * fvTenant)); [done|].
      symmetry. apply list_find_None, Forall_forall. intros c Hc. by apply Hnone'.
    + split.
      * rewrite fmap_app. cbn. apply NoDup_app. rewrite omap_Some_fmap in Hnd.
        split; [done|]. split; [|apply NoDup_singleton].
        intros n Hn ->%list_elem_of_singleton.
        apply list_elem_of_fmap in Hn as (c & Hk & Hc). by apply (Hnone' c).
      * apply Forall_app. split; [by apply Forall_forall|].
        apply Forall_singleton, wf_new_json.
    + intros t o k. rewrite queued_in_site_app, queued_in_site_cons.
      cbn [tn_name new_json]. rewrite app_nil_r.
      destruct (decide (L3OutPolicy_tenant l3out_policy = t)) as [<-|Ht].
      * rewrite queued_in_site_nil by done. cbn [app]. rewrite queued_new_json.
        apply decide_ext. tauto.
      * rewrite decide_False; [by rewrite app_nil_r|]. intros [-> _]. done.
  - injection Htj as Htj.
    assert (H1' : ∀ y, y ∈ l1 → tn_name y ≠ L3OutPolicy_tenant l3out_policy).
    { intros y Hy Hn. apply (H1 y Hy). by rewrite Hn. }
    assert (H2' : ∀ y, y ∈ l2 → tn_name y ≠ L3OutPolicy_tenant l3out_policy).
    { intros y Hy Hn. apply (H2 y Hy). by rewrite Hn. }
    rewrite fmap_app, fmap_cons.
    rewrite !fmap_unchanged by (intros; apply remove_in_tenant_other; auto).
    unfold remove_in_tenant at 1. rewrite bool_decide_eq_false_2 by (intros ?; done).
    destruct (tenant_children_step endpoint Hmac l3out_policy __debug__ p Hp
                (tn_name tj) (tn_children tj)) as (cs' & Hmerge & Hwf' & Hq').
    { apply Hwf. apply elem_of_app. right. by left. }
    exists (l1 ++ mk_fvTenant (tn_name tj) cs' :: l2). split; [|split].
    + unfold merge_tenant.
      rewrite (list_find_middle _ l1 _ l2); [|done|done].
      unfold new_json, new_l3out. rewrite Hmerge. cbn. by rewrite insert_middle.
    + split.
      * rewrite omap_Some_fmap in Hnd. rewrite fmap_app, fmap_cons in *. done.
      * apply Forall_app. split; [|apply Forall_cons; split].
        -- apply Forall_forall. intros y Hy. apply Hwf. apply elem_of_app. by left.
        -- done.
        -- apply Forall_forall. intros y Hy. apply Hwf. apply elem_of_app.
           right. by right.
    + intros t o k. rewrite !queued_in_site_app, !queued_in_site_cons.
      cbn [tn_name tn_children]. rewrite Htj.
      destruct (decide (L3OutPolicy_tenant l3out_policy = t)) as [<-|Ht].
      * rewrite !queued_in_site_nil by done. cbn [app]. rewrite !app_nil_r, Hq'.
        apply decide_ext. tauto.
      * rewrite decide_False; [done|]. intros [-> _]. done.
Qed.
End remote_site_queue.

(** ** One endpoint: the whole queue *)

Lemma create_tenant_returns l3out_policy endpoint tag :
  is_deleted endpoint = true ∨ is_Some (ip endpoint) →
  ∃ p,
    _create_tenant_with_l3instp l3out_policy endpoint tag
    = Returned (mk_fvTenant (L3OutPolicy_tenant l3out_policy)
                  [Mo_l3extOut (mk_l3extOut (L3OutPolicy_name l3out_policy)
                                  [Mo_l3extInstP p])]) ∧
    reflects endpoint tag p.
Proof.
  intros Hep. unfold _create_tenant_with_l3instp.
  destruct (is_deleted endpoint) eqn:Hdel.
  - eexists. split; [reflexivity|]. unfold reflects. cbn. rewrite Hdel.
    split; [done|]. split; [done|]. split; [done|].
    rewrite !elem_of_app. do 4 right. by left.
  - destruct Hep as [?|[addr Hip]]; [done|]. rewrite Hip.
    eexists. split; [reflexivity|]. unfold reflects. cbn. rewrite Hdel.
    split; [done|]. split; [done|]. split.
    + intros _. exists addr. split; [done|]. by left.
    + right. rewrite !elem_of_app. do 4 right. by left.
Qed.

Lemma wf_queue_empty : wf_queue ∅.
Proof. intros s ts Hs. by rewrite lookup_empty in Hs. Qed.

Lemma queue_post_refl endpoint tag db : wf_queue db → queue_post endpoint tag [] db db.
Proof.
  intros Hwf. split; [done|]. intros s t o k.
  rewrite decide_False; [done|]. intros [_ H]. by apply elem_of_nil in H.
Qed.

Lemma queue_post_trans endpoint tag T1 T2 db db1 db2 :
  queue_post endpoint tag T1 db db1 → queue_post endpoint tag T2 db1 db2 →
  queue_post endpoint tag (T1 ++ T2) db db2.
Proof.
  intros [_ H1] [Hwf H2]. split; [done|]. intros s t o k.
  specialize (H1 s t o k). specialize (H2 s t o k).
  destruct (decide (k = mac endpoint ∧ (s, t, o) ∈ T2)) as [[Hk HT]|Hn2].
  - rewrite decide_True; [done|]. split; [done|]. apply elem_of_app. by right.
  - destruct (decide (k = mac endpoint ∧ (s, t, o) ∈ T1)) as [[Hk HT]|Hn1].
    + rewrite decide_True; [by rewrite H2|]. split; [done|]. apply elem_of_app. by left.
    + rewrite decide_False; [congruence|].
      intros [Hk [?|?]%elem_of_app]; tauto.
Qed.

Section queue_endpoint.
Variable __debug__ : bool.
Variable endpoint : Endpoint.
Variable local_site : Site.
Hypothesis Hmac : no_dash (mac endpoint).
Hypothesis Hep : is_deleted endpoint = true ∨ is_Some (ip endpoint).

Lemma queue_endpoint_step remote_site_policy l3out_policy (db : Queue) :
  wf_queue db →
  ∃ db',
    queue_endpoint __debug__ endpoint local_site remote_site_policy l3out_policy db
    = (Returned tt, db') ∧
    queue_post endpoint (tag_of endpoint local_site)
      [(RemoteSitePolicy_name remote_site_policy, L3OutPolicy_tenant l3out_policy,
        L3OutPolicy_name l3out_policy)] db db'.
Proof.
  intros Hwf. set (site := RemoteSitePolicy_name remote_site_policy).
  destruct (create_tenant_returns l3out_policy endpoint (tag_of endpoint local_site) Hep)
    as (p & Hcreate & Hrefl).
  pose proof Hrefl as [Hp _].
  unfold queue_endpoint. rewrite M_bind_run. cbn [modify].
  rewrite M_bind_run. unfold lift_result. fold (tag_of endpoint local_site).
  rewrite Hcreate. fold site. unfold _merge_tenant_json, _remove_queued_endpoint.
  destruct (db !! site) as [ts|] eqn:Hsite.
  - rewrite lookup_insert_eq.
    destruct (tenants_step endpoint Hmac l3out_policy __debug__ p Hp ts (Hwf _ _ Hsite))
      as (ts' & -> & Hwf' & Hq). rewrite insert_insert_eq.
    eexists. split; [reflexivity|]. split.
    + intros s us. rewrite lookup_insert. case_decide as Hs.
      * intros [= <-]. done.
      * apply Hwf.
    + intros s t o k. unfold queued. rewrite lookup_insert.
      destruct (decide (site = s)) as [<-|Hs].
      * cbn [default from_option id]. rewrite Hsite, Hq. cbn [default from_option id].
        destruct (decide (k = mac endpoint ∧ _ ∈ _)) as [[-> HT]|Hn].
        -- apply list_elem_of_singleton in HT as [= -> ->].
           rewrite decide_True by done. eauto.
        -- rewrite decide_False; [done|]. intros (-> & -> & ->). apply Hn.
           split; [done|]. by apply list_elem_of_singleton.
      * rewrite decide_False; [done|].
        intros [_ [= ? _ _]%list_elem_of_singleton]. done.
  - rewrite Hsite. eexists. split; [reflexivity|]. split.
    + intros s us. rewrite lookup_insert. case_decide as Hs.
      * intros [= <-]. split; [apply NoDup_singleton|].
        apply Forall_singleton. by apply (wf_new_json endpoint Hmac l3out_policy p).
      * apply Hwf.
    + intros s t o k. unfold queued. rewrite lookup_insert.
      destruct (decide (site = s)) as [<-|Hs].
      * cbn [default from_option id]. rewrite Hsite. cbn [default from_option id].
        rewrite queued_in_site_cons. cbn [tn_name]. rewrite app_nil_r.
        destruct (decide (k = mac endpoint ∧ _ ∈ _)) as [[-> HT]|Hn].
        -- apply list_elem_of_singleton in HT as [= -> ->].
           rewrite decide_True by done.
           rewrite (queued_new_json endpoint l3out_policy p Hp).
           rewrite decide_True by done. eauto.
        -- destruct (decide _) as [<-|]; [|done].
           rewrite (queued_new_json endpoint l3out_policy p Hp).
           rewrite decide_False; [done|]. intros [-> ->]. apply Hn.
           split; [done|]. by apply list_elem_of_singleton.
      * rewrite decide_False; [done|].
        intros [_ [= ? _ _]%list_elem_of_singleton]. done.
Qed.

Lemma queue_interfaces remote_site_policy (l3outs : list L3OutPolicy) (db : Queue) :
  wf_queue db →
  ∃ db',
    for_each l3outs (queue_endpoint __debug__ endpoint local_site remote_site_policy) db
    = (Returned tt, db') ∧
    queue_post endpoint (tag_of endpoint local_site)
      ((fun l3out_policy =>
          (RemoteSitePolicy_name remote_site_policy, L3OutPolicy_tenant l3out_policy,
           L3OutPolicy_name l3out_policy)) <$> l3outs) db db'.
Proof.
  revert db. induction l3outs as [|lp l3outs IH]; intros db Hwf.
  - exists db. split; [done|]. by apply queue_post_refl.
  - destruct (queue_endpoint_step remote_site_policy lp db Hwf) as (db1 & Hrun1 & Hpost1).
    destruct (IH db1 (proj1 Hpost1)) as (db2 & Hrun2 & Hpost2).
    exists db2. split.
    + by rewrite for_each_cons, Hrun1.
    + rewrite fmap_cons. by apply (queue_post_trans _ _ [_] _ db db1 db2).
Qed.

Lemma queue_site_policies (policies : list RemoteSitePolicy) (db : Queue) :
  wf_queue db →
  ∃ db',
    for_each policies (fun remote_site_policy =>
      for_each (get_interfaces remote_site_policy)
        (queue_endpoint __debug__ endpoint local_site remote_site_policy)) db
    = (Returned tt, db') ∧
    queue_post endpoint (tag_of endpoint local_site)
      (remote_site_policy ← policies;
       l3out_policy ← get_interfaces remote_site_policy;
       [(RemoteSitePolicy_name remote_site_policy, L3OutPolicy_tenant l3out_policy,
         L3OutPolicy_name l3out_policy)]) db db'.
Proof.
  revert db. induction policies as [|rsp policies IH]; intros db Hwf.
  - exists db. split; [done|]. by apply queue_post_refl.
  - destruct (queue_interfaces rsp (get_interfaces rsp) db Hwf) as (db1 & Hrun1 & Hpost1).
    destruct (IH db1 (proj1 Hpost1)) as (db2 & Hrun2 & Hpost2).
    exists db2. split.
    + by rewrite for_each_cons, Hrun1.
    + rewrite bind_cons. eapply queue_post_trans; [|done].
      replace (_ ≫= _) with
        ((fun l3out_policy =>
            (RemoteSitePolicy_name rsp, L3OutPolicy_tenant l3out_policy,
             L3OutPolicy_name l3out_policy)) <$> get_interfaces rsp); [done|].
      generalize (get_interfaces rsp). intros l.
      induction l as [|x l IHl]; [done|]. rewrite fmap_cons, bind_cons. by rewrite IHl.
Qed.
End queue_endpoint.

(** What one [add_endpoint] does to a well-formed queue. *)
Lemma add_endpoint_post __debug__ endpoint local_site (db : Queue) :
  no_dash (mac endpoint) → wf_queue db →
  ∃ db',
    add_endpoint __debug__ endpoint local_site db = (Returned tt, db') ∧
    queue_post endpoint (tag_of endpoint local_site)
      (match exported endpoint local_site with
       | Some policy => targets policy
       | None => []
       end) db db'.
Proof.
  intros Hmac Hwf. unfold add_endpoint, exported.
  destruct (bool_decide (ip endpoint = Some "0.0.0.0")
            || bool_decide (ip endpoint = None) && negb (is_deleted endpoint))
    eqn:Hguard.
  { exists db. split; [done|]. by apply queue_post_refl. }
  destruct (get_policy_for_epg _ _ _ _) as [policy|].
  2:{ exists db. split; [done|]. by apply queue_post_refl. }
  apply queue_site_policies; [done| |done].
  apply orb_false_iff in Hguard as [_ Hg].
  destruct (is_deleted endpoint); [by left|right].
  rewrite andb_true_r in Hg. apply bool_decide_eq_false in Hg.
  by destruct (ip endpoint).
Qed.

(** ** A burst of endpoints *)

Lemma omap_instp_named_length k (cs : list l3extOut_child) :
  NoDup (omap instp_key cs) → (length (omap (instp_named k) cs) <= 1)%nat.
Proof.
  intros Hnd.
  destruct (unique_key_split instp_key k cs Hnd)
    as [Hnone|(l1 & x & l2 & -> & Hx & H1 & H2)].
  - rewrite omap_instp_named_nil by done. cbn. lia.
  - rewrite omap_app. cbn.
    rewrite (omap_instp_named_nil k l1), (omap_instp_named_nil k l2) by done.
    destruct (instp_named k x); cbn; lia.
Qed.

Lemma queued_in_tenant_length o k (cs : list fvTenant_child) :
  wf_tenant_children cs → (length (queued_in_tenant o k cs) <= 1)%nat.
Proof.
  intros [Hnd Hwf].
  destruct (unique_key_split out_key o cs Hnd)
    as [Hnone|(l1 & x & l2 & -> & Hx & H1 & H2)].
  - rewrite queued_in_tenant_nil by done. cbn. lia.
  - rewrite queued_in_tenant_app, queued_in_tenant_cons.
    rewrite (queued_in_tenant_nil o k l1), (queued_in_tenant_nil o k l2) by done.
    rewrite app_nil_r. cbn [app].
    destruct (out_named o x) as [x'|] eqn:E; [|cbn; lia].
    apply out_named_Some in E as [-> _].
    apply omap_instp_named_length, Hwf. apply elem_of_app. right. by left.
Qed.

Lemma queued_in_site_length t o k (ts : list fvTenant) :
  wf_tenants ts → (length (queued_in_site t o k ts) <= 1)%nat.
Proof.
  intros [Hnd Hwf]. rewrite Forall_forall in Hwf. rewrite <- omap_Some_fmap in Hnd.
  destruct (unique_key_split (fun tj => Some (tn_name tj)) t ts Hnd)
    as [Hnone|(l1 & x & l2 & -> & Hx & H1 & H2)].
  - rewrite queued_in_site_nil; [cbn; lia|]. intros y Hy Hn. apply (Hnone y Hy). by rewrite Hn.
  - rewrite queued_in_site_app, queued_in_site_cons.
    rewrite (queued_in_site_nil t o k l1), (queued_in_site_nil t o k l2).
    + rewrite app_nil_r. cbn [app]. destruct (decide _); [|cbn; lia].
      apply queued_in_tenant_length, Hwf. apply elem_of_app. right. by left.
    + intros y Hy Hn. apply (H2 y Hy). by rewrite Hn.
    + intros y Hy Hn. apply (H1 y Hy). by rewrite Hn.
Qed.

Lemma queued_length (db : Queue) s t o k :
  wf_queue db → (length (queued db s t o k) <= 1)%nat.
Proof.
  intros Hwf. unfold queued. destruct (db !! s) as [ts|] eqn:E; cbn; [|lia].
  by apply queued_in_site_length, (Hwf s).
Qed.

(** A burst keeps a queue well formed and leaves alone the keys of other
    endpoints. *)
Lemma burst_run __debug__ local_site (endpoints : list Endpoint) (db : Queue) :
  Forall (fun endpoint => no_dash (mac endpoint)) endpoints → wf_queue db →
  ∃ db',
    burst __debug__ local_site endpoints db = (Returned tt, db') ∧ wf_queue db' ∧
    ∀ s t o k, Forall (fun endpoint => mac endpoint ≠ k) endpoints →
               queued db' s t o k = queued db s t o k.
Proof.
  intros Hdash. revert db. induction Hdash as [|ep eps Hep _ IH]; intros db Hwf.
  - exists db. done.
  - destruct (add_endpoint_post __debug__ ep local_site db Hep Hwf)
      as (db1 & Hrun1 & Hwf1 & Hq1).
    destruct (IH db1 Hwf1) as (db2 & Hrun2 & Hwf2 & Hq2).
    exists db2. split; [|split; [done|]].
    + unfold burst in *. by rewrite for_each_cons, Hrun1.
    + intros s t o k [Hk Hks]%Forall_cons. rewrite Hq2 by done.
      specialize (Hq1 s t o k). rewrite decide_False in Hq1; [done|].
      intros [-> _]. done.
Qed.

(** A burst leaves alone the keys it queues nothing for at an interface:
    the endpoints of other keys, the endpoints [add_endpoint] ignores, and
    those whose export policy does not name the interface. *)
Lemma burst_run_at __debug__ local_site (endpoints : list Endpoint) (db : Queue) :
  Forall (fun endpoint => no_dash (mac endpoint)) endpoints → wf_queue db →
  ∃ db',
    burst __debug__ local_site endpoints db = (Returned tt, db') ∧ wf_queue db' ∧
    ∀ s t o k,
      Forall (fun endpoint => mac endpoint = k → ¬ queues_at local_site s t o endpoint)
             endpoints →
      queued db' s t o k = queued db s t o k.
Proof.
  intros Hdash. revert db. induction Hdash as [|ep eps Hep _ IH]; intros db Hwf.
  - exists db. done.
  - destruct (add_endpoint_post __debug__ ep local_site db Hep Hwf)
      as (db1 & Hrun1 & Hwf1 & Hq1).
    destruct (IH db1 Hwf1) as (db2 & Hrun2 & Hwf2 & Hq2).
    exists db2. split; [|split; [done|]].
    + unfold burst in *. by rewrite for_each_cons, Hrun1.
    + intros s t o k [Hk Hks]%Forall_cons. rewrite Hq2 by done.
      specialize (Hq1 s t o k). rewrite decide_False in Hq1; [done|].
      intros [-> HT]. apply Hk; [done|].
      destruct (exported ep local_site) as [policy|] eqn:Hexp.
      * by exists policy.
      * by apply elem_of_nil in HT.
Qed.

(** C5, amended.  For every burst of endpoints whose keys hold no [-],
    started on an empty store: the store holds at most one instance profile
    per key, interface, tenant and remote site; that profile shows the last
    endpoint of the key that [add_endpoint] queued at the interface (its
    address, or the deletion marker when it was removed), the endpoints
    [add_endpoint] ignores and those whose export policy does not name the
    interface leaving it as it is; and a key with no endpoint queued at the
    interface has no profile there. *)
Theorem burst_supersedes __debug__ local_site (endpoints : list Endpoint) :
  Forall (fun endpoint => no_dash (mac endpoint)) endpoints →
  ∃ db,
    burst __debug__ local_site endpoints ∅ = (Returned tt, db) ∧
    (∀ s t o k, (length (queued db s t o k) <= 1)%nat) ∧
    (∀ prior endpoint later s t o,
       endpoints = prior ++ endpoint :: later →
       queues_at local_site s t o endpoint →
       Forall (fun later_endpoint =>
                 mac later_endpoint = mac endpoint →
                 ¬ queues_at local_site s t o later_endpoint) later →
       ∃ p, reflects endpoint (tag_of endpoint local_site) p ∧
            queued db s t o (mac endpoint) = [p]) ∧
    (∀ s t o k,
       Forall (fun endpoint => mac endpoint = k → ¬ queues_at local_site s t o endpoint)
              endpoints →
       queued db s t o k = []).
Proof.
  intros Hdash.
  destruct (burst_run_at __debug__ local_site endpoints ∅ Hdash wf_queue_empty)
    as (db & Hrun & Hwf & Hnone).
  exists db. split; [done|]. split; [intros; by apply queued_length|]. split.
  - intros prior ep later s t o -> (policy & Hexp & HT) Hlater.
    apply Forall_app in Hdash as [Hprior [Hep Hdl]%Forall_cons].
    destruct (burst_run __debug__ local_site prior ∅ Hprior wf_queue_empty)
      as (db1 & Hrun1 & Hwf1 & _).
    destruct (add_endpoint_post __debug__ ep local_site db1 Hep Hwf1)
      as (db2 & Hrun2 & Hwf2 & Hq2).
    destruct (burst_run_at __debug__ local_site later db2 Hdl Hwf2)
      as (db3 & Hrun3 & Hwf3 & Hq3).
    assert (db = db3) as ->.
    { unfold burst in *.
      rewrite for_each_app, Hrun1, for_each_cons, Hrun2, Hrun3 in Hrun. congruence. }
    rewrite Hq3 by done. specialize (Hq2 s t o (mac ep)).
    rewrite Hexp in Hq2. rewrite decide_True in Hq2 by done. exact Hq2.
  - intros s t o k Hk. by rewrite Hnone.
Qed.

Lemma burst_supersedes_witness :
  ∃ db,
    burst true sample_local_site
      [sample_endpoint "aa:bb:cc" (Some "10.0.0.5") false;
       sample_endpoint "aa:bb:cc" None true;
       sample_endpoint "aa:bb:cc" (Some "0.0.0.0") false] ∅ = (Returned tt, db) ∧
    (∀ s t o k, (length (queued db s t o k) <= 1)%nat) ∧
    ∃ p, instp_status p = Some "deleted" ∧
         queued db "R1" "T1" "out1" "aa:bb:cc" = [p].
Proof.
  destruct (burst_supersedes true sample_local_site
              [sample_endpoint "aa:bb:cc" (Some "10.0.0.5") false;
               sample_endpoint "aa:bb:cc" None true;
               sample_endpoint "aa:bb:cc" (Some "0.0.0.0") false])
    as (db & Hrun & Hlen & Hlast & _).
  { repeat constructor. }
  exists db. split; [done|]. split; [done|].
  destruct (Hlast [sample_endpoint "aa:bb:cc" (Some "10.0.0.5") false]
              (sample_endpoint "aa:bb:cc" None true)
              [sample_endpoint "aa:bb:cc" (Some "0.0.0.0") false]
              "R1" "T1" "out1" eq_refl) as (p & Hp & Hq).
  - exists (sample_export 0). split; [reflexivity|]. by left.
  - constructor; [|constructor]. intros _ (policy & Hexp & _). discriminate Hexp.
  - exists p. split; [|done]. by destruct Hp as (_ & -> & _).
Defined.

(** C5 as stated fails in two ways.  For a key that holds a [-], the queued
    profile is looked up by what follows the last [-] of its name, is not
    found, and a second profile for the same key is queued next to the
    first.  And an endpoint added with an address and then marked deleted
    with the address 0.0.0.0 keeps its first profile, without the deletion
    marker: the deletion is ignored before the queued profile is looked
    up. *)
Lemma burst_not_superseded_counterexample :
  (∃ db,
     burst true sample_local_site
       [sample_endpoint "aa-bb" (Some "10.0.0.5") false;
        sample_endpoint "aa-bb" (Some "10.0.0.6") false] ∅ = (Returned tt, db) ∧
     length (queued db "R1" "T1" "out1" "aa-bb") = 2) ∧
  (∃ db p,
     burst true sample_local_site
       [sample_endpoint "aa:bb:cc" (Some "10.0.0.5") false;
        sample_endpoint "aa:bb:cc" (Some "0.0.0.0") true] ∅ = (Returned tt, db) ∧
     queued db "R1" "T1" "out1" "aa:bb:cc" = [p] ∧
     instp_status p = None ∧
     l3extSubnet "10.0.0.5/32" ∈ instp_children p).
Proof.
  split.
  - eexists. split; [vm_compute; reflexivity|]. vm_compute. reflexivity.
  - eexists _, _. split; [vm_compute; reflexivity|].
    split; [vm_compute; reflexivity|]. split; [reflexivity|]. cbn. by left.
Qed.

(** ** Endpoints that are not exported *)

(** C8.  An endpoint whose scope has no export policy registered with the
    local site leaves the pending objects as they are. *)
Theorem add_endpoint_without_policy __debug__ endpoint local_site (db : Queue) :
  get_policy_for_epg local_site (ep_tenant endpoint) (ep_app endpoint)
    (ep_epg endpoint) = None →
  add_endpoint __debug__ endpoint local_site db = (Returned tt, db).
Proof.
  intros Hnone. unfold add_endpoint. rewrite Hnone. by destruct (_ || _).
Qed.

Lemma add_endpoint_without_policy_witness :
  get_policy_for_epg sample_local_site "T2" "A1" "G1" = None ∧
  add_endpoint true (mkEndpoint "aa:bb:cc" (Some "10.0.0.5") false "T2" "A1" "G1")
    sample_local_site ∅ = (Returned tt, ∅).
Proof.
  split; [reflexivity|]. apply add_endpoint_without_policy. reflexivity.
Defined.

(** C10.  An endpoint whose address is the string 0.0.0.0 leaves the
    pending objects as they are, deleted or not: its deletion never queues a
    deletion marker. *)
Theorem add_endpoint_zero_address __debug__ endpoint local_site (db : Queue) :
  ip endpoint = Some "0.0.0.0" →
  add_endpoint __debug__ endpoint local_site db = (Returned tt, db).
Proof. intros Hip. unfold add_endpoint. by rewrite Hip. Qed.

Lemma add_endpoint_zero_address_witness :
  is_deleted (sample_endpoint "aa:bb:cc" (Some "0.0.0.0") true) = true ∧
  add_endpoint true (sample_endpoint "aa:bb:cc" (Some "0.0.0.0") true)
    sample_local_site ∅ = (Returned tt, ∅).
Proof.
  split; [reflexivity|]. apply add_endpoint_zero_address. reflexivity.
Defined.

(** ** Calls and the relation they keep *)

Section always.
Context {S : Type} (R : S → S → Prop) `{!Reflexive R} `{!Transitive R}.

Lemma always_ret {A} (a : A) : always R (mret a : M S A).
Proof. intros st. cbn. reflexivity. Qed.

Lemma always_raise {A} (e : exn) : always R (raise e : M S A).
Proof. intros st. cbn. reflexivity. Qed.

Lemma always_lift_result {A} (r : result A) : always R (lift_result r : M S A).
Proof. intros st. cbn. reflexivity. Qed.

Lemma always_get_state : always R (get_state : M S S).
Proof. intros st. cbn. reflexivity. Qed.

Lemma always_attr {A B} (o : option A) (f : A → B) : always R (attr o f : M S B).
Proof. destruct o; [apply always_ret|apply always_raise]. Qed.

Lemma always_bind {A B} (m : M S A) (f : A → M S B) :
  always R m → (∀ a, always R (f a)) → always R (m ≫= f).
Proof.
  intros Hm Hf st. rewrite M_bind_run. specialize (Hm st).
  destruct (m st) as [[a|e] st1]; cbn in *; [|done].
  etrans; [exact Hm|apply Hf].
Qed.

Lemma always_for_each {A} (l : list A) (body : A → M S unit) :
  (∀ x, always R (body x)) → always R (for_each l body).
Proof.
  intros Hbody. induction l as [|x l IH]; [apply always_ret|].
  cbn [for_each]. apply always_bind; [apply Hbody|]. intros _. exact IH.
Qed.

Lemma always_for_each_until {A} (l : list A) (body : A → M S flow) :
  (∀ x, always R (body x)) → always R (for_each_until l body).
Proof.
  intros Hbody. induction l as [|x l IH]; [apply always_ret|].
  cbn [for_each_until]. apply always_bind; [apply Hbody|].
  intros []; [exact IH|apply always_ret].
Qed.
End always.

#[local] Instance history_grows_refl : Reflexive history_grows.
Proof. intros st. unfold history_grows. reflexivity. Qed.
#[global] Instance history_grows_trans : Transitive history_grows.
Proof. intros a b c. unfold history_grows. intros. by etrans. Qed.
#[global] Instance mon_history_grows_refl : Reflexive mon_history_grows.
Proof. intros st. unfold mon_history_grows. reflexivity. Qed.
#[global] Instance mon_history_grows_trans : Transitive mon_history_grows.
Proof. intros a b c. unfold mon_history_grows. intros. by etrans. Qed.
#[global] Instance sites_kept_refl : Reflexive sites_kept.
Proof. intros st. split; reflexivity. Qed.
#[global] Instance sites_kept_trans : Transitive sites_kept.
Proof. intros a b c [H1 H2] [H3 H4]. split; [congruence|by etrans]. Qed.

(** Steps through the binds and loops of a call. *)
Ltac always_step :=
  first
    [ apply always_ret; tc_solve
    | apply always_raise; tc_solve
    | apply always_lift_result; tc_solve
    | apply always_get_state; tc_solve
    | apply always_attr; tc_solve
    | apply always_bind; try tc_solve; [|intros ?]
    | apply always_for_each; try tc_solve; intros ?
    | apply always_for_each_until; try tc_solve; intros ?
    | match goal with
      | |- always _ (if ?b then _ else _) => destruct b
      | |- always _ (match ?x with _ => _ end) => destruct x
      | |- always _ (let '(_, _) := ?x in _) => destruct x
      end ].

Ltac always_with leaf := repeat first [leaf | always_step].

(** ** The monitor only adds to the history *)

Section monitor_history.
Variable env : Environment.
Variable __debug__ : bool.
Variable collector_sites : list Site.

Lemma on_db_grows {A} (m : M Queue A) : always mon_history_grows (on_db m).
Proof.
  intros st. unfold on_db, mon_history_grows. destruct (m (mon_db st)). done.
Qed.

Lemma push_to_apic_grows s url doc :
  always mon_history_grows (push_to_apic env s url doc).
Proof. intros st. unfold mon_history_grows. cbn. by apply prefix_app_r. Qed.

Lemma session_get_grows s url : always mon_history_grows (session_get env s url).
Proof. intros st. unfold mon_history_grows. cbn. by apply prefix_app_r. Qed.

Lemma push_site_queue_grows entry :
  always mon_history_grows (push_site_queue env __debug__ collector_sites entry).
Proof.
  unfold push_site_queue, deref. always_with ltac:(apply push_to_apic_grows).
Qed.

Lemma push_to_remote_sites_grows :
  always mon_history_grows (push_to_remote_sites env __debug__ collector_sites).
Proof.
  unfold push_to_remote_sites. always_step; [by intros st|].
  always_with ltac:(first [apply on_db_grows|apply push_site_queue_grows]).
Qed.

Lemma verify_endpoints_grows local_site export_policy :
  always mon_history_grows
    (verify_endpoints env collector_sites local_site export_policy).
Proof.
  unfold verify_endpoints, deref.
  always_with ltac:(first [apply session_get_grows|apply push_to_apic_grows]).
Qed.

Lemma handle_existing_endpoints_grows local_site self_session policy :
  always mon_history_grows
    (handle_existing_endpoints env __debug__ collector_sites local_site
       self_session policy).
Proof.
  unfold handle_existing_endpoints. always_step.
  { intros st. unfold mon_history_grows. cbn. by apply prefix_app_r. }
  always_with ltac:(first [apply on_db_grows|apply push_to_remote_sites_grows
                          |apply verify_endpoints_grows]).
Qed.

(** Seeding a policy starts by listing the endpoints of its scope. *)
Lemma handle_existing_endpoints_lists local_site self_session policy st :
  ∃ events,
    mon_history
      (handle_existing_endpoints env __debug__ collector_sites local_site
         self_session policy st).2
    = mon_history st
      ++ EvGetAllByEpg self_session (ExportPolicy_tenant policy)
           (ExportPolicy_app policy) (ExportPolicy_epg policy) :: events.
Proof.
  unfold handle_existing_endpoints. rewrite M_bind_run. cbn [get_all_by_epg].
  match goal with |- context [(?m ≫= ?f) ?s] => 
    assert (Hg : mon_history_grows s ((m ≫= f) s).2) end.
  { always_with ltac:(first [apply on_db_grows|apply push_to_remote_sites_grows
                            |apply verify_endpoints_grows]). }
  destruct Hg as [events Hev]. cbn [mon_history] in Hev. exists events.
  rewrite Hev. by rewrite <- app_assoc.
Qed.
End monitor_history.

(** ** Registering and seeding policies keeps the sites *)

Lemma insert_same_local (l : list Site) i site site' :
  l !! i = Some site → Site_local site' = Site_local site →
  Site_local <$> <[i := site']> l = Site_local <$> l.
Proof.
  intros Hi Hl. rewrite list_fmap_insert, Hl. apply list_insert_id.
  by rewrite list_lookup_fmap, Hi.
Qed.

Lemma always_weaken {S A} (R R' : S → S → Prop) (m : M S A) :
  (∀ st st', R st st' → R' st st') → always R m → always R' m.
Proof. intros HR Hm st. apply HR, Hm. Qed.

Lemma sites_kept_history st st' : sites_kept st st' → history_grows st st'.
Proof. by intros [_ ?]. Qed.

Section policies.
Variable env : Environment.
Variable __debug__ : bool.

Lemma print_kept msg : always sites_kept (print msg).
Proof. intros st. split; [done|]. cbn. by apply prefix_app_r. Qed.

Lemma set_config_kept c : always sites_kept (set_config c).
Proof. intros st. split; done. Qed.

Lemma site_at_kept i : always sites_kept (site_at i).
Proof. intros st. unfold site_at. destruct (sites st !! i); split; done. Qed.

Lemma set_policy_db_kept i db : always sites_kept (set_policy_db i db).
Proof.
  intros st. split; [|done]. cbn.
  destruct (sites st !! i) as [site|] eqn:Hi; [|done].
  by apply (insert_same_local _ _ site).
Qed.

Lemma in_collector_kept {A} (m : M (list Event) A) :
  (∀ h, h `prefix_of` (m h).2) → always sites_kept (in_collector m).
Proof.
  intros Hm st. unfold in_collector. specialize (Hm (history st)).
  destruct (m (history st)). split; done.
Qed.

Lemma monitor_handle_existing_endpoints_kept i policy :
  always sites_kept (monitor_handle_existing_endpoints env __debug__ i policy).
Proof.
  intros st. unfold monitor_handle_existing_endpoints.
  rewrite M_bind_run. unfold site_at.
  destruct (sites st !! i) as [local_site|] eqn:Hi; [|reflexivity].
  rewrite M_bind_run. unfold deref, attr.
  destruct (LocalSite_monitor local_site) as [mon|]; [|reflexivity].
  cbn [mret M_ret id].
  pose proof (handle_existing_endpoints_grows env __debug__ (sites st) local_site
                (_session mon) policy
                (mkMonitorState (_endpoints mon) (history st))) as Hg.
  destruct (handle_existing_endpoints _ _ _ _ _ _ _) as [r ms]. split; cbn.
  - by apply (insert_same_local _ _ local_site).
  - exact Hg.
Qed.

Lemma add_policy_kept i policy : always sites_kept (add_policy env __debug__ i policy).
Proof.
  unfold add_policy.
  always_with ltac:(first [apply site_at_kept|apply set_policy_db_kept
                          |apply monitor_handle_existing_endpoints_kept]).
Qed.

Lemma remove_policy_kept i policy : always sites_kept (remove_policy i policy).
Proof.
  unfold remove_policy.
  always_with ltac:(first [apply site_at_kept|apply set_policy_db_kept]).
Qed.

Lemma remove_all_entries_kept self itag l3out_name l3out_tenant_name :
  always sites_kept (remove_all_entries env self itag l3out_name l3out_tenant_name).
Proof.
  unfold remove_all_entries, deref.
  always_with ltac:(apply in_collector_kept; intros h; cbn; by apply prefix_app_r).
Qed.

Lemma remove_all_entries_for_policy_kept export_policy :
  always sites_kept (remove_all_entries_for_policy env export_policy).
Proof.
  unfold remove_all_entries_for_policy, deref.
  always_with ltac:(apply remove_all_entries_kept).
Qed.

Lemma initialize_local_site_kept :
  always sites_kept (initialize_local_site env __debug__).
Proof.
  unfold initialize_local_site, deref.
  always_with ltac:(first [apply print_kept|apply add_policy_kept]).
Qed.

Lemma reload_new_policies_kept old_config new_config :
  always sites_kept (reload_new_policies env __debug__ old_config new_config).
Proof.
  unfold reload_new_policies.
  always_with ltac:(first [apply print_kept|apply add_policy_kept
                          |apply remove_policy_kept
                          |apply monitor_handle_existing_endpoints_kept]).
Qed.

Lemma reload_deleted_policies_kept old_config new_config :
  always sites_kept (reload_deleted_policies env old_config new_config).
Proof.
  unfold reload_deleted_policies.
  always_with ltac:(first [apply print_kept|apply remove_policy_kept
                          |apply remove_all_entries_for_policy_kept]).
Qed.
End policies.

(** ** Adding and deleting sites *)

Lemma py_remove_sublist {A} (eqv : A → A → bool) x (l : list A) :
  py_remove eqv x l `sublist_of` l.
Proof.
  induction l as [|y l IH]; [done|]. simpl.
  destruct (eqv y x); [by apply sublist_cons|by apply sublist_skip].
Qed.

Lemma for_remove_from_sublist {A} (p : A → bool) eqv fuel i (l : list A) :
  for_remove_from p eqv fuel i l `sublist_of` l.
Proof.
  revert i l. induction fuel as [|fuel IH]; intros i l; [done|]. simpl.
  destruct (l !! i) as [x|]; [|done].
  destruct (p x); [|apply IH].
  etrans; [apply IH|apply py_remove_sublist].
Qed.

Lemma filter_sublist_length {A} (f : A → bool) (l1 l2 : list A) :
  l1 `sublist_of` l2 → (length (List.filter f l1) <= length (List.filter f l2))%nat.
Proof.
  induction 1 as [|x l1 l2 _ IH|x l1 l2 _ IH]; simpl; [done| |].
  - destruct (f x); simpl; lia.
  - destruct (f x); simpl; lia.
Qed.

Lemma num_local_app (l1 l2 : list Site) :
  num_local (l1 ++ l2) = (num_local l1 + num_local l2)%nat.
Proof. unfold num_local, get_sites. by rewrite List.filter_app, length_app. Qed.

Lemma num_local_singleton (site : Site) :
  num_local [site] = if Site_local site then 1 else 0.
Proof. unfold num_local. cbn. by destruct (Site_local site). Qed.

Lemma num_local_fmap (l : list Site) :
  num_local l = length (List.filter id (Site_local <$> l)).
Proof.
  unfold num_local, get_sites. induction l as [|x l IH]; [done|]. cbn.
  unfold id at 1. destruct (Site_local x); cbn; by rewrite IH.
Qed.

Lemma local_site_index_fmap (l l' : list Site) :
  Site_local <$> l = Site_local <$> l' →
  is_Some (local_site_index l) → is_Some (local_site_index l').
Proof.
  unfold local_site_index. intros Hl [i Hi].
  apply fmap_Some in Hi as ([j site] & Hfind & ->).
  apply list_find_Some in Hfind as (Hj & Hloc & _).
  assert (Hj' : (Site_local <$> l') !! j = Some (Site_local site)).
  { by rewrite <- Hl, list_lookup_fmap, Hj. }
  rewrite list_lookup_fmap in Hj'. apply fmap_Some in Hj' as (site' & Hs' & Heq).
  destruct (list_find_elem_of (fun s => Site_local s) l' site') as [[k s] Hk].
  - by eapply list_elem_of_lookup_2.
  - by rewrite <- Heq.
  - rewrite Hk. by eexists.
Qed.

Section sites.
Variable env : Environment.

Lemma Site_start_run (site : Site) (st : CollectorState) :
  ∃ r st',
    Site_start env site st = (Returned r, st') ∧
    Site_local r.2 = Site_local site ∧ sites st' = sites st ∧
    history_grows st st'.
Proof.
  unfold Site_start, history_grows. destruct (env_login _ _ _).
  - eexists _, _. split; [reflexivity|]. cbn. split; [done|]. split; [done|].
    by apply prefix_app_r.
  - eexists _, _. split; [reflexivity|]. cbn. split; [done|]. split; [done|].
    rewrite <- app_assoc. by apply prefix_app_r.
Qed.

Lemma add_site_run name creds (local : bool) (st : CollectorState) :
  ∃ resp_ok st',
    add_site env name creds local st = (Returned resp_ok, st') ∧
    (num_local (sites st') <= num_local (sites st) + if local then 1 else 0)%nat ∧
    history_grows st st'.
Proof.
  unfold add_site. rewrite M_bind_run.
  change (delete_site name st) with
    (Returned tt,
     mkCollectorState
       (for_remove (fun site => bool_decide (name = Site_name site)) Site_eq (sites st))
       (config st) (history st)).
  cbv beta iota. rewrite M_bind_run.
  edestruct Site_start_run as (r & st1 & -> & Hloc & Hsites & Hh).
  cbv beta iota. rewrite M_bind_run. cbn [set_sites modify].
  eexists _, _. split; [reflexivity|]. cbn [sites history]. split.
  - rewrite Hsites. cbn [sites]. rewrite num_local_app.
    assert (Hl : (num_local (for_remove (fun site => bool_decide (name = Site_name site))
                               Site_eq (sites st)) <= num_local (sites st))%nat).
    { apply filter_sublist_length, for_remove_from_sublist. }
    rewrite num_local_singleton, Hloc. cbn [Site_local]. lia.
  - exact Hh.
Qed.

Lemma add_site_from_config_run (site : SitePolicy) (st : CollectorState) :
  ∃ st',
    add_site_from_config env site st = (Returned tt, st') ∧
    (num_local (sites st') <=
     num_local (sites st)
     + if bool_decide (SitePolicy_local site = "True") then 1 else 0)%nat ∧
    history_grows st st'.
Proof.
  unfold add_site_from_config. rewrite M_bind_run.
  edestruct add_site_run as (resp_ok & st' & -> & Hn & Hh).
  exists st'. split; [done|]. split; [|done].
  by destruct (bool_decide (SitePolicy_local site = "True")).
Qed.

Lemma add_sites_run (policies : list SitePolicy) (st : CollectorState) :
  ∃ st',
    for_each policies (add_site_from_config env) st = (Returned tt, st') ∧
    (num_local (sites st') <= num_local (sites st) + num_local_policies policies)%nat ∧
    history_grows st st'.
Proof.
  revert st. induction policies as [|site policies IH]; intros st.
  - exists st. split; [done|]. split; [unfold num_local_policies; cbn; lia|reflexivity].
  - destruct (add_site_from_config_run site st) as (st1 & Hrun1 & Hn1 & Hh1).
    destruct (IH st1) as (st2 & Hrun2 & Hn2 & Hh2).
    exists st2. split; [by rewrite for_each_cons, Hrun1|]. split; [|by etrans].
    unfold num_local_policies in *. cbn [List.filter].
    destruct (bool_decide (SitePolicy_local site = "True")); cbn [length]; lia.
Qed.

Lemma load_num_local __debug__ (items : list config_item)
    (cfg : IntersiteConfiguration) :
  IntersiteConfiguration_init env (Some items) = Returned cfg →
  (num_local (sites (initialize_tool env __debug__ (Some items) empty_collector).2)
   <= num_local_policies (site_policies cfg))%nat.
Proof.
  intros Hinit. unfold initialize_tool. rewrite Hinit.
  rewrite M_bind_run. cbn [set_config modify]. rewrite M_bind_run.
  destruct (add_sites_run (site_policies cfg)
              (mkCollectorState (sites empty_collector) (Some cfg)
                 (history empty_collector))) as (st1 & Hrun & Hn & _).
  rewrite Hrun. cbn in Hn.
  destruct (initialize_local_site_kept env __debug__ st1) as [Hkept _].
  rewrite num_local_fmap, Hkept, <- num_local_fmap.
  unfold num_local, get_sites. lia.
Qed.

Lemma run_site_operation_run (op : site_operation) (st : CollectorState) :
  ∃ st',
    run_site_operation env op st = (Returned tt, st') ∧
    (num_local (sites st') <=
     num_local (sites st) + if adds_local op then 1 else 0)%nat.
Proof.
  destruct op as [name creds local|site|name]; cbn [run_site_operation adds_local].
  - rewrite M_bind_run.
    destruct (add_site_run name creds local st) as (resp_ok & st' & -> & Hn & _).
    by exists st'.
  - destruct (add_site_from_config_run site st) as (st' & -> & Hn & _).
    by exists st'.
  - eexists. split; [reflexivity|]. cbn [sites set_sites modify].
    rewrite Nat.add_0_r. apply filter_sublist_length, for_remove_from_sublist.
Qed.

Lemma run_site_operations_run (ops : list site_operation) (st : CollectorState) :
  ∃ st',
    for_each ops (run_site_operation env) st = (Returned tt, st') ∧
    (num_local (sites st') <= num_local (sites st) + num_local_adds ops)%nat.
Proof.
  revert st. induction ops as [|op ops IH]; intros st.
  - exists st. split; [done|]. unfold num_local_adds. cbn. lia.
  - destruct (run_site_operation_run op st) as (st1 & Hrun1 & Hn1).
    destruct (IH st1) as (st2 & Hrun2 & Hn2).
    exists st2. split; [by rewrite for_each_cons, Hrun1|].
    unfold num_local_adds in *. cbn [List.filter].
    destruct (adds_local op); cbn [length]; lia.
Qed.
End sites.

(** C9 as stated fails: validation accepts a configuration with two local
    sites, and loading it leaves two local sites in the collector. *)
Lemma load_two_local_sites_counterexample :
  let items := [ItemSite (sample_site_policy "A" "10.0.0.1" "True");
                ItemSite (sample_site_policy "B" "10.0.0.3" "True")] in
  (∃ cfg, IntersiteConfiguration_init quiet_env (Some items) = Returned cfg) ∧
  (initialize_tool quiet_env true (Some items) empty_collector).1 = Returned tt ∧
  num_local (sites (initialize_tool quiet_env true (Some items) empty_collector).2) = 2.
Proof. cbv zeta. split; [eexists; vm_compute; reflexivity|]. split; vm_compute; reflexivity. Qed.

(** ** Reloading the configuration *)

Lemma events_since_elem (a b c d : CollectorState) (ev : Event) :
  history_grows a b → history_grows b c → history_grows c d →
  ev ∈ events_since b c → ev ∈ events_since a d.
Proof.
  unfold history_grows, events_since. intros [k1 Hb] [k2 Hc] [k3 Hd].
  rewrite Hd, Hc, Hb, <- !app_assoc, !drop_app_length.
  rewrite (app_assoc (history a)), drop_app_length.
  intros Hev. rewrite !elem_of_app. auto.
Qed.

Section reload.
Variable env : Environment.
Variable __debug__ : bool.

Lemma delete_site_grows name : always history_grows (delete_site name).
Proof. intros st. unfold history_grows. done. Qed.

Lemma add_site_from_config_grows site :
  always history_grows (add_site_from_config env site).
Proof.
  intros st. destruct (add_site_from_config_run env site st) as (st' & -> & _ & Hh).
  exact Hh.
Qed.

Lemma _reload_sites_inner_grows old_site new_sites added :
  always history_grows (_reload_sites_inner env old_site new_sites added).
Proof.
  revert added. induction new_sites as [|new_site rest IH]; intros added; cbn.
  - always_step.
  - always_with ltac:(first [apply delete_site_grows|apply add_site_from_config_grows
                            |apply IH]).
Qed.

Lemma _reload_sites_old_grows old_sites new_sites added :
  always history_grows (_reload_sites_old env old_sites new_sites added).
Proof.
  revert added. induction old_sites as [|old_site rest IH]; intros added; cbn.
  - always_step.
  - always_with ltac:(first [apply delete_site_grows|apply _reload_sites_inner_grows
                            |apply IH]).
Qed.

Lemma _reload_sites_new_grows new_sites old_sites added :
  always history_grows (_reload_sites_new env new_sites old_sites added).
Proof.
  revert added. induction new_sites as [|new_site rest IH]; intros added; cbn.
  - always_step.
  - always_with ltac:(first [apply add_site_from_config_grows|apply IH]).
Qed.

Lemma _reload_sites_grows old_config new_config :
  always history_grows (_reload_sites env old_config new_config).
Proof.
  unfold _reload_sites.
  always_with ltac:(first [apply _reload_sites_old_grows|apply _reload_sites_new_grows]).
Qed.

(** A seeding that returns has listed the endpoints of the policy's scope. *)
Lemma monitor_handle_existing_endpoints_seeds i policy st st' :
  monitor_handle_existing_endpoints env __debug__ i policy st = (Returned tt, st') →
  ∃ s, EvGetAllByEpg s (ExportPolicy_tenant policy) (ExportPolicy_app policy)
         (ExportPolicy_epg policy) ∈ events_since st st'.
Proof.
  unfold monitor_handle_existing_endpoints. rewrite M_bind_run. unfold site_at.
  destruct (sites st !! i) as [local_site|]; [|done].
  rewrite M_bind_run. unfold deref, attr.
  destruct (LocalSite_monitor local_site) as [mon|]; [|done].
  cbn [mret M_ret id].
  destruct (handle_existing_endpoints_lists env __debug__ (sites st) local_site
              (_session mon) policy (mkMonitorState (_endpoints mon) (history st)))
    as [events Hev].
  destruct (handle_existing_endpoints _ _ _ _ _ _ _) as [r ms].
  intros [= -> <-]. exists (_session mon). unfold events_since. cbn in *.
  rewrite Hev, drop_app_length. by left.
Qed.

Lemma reload_new_policies_seeds old_config (policies : list ExportPolicy) st r st' :
  is_Some (local_site_index (sites st)) →
  for_each_until policies (fun new_policy =>
    let found := List.find (fun old_policy => has_same_epg new_policy old_policy)
                           (export_policies old_config) in
    st ← get_state;
    match local_site_index (sites st) with
    | None => _ ← print "%% No local site configured"; mret Return
    | Some i =>
        _ ← match found with
            | Some old_policy => remove_policy i old_policy
            | None => mret tt
            end;
        _ ← add_policy env __debug__ i new_policy;
        _ ← monitor_handle_existing_endpoints env __debug__ i new_policy;
        mret Next
    end) st = (Returned r, st') →
  r = Next ∧
  history_grows st st' ∧
  ∀ policy, policy ∈ policies →
    ∃ s, EvGetAllByEpg s (ExportPolicy_tenant policy) (ExportPolicy_app policy)
           (ExportPolicy_epg policy) ∈ events_since st st'.
Proof.
  revert st. induction policies as [|p policies IH]; intros st Hlocal.
  - intros [= <- <-]. split; [done|]. split; [reflexivity|].
    intros policy Hin. by apply elem_of_nil in Hin.
  - cbn [for_each_until]. rewrite M_bind_run. cbv zeta. rewrite M_bind_run.
    cbn [get_state]. destruct Hlocal as [i Hi]. rewrite Hi. rewrite M_bind_run.
    set (m1 := match List.find _ _ with Some old_policy => remove_policy i old_policy
               | None => mret tt end).
    assert (H1 : sites_kept st (m1 st).2).
    { subst m1. destruct (List.find _ _); [apply remove_policy_kept|reflexivity]. }
    destruct (m1 st) as [[[]|e] sa]; [|done]. cbn [snd] in H1.
    rewrite M_bind_run.
    pose proof (add_policy_kept env __debug__ i p sa) as H2.
    destruct (add_policy env __debug__ i p sa) as [[[]|e] sb]; [|done]. cbn [snd] in H2.
    rewrite M_bind_run.
    pose proof (monitor_handle_existing_endpoints_kept env __debug__ i p sb) as H3.
    destruct (monitor_handle_existing_endpoints env __debug__ i p sb)
      as [[[]|e] sc] eqn:Hseed; [|done]. cbn [snd] in H3.
    cbn [mret M_ret]. intros Hrest.
    assert (Hkept : sites_kept st sc) by (etrans; [|exact H3]; by etrans).
    apply IH in Hrest as (-> & Hgrow & Hseeds).
    2:{ eapply local_site_index_fmap; [symmetry; apply Hkept|]. by rewrite Hi. }
    split; [done|]. split; [etrans; [apply Hkept|done]|].
    intros policy [->|Hin]%elem_of_cons.
    + destruct (monitor_handle_existing_endpoints_seeds _ _ _ _ Hseed) as [s Hs].
      exists s. eapply (events_since_elem st sb sc st'); try done.
      * etrans; [apply H1|apply H2].
      * apply H3.
    + destruct (Hseeds policy Hin) as [s Hs]. exists s.
      eapply (events_since_elem st sc st' st'); try done. apply Hkept.
Qed.

(** C6, amended.  In a reload that replaces or adds no local site, finds
    a local site and returns, every export policy of the new
    configuration is seeded again, also one whose scope already had a
    policy in the old configuration: the endpoints of its scope are listed
    anew. *)
Theorem reload_seeds_every_policy (items : list config_item)
    (old_config new_config : IntersiteConfiguration) (st st1 st' : CollectorState) :
  config st = Some old_config →
  IntersiteConfiguration_init env (Some items) = Returned new_config →
  _reload_sites env old_config new_config st = (Returned false, st1) →
  is_Some (local_site_index (sites st1)) →
  reload_config env __debug__ (Some items) st = (Returned tt, st') →
  ∀ policy, policy ∈ export_policies new_config →
    ∃ s, EvGetAllByEpg s (ExportPolicy_tenant policy) (ExportPolicy_app policy)
           (ExportPolicy_epg policy) ∈ events_since st st'.
Proof.
  intros Hconfig Hinit Hsites Hlocal Hreload policy Hin.
  pose proof (_reload_sites_grows old_config new_config st) as Hg1.
  rewrite Hsites in Hg1. cbn [snd] in Hg1.
  unfold reload_config in Hreload. rewrite M_bind_run in Hreload.
  cbn [get_state] in Hreload. rewrite Hinit, Hconfig in Hreload.
  rewrite M_bind_run in Hreload. cbn [deref attr mret M_ret id] in Hreload.
  rewrite M_bind_run, Hsites in Hreload. rewrite M_bind_run in Hreload.
  unfold reload_new_policies in Hreload.
  destruct (for_each_until _ _ st1) as [[f|e] st2] eqn:Hnew; [|done].
  apply reload_new_policies_seeds in Hnew as (-> & Hg2 & Hseeds); [|done].
  rewrite M_bind_run in Hreload.
  pose proof (reload_deleted_policies_kept env old_config new_config st2) as [_ Hg3].
  destruct (reload_deleted_policies env old_config new_config st2) as [[f|e] st3];
    [|done].
  injection Hreload as <-. cbn [snd] in Hg3.
  destruct (Hseeds policy Hin) as [s Hs]. exists s.
  by eapply (events_since_elem st st1 st2 st3).
Qed.
End reload.

(** ** The sample scenario *)

Lemma push_to_remote_sites_pushes_all_witness :
  ∃ events,
    push_to_remote_sites failing_push_env true [sample_remote_site] sample_queue
    = (Returned tt, mkMonitorState ∅ (mon_history sample_queue ++ events))
    ∧ push_requests events
      = flush_requests failing_push_env [sample_remote_site]
          (map_to_list (mon_db sample_queue))
    ∧ length events = length (map_to_list (mon_db sample_queue) ≫= snd).
Proof.
  apply (push_to_remote_sites_pushes_all failing_push_env true [sample_remote_site]
           sample_queue).
  intros remote_site [tenants Hq]. unfold sample_queue in Hq. cbn [mon_db] in Hq.
  apply lookup_insert_Some in Hq as [[<- _]|[_ Hq]]; [by eexists|].
  by rewrite lookup_empty in Hq.
Defined.

Lemma reload_seeds_every_policy_witness :
  ∃ s, EvGetAllByEpg s "T1" "A1" "G1"
       ∈ events_since sample_loaded
           (reload_config quiet_env true (sample_config "10.0.0.1" 1) sample_loaded).2.
Proof.
  refine (reload_seeds_every_policy quiet_env true
            [ItemSite (sample_site_policy "local" "10.0.0.1" "True");
             ItemSite (sample_site_policy "R1" "10.0.0.9" "False");
             ItemExport (sample_export 1)]
            (sample_configuration "10.0.0.1" 0) (sample_configuration "10.0.0.1" 1)
            sample_loaded
            (_reload_sites quiet_env (sample_configuration "10.0.0.1" 0)
               (sample_configuration "10.0.0.1" 1) sample_loaded).2
            (reload_config quiet_env true (sample_config "10.0.0.1" 1) sample_loaded).2
            _ _ _ _ _ (sample_export 1) _).
  - vm_compute. reflexivity.
  - vm_compute. reflexivity.
  - vm_compute. reflexivity.
  - vm_compute. by eexists.
  - vm_compute. reflexivity.
  - left.
Defined.

(** C6 as stated fails: the policy of the sample scope is in the old and
    in the new configuration, no site changes, and the reload still seeds it
    anew, twice: once when it is registered and once more after that. *)
Lemma reload_reseeds_unchanged_counterexample :
  let local_session := mkSession "http://10.0.0.1" "admin" "pw" in
  let remote_session := mkSession "http://10.0.0.9" "admin" "pw" in
  let query := tagged_query_url "T1" "out1" "isite:T1:A1:G1:local" in
  let after := reload_config quiet_env true (sample_config "10.0.0.1" 1) sample_loaded in
  has_same_epg (sample_export 1) (sample_export 0) = true ∧
  (_reload_sites quiet_env (sample_configuration "10.0.0.1" 0)
     (sample_configuration "10.0.0.1" 1) sample_loaded).1 = Returned false ∧
  after.1 = Returned tt ∧
  events_since sample_loaded after.2 =
    [EvGetAllByEpg local_session "T1" "A1" "G1"; EvGet remote_session query true;
     EvGetAllByEpg local_session "T1" "A1" "G1"; EvGet remote_session query true].
Proof. vm_compute. repeat split. Qed.

(** In [_reload_sites] a new site policy that compares equal to the old one
    cannot compare different from it: the loop over the new site policies
    only computes [found_site], it never deletes or adds a site. *)
Lemma _reload_sites_inner_run env old_site new_sites added (st : CollectorState) :
  _reload_sites_inner env old_site new_sites added st
  = (Returned (existsb (fun new_site => SitePolicy_eq new_site old_site) new_sites,
               added), st).
Proof.
  induction new_sites as [|new_site rest IH]; [done|]. cbn [_reload_sites_inner existsb].
  unfold SitePolicy_ne. destruct (SitePolicy_eq new_site old_site); [done|exact IH].
Qed.

(** The policy loop leaves [config] as it was, so a second reload looks for
    the policy objects of the first configuration in the registry, where the
    first reload has replaced them: it raises. *)
Example second_reload_raises :
  let once := (reload_config quiet_env true (sample_config "10.0.0.1" 1) sample_loaded).2 in
  config once = config sample_loaded ∧
  (reload_config quiet_env true (sample_config "10.0.0.1" 2) once).1 = Raised ValueError.
Proof. vm_compute. split; reflexivity. Qed.

(** C2: the code at the failing input.  The address of the local site
    changes and nothing else: after the reload the collector has no site of
    that name any more, no login was made, and no policy was seeded. *)
Theorem reload_changed_address_drops_site :
  let after := reload_config quiet_env true (sample_config "10.0.0.2" 1) sample_loaded in
  Site_name <$> sites sample_loaded = ["local"; "R1"] ∧
  after.1 = Returned tt ∧
  Site_name <$> sites after.2 = ["R1"] ∧
  get_site (sites after.2) "local" = None ∧
  events_since sample_loaded after.2 = [EvPrint "%% No local site configured"].
Proof. vm_compute. repeat split. Qed.

(** Each membership test of [ExportPolicy] only looks at the first name of
    the list. *)
Lemma py_truth_first_is {A} (name_of : A → string) (l : list A) (wanted : string) :
  py_truth (first_is name_of l wanted) = true ↔ head (name_of <$> l) = Some wanted.
Proof.
  destruct l as [|x l]; cbn; [done|]. case_bool_decide; cbn; split; congruence.
Qed.

(** So verification leaves a provided-contract binding alone exactly when
    its contract is the first one the policy lists for the interface. *)
Lemma verify_child_fvRsProv export_policy site l3out n status :
  (verify_child export_policy site l3out (fvRsProv n status)).2 = false ↔
  ∃ l3out_policy,
    _get_l3out_policy export_policy (RemoteSitePolicy_name site)
      (L3OutPolicy_name l3out) (L3OutPolicy_tenant l3out) = Some l3out_policy ∧
    head (contract_name <$> get_provided_contract_policies l3out_policy) = Some n.
Proof.
  cbn [verify_child]. unfold provides.
  destruct (_get_l3out_policy _ _ _ _) as [lp|].
  - destruct (py_truth _) eqn:E; cbn; split; try done.
    + intros _. exists lp. split; [done|]. by apply py_truth_first_is.
    + intros (lp' & [= <-] & Hhead). apply py_truth_first_is in Hhead. congruence.
  - cbn. split; [done|]. by intros (lp' & ? & _).
Qed.

(** C1: the code at the failing input.  The policy authorizes the
    contracts c1 and c2 for the interface; the profile found at the remote
    site provides both; verification leaves c1 alone, marks c2 deleted
    and pushes the profile back. *)
Theorem verify_marks_second_authorized_contract :
  let site := mkRemoteSitePolicy "R1" [sample_l3out] in
  let marked :=
    mk_l3extInstP "aa:bb:cc" (Some "uni/tn-T1/out-out1/instP-aa:bb:cc") None
      [l3extSubnet "10.0.0.5/32"; fvRsProv "c1" None; fvRsProv "c2" (Some "deleted");
       tagInst "isite:T1:A1:G1:local"] in
  contract_name <$> get_provided_contract_policies sample_l3out = ["c1"; "c2"] ∧
  provides (sample_export 0) "R1" "out1" "T1" "c2" = Some false ∧
  verify_entry (sample_export 0) site sample_l3out found_profile = (marked, true) ∧
  push_requests
    (mon_history
       (verify_endpoints found_profile_env [sample_local_site; sample_remote_site]
          sample_local_site (sample_export 0) (mkMonitorState ∅ [])).2)
  = [(mkSession "http://10.0.0.9" "admin" "pw", "/api/mo/uni/tn-T1/out-out1.json",
      InstPDoc marked)].
Proof. vm_compute. repeat split. Qed.

(** ** More on the provenance tag *)

(** What [split] cuts off first: a part without the separator, and either
    nothing more or the separator and the rest. *)
Lemma split_head sep s a l :
  split sep s = a :: l →
  contains_char sep a = false ∧
  match l with
  | [] => s = a
  | _ :: _ => ∃ s', s = a +:+ String sep s' ∧ split sep s' = l
  end.
Proof.
  revert a l. induction s as [|c s IH]; intros a l.
  - simpl. intros [= <- <-]. done.
  - simpl. destruct (Ascii.eqb_spec c sep) as [->|Hne].
    + intros [= <- <-]. split; [done|].
      destruct (split sep s) as [|b l'] eqn:E; [by apply split_nonempty in E|].
      exists s. by rewrite string_app_nil.
    + destruct (split sep s) as [|h t] eqn:E; [by apply split_nonempty in E|].
      intros [= <- <-]. destruct (IH h t eq_refl) as [Hh Ht].
      split; [by apply contains_char_cons|].
      destruct t as [|b t'].
      * by rewrite Ht.
      * destruct Ht as (s' & -> & Hs'). exists s'. by rewrite string_app_cons.
Qed.

Lemma string_app_assoc (a b c : string) : (a +:+ b) +:+ c = a +:+ (b +:+ c).
Proof.
  induction a as [|x a IH]; [reflexivity|]. by rewrite !string_app_cons, IH.
Qed.

Lemma count_char_app c (s t : string) :
  count_char c (s +:+ t) = count_char c s + count_char c t.
Proof.
  induction s as [|a s IH]; [reflexivity|].
  rewrite string_app_cons. simpl. rewrite IH. lia.
Qed.

Lemma count_char_none c s : contains_char c s = false → count_char c s = 0.
Proof.
  induction s as [|a s IH]; [reflexivity|].
  intros [Ha Hs]%contains_char_cons. simpl.
  destruct (Ascii.eqb_spec a c); [contradiction|]. by rewrite IH.
Qed.

(** Two texts that agree and whose first parts hold no separator agree part
    by part. *)
Lemma app_sep_inj sep (x x' y y' : string) :
  contains_char sep x = false → contains_char sep x' = false →
  x +:+ String sep y = x' +:+ String sep y' → x = x' ∧ y = y'.
Proof.
  revert x'. induction x as [|a x IH]; intros x' Hx Hx'.
  - destruct x' as [|a' x'].
    + rewrite !string_app_nil. by intros [= ->].
    + rewrite string_app_nil, string_app_cons. intros [= <- _].
      apply contains_char_cons in Hx' as [? _]. done.
  - apply contains_char_cons in Hx as [Ha Hx].
    destruct x' as [|a' x'].
    + rewrite string_app_nil, string_app_cons. intros [= -> _]. done.
    + apply contains_char_cons in Hx' as [Ha' Hx'].
      rewrite !string_app_cons. intros [= -> Heq].
      destruct (IH x' Hx Hx' Heq) as [-> ->]. done.
Qed.

(** X1.  Formatting is injective on scopes: two tags whose tenant,
    application and endpoint-group fields hold no [:] and that are written
    the same way are the same tag, whatever the origin site holds. *)
Theorem IntersiteTag_str_injective (t1 t2 : IntersiteTag) :
  contains_char ":" (get_tenant_name t1) = false →
  contains_char ":" (get_app_name t1) = false →
  contains_char ":" (get_epg_name t1) = false →
  contains_char ":" (get_tenant_name t2) = false →
  contains_char ":" (get_app_name t2) = false →
  contains_char ":" (get_epg_name t2) = false →
  IntersiteTag_str t1 = IntersiteTag_str t2 → t1 = t2.
Proof.
  destruct t1 as [tn1 ap1 ep1 rs1], t2 as [tn2 ap2 ep2 rs2]. cbn.
  intros H1 H2 H3 H4 H5 H6.
  change (IntersiteTag_str (mkIntersiteTag tn1 ap1 ep1 rs1)) with
    ("isite" +:+ String ":" (tn1 +:+ String ":" (ap1
       +:+ String ":" (ep1 +:+ String ":" rs1)))).
  change (IntersiteTag_str (mkIntersiteTag tn2 ap2 ep2 rs2)) with
    ("isite" +:+ String ":" (tn2 +:+ String ":" (ap2
       +:+ String ":" (ep2 +:+ String ":" rs2)))).
  intros [_ H]%app_sep_inj; [|done..].
  apply app_sep_inj in H as [-> H]; [|done..].
  apply app_sep_inj in H as [-> H]; [|done..].
  apply app_sep_inj in H as [-> ->]; [|done..].
  done.
Qed.

Lemma IntersiteTag_str_injective_witness :
  IntersiteTag_str (mkIntersiteTag "T1" "A1" "G1" "local")
  = IntersiteTag_str (mkIntersiteTag "T1" "A1" "G1" "local") ∧
  mkIntersiteTag "T1" "A1" "G1" "local" = mkIntersiteTag "T1" "A1" "G1" "local".
Proof.
  split; [reflexivity|].
  apply IntersiteTag_str_injective; reflexivity.
Defined.

(** X2.  Parsing keeps what it reads: a string [fromstring] accepts starts
    with the tag it yields, written out; what follows, if anything, starts
    with a fifth [:].  The four fields hold no [:], and a string with
    exactly four [:] is given back by formatting the parsed tag. *)
Theorem fromstring_then_str (__debug__ : bool) (tag : string) (t : IntersiteTag) :
  fromstring __debug__ tag = Returned (Some t) →
  (∃ rest, tag = IntersiteTag_str t +:+ rest ∧
           (rest = "" ∨ ∃ more, rest = String ":" more)) ∧
  contains_char ":" (get_tenant_name t) = false ∧
  contains_char ":" (get_app_name t) = false ∧
  contains_char ":" (get_epg_name t) = false ∧
  contains_char ":" (get_remote_site_name t) = false ∧
  (count_char ":" tag = 4 → IntersiteTag_str t = tag).
Proof.
  unfold fromstring. destruct (is_intersite_tag tag) eqn:E; cbn [negb].
  2:{ unfold py_assert. by destruct __debug__. }
  destruct (is_intersite_tag_fields _ E) as (tn & ap & ep & rs & l & Hs).
  rewrite Hs. cbn. intros [= <-]. cbn.
  apply split_head in Hs as [_ (s1 & -> & Hs)].
  apply split_head in Hs as [Htn (s2 & -> & Hs)].
  apply split_head in Hs as [Hap (s3 & -> & Hs)].
  apply split_head in Hs as [Hep (s4 & -> & Hs)].
  apply split_head in Hs as [Hrs Hs].
  change (IntersiteTag_str (mkIntersiteTag tn ap ep rs)) with
    ("isite" +:+ String ":" (tn +:+ String ":" (ap
       +:+ String ":" (ep +:+ String ":" rs)))).
  assert (Hrest : ∃ rest, s4 = rs +:+ rest ∧
                          (rest = "" ∨ ∃ more, rest = String ":" more)).
  { destruct l as [|b l].
    - exists "". rewrite string_app_empty_r. split; [done|by left].
    - destruct Hs as (s5 & -> & _). exists (String ":" s5). split; [done|].
      right. by exists s5. }
  destruct Hrest as (rest & -> & Hrest).
  split; [|repeat (split; [done|])].
  - exists rest. split; [|done].
    rewrite !string_app_assoc, !string_app_cons, !string_app_nil.
    repeat (rewrite ?string_app_assoc, ?string_app_cons, ?string_app_nil; f_equal).
  - destruct Hrest as [->|[more ->]].
    + by rewrite string_app_empty_r.
    + rewrite !string_app_cons, !string_app_nil. cbn.
      rewrite !count_char_app. cbn. rewrite !count_char_app. cbn.
      rewrite !count_char_app. cbn. rewrite !count_char_app. cbn. lia.
Qed.

Lemma fromstring_then_str_witness :
  fromstring true "isite:T1:A1:G1:local"
  = Returned (Some (mkIntersiteTag "T1" "A1" "G1" "local")) ∧
  IntersiteTag_str (mkIntersiteTag "T1" "A1" "G1" "local") = "isite:T1:A1:G1:local".
Proof.
  split; [reflexivity|].
  destruct (fromstring_then_str true "isite:T1:A1:G1:local"
              (mkIntersiteTag "T1" "A1" "G1" "local") eq_refl)
    as (_ & _ & _ & _ & _ & H).
  apply H. reflexivity.
Defined.

(** ** The batch store, whatever it holds *)

Lemma list_find_replace {A} (P : A → Prop) `{!∀ x, Decision (P x)}
    (l : list A) i x y :
  list_find P l = Some (i, x) → P y → list_find P (<[i:=y]> l) = Some (i, y).
Proof.
  intros (Hi & _ & Hbefore)%list_find_Some Hy.
  apply list_find_insert_Some. right. left.
  split; [done|]. split; [done|]. split; [by eapply lookup_lt_Some|]. done.
Qed.

Lemma list_find_snoc {A} (P : A → Prop) `{!∀ x, Decision (P x)} (l : list A) y :
  list_find P l = None → P y → list_find P (l ++ [y]) = Some (length l, y).
Proof.
  intros Hl Hy. rewrite list_find_app_r by done. cbn.
  by rewrite decide_True.
Qed.

Section one_profile.
Variable __debug__ : bool.
Variables (tenant_name l3out_name : string) (p : l3extInstP).

Let new_l3out : l3extOut := mk_l3extOut l3out_name [Mo_l3extInstP p].
Let new_json : fvTenant := mk_fvTenant tenant_name [Mo_l3extOut new_l3out].

Lemma merge_l3instp_any (l3out : l3extOut) :
  ∃ l3out',
    merge_l3instp __debug__ new_l3out l3out = Returned l3out' ∧
    out_name l3out' = out_name l3out ∧
    merge_l3instp __debug__ new_l3out l3out' = Returned l3out'.
Proof.
  unfold merge_l3instp. cbn. rewrite andb_false_r.
  destruct (bool_decide (Mo_l3extInstP p ∉ out_children l3out)) eqn:E.
  - eexists. split; [done|]. split; [done|]. cbn.
    rewrite bool_decide_eq_false_2; [done|].
    intros H. apply H. apply elem_of_app. right. by left.
  - exists l3out. split; [done|]. split; [done|]. by rewrite E.
Qed.

Lemma merge_l3instp_self :
  merge_l3instp __debug__ new_l3out new_l3out = Returned new_l3out.
Proof.
  unfold merge_l3instp. cbn. rewrite andb_false_r.
  rewrite bool_decide_eq_false_2; [done|]. intros H. apply H. by left.
Qed.

Lemma merge_l3out_self :
  merge_l3out __debug__ new_json new_json = Returned new_json.
Proof.
  unfold merge_l3out. cbn [new_json tn_children new_l3out out_name].
  fold new_l3out.
  assert (list_find (fun l3out => is_l3extOut_named l3out_name l3out)
            [Mo_l3extOut new_l3out] = Some (0, Mo_l3extOut new_l3out)) as ->.
  { apply list_find_Some. split; [done|]. split; [by apply bool_decide_spec|].
    intros j y _ Hj. lia. }
  by rewrite merge_l3instp_self.
Qed.

Lemma merge_l3out_any (tenant_json : fvTenant) :
  ∃ tenant_json',
    merge_l3out __debug__ new_json tenant_json = Returned tenant_json' ∧
    tn_name tenant_json' = tn_name tenant_json ∧
    merge_l3out __debug__ new_json tenant_json' = Returned tenant_json'.
Proof.
  unfold merge_l3out. cbn [new_json tn_children new_l3out out_name].
  destruct (list_find _ (tn_children tenant_json)) as [[oi [l3out|cls]]|] eqn:E.
  - destruct (merge_l3instp_any l3out) as (l3out' & Hm & Hn & Hm').
    fold new_l3out. rewrite Hm. cbn -[merge_l3instp merge_l3out]. eexists. split; [done|]. split; [done|].
    cbn -[merge_l3instp merge_l3out]. rewrite (list_find_replace _ _ _ _ (Mo_l3extOut l3out') E).
    2:{ cbn -[merge_l3instp merge_l3out]. apply bool_decide_spec. rewrite Hn.
        apply list_find_Some in E as (_ & HP & _). cbn in HP.
        by apply bool_decide_spec in HP. }
    rewrite Hm'. cbn -[merge_l3instp merge_l3out]. by rewrite list_insert_insert_eq.
  - apply list_find_Some in E as (_ & HP & _). done.
  - eexists. split; [done|]. split; [done|]. cbn -[merge_l3instp merge_l3out].
    rewrite (list_find_snoc _ _ (Mo_l3extOut new_l3out) E).
    2:{ cbn -[merge_l3instp merge_l3out]. by apply bool_decide_spec. }
    fold new_l3out. rewrite merge_l3instp_self.
    cbn -[merge_l3instp merge_l3out]. f_equal. f_equal.
    apply list_insert_id. by rewrite lookup_app_r, Nat.sub_diag.
Qed.

Lemma merge_tenant_any (db_json : list fvTenant) :
  ∃ db_json',
    merge_tenant __debug__ new_json db_json = Returned db_json' ∧
    db_json' ≠ [] ∧
    merge_tenant __debug__ new_json db_json' = Returned db_json'.
Proof.
  unfold merge_tenant.
  destruct (list_find _ db_json) as [[ti tenant_json]|] eqn:E.
  - destruct (merge_l3out_any tenant_json) as (tj' & Hm & Hn & Hm').
    rewrite Hm. cbn [mbind result_bind]. eexists. split; [done|]. split.
    { apply list_find_Some in E as (Hi & _). apply lookup_lt_Some in Hi.
      intros Hnil%(f_equal length). rewrite length_insert in Hnil.
      rewrite Hnil in Hi. cbn in Hi. lia. }
    rewrite (list_find_replace _ _ _ _ tj' E).
    2:{ rewrite Hn. by apply list_find_Some in E as (_ & HP & _). }
    rewrite Hm'. cbn [mbind result_bind]. by rewrite list_insert_insert_eq.
  - eexists. split; [done|]. split; [by destruct db_json|].
    rewrite (list_find_snoc _ _ new_json E) by done.
    rewrite merge_l3out_self.
    cbn [mbind result_bind]. f_equal. apply list_insert_id.
    by rewrite lookup_app_r, Nat.sub_diag.
Qed.

Lemma _merge_tenant_json_any (remote_site : string) (db : Queue) :
  ∃ db',
    _merge_tenant_json __debug__ remote_site new_json db = (Returned tt, db') ∧
    (∃ tenants, db' !! remote_site = Some tenants ∧ tenants ≠ []) ∧
    (∀ other, other ≠ remote_site → db' !! other = db !! other) ∧
    _merge_tenant_json __debug__ remote_site new_json db' = (Returned tt, db').
Proof.
  unfold _merge_tenant_json. destruct (db !! remote_site) as [ts|] eqn:E.
  - destruct (merge_tenant_any ts) as (ts' & Hm & Hne & Hm').
    rewrite Hm. eexists. split; [done|]. rewrite lookup_insert_eq.
    split; [eauto|]. split.
    + intros other Ho. by rewrite lookup_insert_ne.
    + rewrite Hm'. by rewrite insert_insert_eq.
  - eexists. split; [done|]. rewrite lookup_insert_eq.
    split; [by eexists|]. split.
    + intros other Ho. by rewrite lookup_insert_ne.
    + destruct (merge_tenant_any []) as (ts' & Hm & _ & Hm').
      cbn in Hm. injection Hm as <-. rewrite Hm'. by rewrite insert_insert_eq.
Qed.
End one_profile.

Lemma create_tenant_shape l3out_policy endpoint tag tenant_json :
  _create_tenant_with_l3instp l3out_policy endpoint tag = Returned tenant_json →
  ∃ p, tenant_json =
       mk_fvTenant (L3OutPolicy_tenant l3out_policy)
         [Mo_l3extOut (mk_l3extOut (L3OutPolicy_name l3out_policy) [Mo_l3extInstP p])].
Proof.
  unfold _create_tenant_with_l3instp.
  destruct (is_deleted endpoint); [|destruct (ip endpoint)]; cbn; [| |done];
    intros [= <-]; eauto.
Qed.

Lemma _remove_queued_endpoint_sites remote_site l3out_policy endpoint (db : Queue) :
  (∀ other, other ≠ remote_site →
            _remove_queued_endpoint remote_site l3out_policy endpoint db !! other
            = db !! other) ∧
  (∀ s, is_Some (_remove_queued_endpoint remote_site l3out_policy endpoint db !! s)
        ↔ is_Some (db !! s)).
Proof.
  unfold _remove_queued_endpoint. destruct (db !! remote_site) eqn:E; [|done].
  split.
  - intros other Ho. by rewrite lookup_insert_ne.
  - intros s. destruct (decide (s = remote_site)) as [->|Hs].
    + rewrite lookup_insert_eq, E. split; eauto.
    + by rewrite lookup_insert_ne.
Qed.

(** The remote sites named by an export policy that has at least one
    interface to queue for. *)
Lemma target_sites_cons (rsp : RemoteSitePolicy) (policies : list RemoteSitePolicy) s :
  s ∈ (fun x : string * string * string => x.1.1) <$>
        ((rsp :: policies) ≫= fun remote_site_policy =>
           get_interfaces remote_site_policy ≫= fun l3out_policy =>
             [(RemoteSitePolicy_name remote_site_policy,
               L3OutPolicy_tenant l3out_policy, L3OutPolicy_name l3out_policy)])
  ↔ (s = RemoteSitePolicy_name rsp ∧ get_interfaces rsp ≠ []) ∨
    s ∈ (fun x : string * string * string => x.1.1) <$>
          (policies ≫= fun remote_site_policy =>
             get_interfaces remote_site_policy ≫= fun l3out_policy =>
               [(RemoteSitePolicy_name remote_site_policy,
                 L3OutPolicy_tenant l3out_policy, L3OutPolicy_name l3out_policy)]).
Proof.
  rewrite bind_cons, fmap_app, elem_of_app.
  apply or_iff_compat_r.
  rewrite list_elem_of_fmap. split.
  - intros ([[s' t] o] & -> & Hin). apply list_elem_of_bind in Hin as (l3 & Hin & Hl3).
    apply list_elem_of_singleton in Hin as [= -> _ _]. cbn. split; [done|].
    intros Hnil. rewrite Hnil in Hl3. by apply elem_of_nil in Hl3.
  - intros [-> Hne]. destruct (get_interfaces rsp) as [|l3 l3s]; [done|].
    exists (RemoteSitePolicy_name rsp, L3OutPolicy_tenant l3, L3OutPolicy_name l3).
    split; [done|]. rewrite bind_cons. apply elem_of_app. left. by left.
Qed.

Section any_endpoint.
Variable __debug__ : bool.
Variable endpoint : Endpoint.
Variable local_site : Site.
Hypothesis Hep : is_deleted endpoint = true ∨ is_Some (ip endpoint).

Lemma queue_endpoint_any remote_site_policy l3out_policy (db : Queue) :
  ∃ db',
    queue_endpoint __debug__ endpoint local_site remote_site_policy l3out_policy db
    = (Returned tt, db') ∧
    is_Some (db' !! RemoteSitePolicy_name remote_site_policy) ∧
    (∀ other, other ≠ RemoteSitePolicy_name remote_site_policy →
              db' !! other = db !! other).
Proof.
  destruct (create_tenant_returns l3out_policy endpoint (tag_of endpoint local_site) Hep)
    as (p & Hcreate & _).
  unfold queue_endpoint. rewrite M_bind_run. cbn [modify].
  rewrite M_bind_run. unfold lift_result. fold (tag_of endpoint local_site).
  rewrite Hcreate.
  destruct (_merge_tenant_json_any __debug__ (L3OutPolicy_tenant l3out_policy)
              (L3OutPolicy_name l3out_policy) p
              (RemoteSitePolicy_name remote_site_policy)
              (_remove_queued_endpoint (RemoteSitePolicy_name remote_site_policy)
                 l3out_policy endpoint db))
    as (db' & Hrun & (ts & Hts & _) & Hother & _).
  exists db'. split; [exact Hrun|]. split; [by eexists|].
  intros other Ho. rewrite Hother by done.
  by apply _remove_queued_endpoint_sites.
Qed.

Lemma queue_interfaces_any remote_site_policy (l3outs : list L3OutPolicy) (db : Queue) :
  ∃ db',
    for_each l3outs (queue_endpoint __debug__ endpoint local_site remote_site_policy) db
    = (Returned tt, db') ∧
    (l3outs ≠ [] ∨ is_Some (db !! RemoteSitePolicy_name remote_site_policy) →
     is_Some (db' !! RemoteSitePolicy_name remote_site_policy)) ∧
    (l3outs = [] → db' = db) ∧
    (∀ other, other ≠ RemoteSitePolicy_name remote_site_policy →
              db' !! other = db !! other).
Proof.
  revert db. induction l3outs as [|l3 l3s IH]; intros db.
  - exists db. split; [done|]. split; [by intros [?|?]|]. done.
  - destruct (queue_endpoint_any remote_site_policy l3 db) as (db1 & Hrun1 & Hs1 & Ho1).
    destruct (IH db1) as (db2 & Hrun2 & Hs2 & _ & Ho2).
    exists db2. rewrite for_each_cons, Hrun1. split; [exact Hrun2|].
    split; [intros _; apply Hs2; by right|]. split; [done|].
    intros other Ho. by rewrite Ho2, Ho1.
Qed.

Lemma queue_site_policies_any (policies : list RemoteSitePolicy) (db : Queue) :
  ∃ db',
    for_each policies (fun remote_site_policy =>
      for_each (get_interfaces remote_site_policy)
        (queue_endpoint __debug__ endpoint local_site remote_site_policy)) db
    = (Returned tt, db') ∧
    ∀ s,
      let named :=
        s ∈ (fun x : string * string * string => x.1.1) <$>
              (policies ≫= fun remote_site_policy =>
                 get_interfaces remote_site_policy ≫= fun l3out_policy =>
                   [(RemoteSitePolicy_name remote_site_policy,
                     L3OutPolicy_tenant l3out_policy,
                     L3OutPolicy_name l3out_policy)]) in
      (¬ named → db' !! s = db !! s) ∧
      (is_Some (db' !! s) ↔ is_Some (db !! s) ∨ named).
Proof.
  revert db. induction policies as [|rsp policies IH]; intros db.
  - exists db. split; [done|]. intros s named. split; [done|].
    split; [by left|]. intros [?|Hn]; [done|]. by apply elem_of_nil in Hn.
  - destruct (queue_interfaces_any rsp (get_interfaces rsp) db)
      as (db1 & Hrun1 & Hs1 & Hnil1 & Ho1).
    destruct (IH db1) as (db2 & Hrun2 & H2).
    exists db2. rewrite for_each_cons, Hrun1. split; [exact Hrun2|].
    intros s named. unfold named. rewrite target_sites_cons.
    destruct (H2 s) as [Hkeep2 Hdom2]. cbv zeta in Hkeep2, Hdom2.
    split.
    + intros Hn. rewrite Hkeep2 by tauto.
      destruct (decide (s = RemoteSitePolicy_name rsp)) as [->|Hs]; [|by apply Ho1].
      destruct (decide (get_interfaces rsp = [])) as [Hnil|Hne]; [|tauto].
      by rewrite (Hnil1 Hnil).
    + rewrite Hdom2.
      destruct (decide (s = RemoteSitePolicy_name rsp)) as [->|Hs].
      * destruct (decide (get_interfaces rsp = [])) as [Hnil|Hne].
        -- rewrite (Hnil1 Hnil). tauto.
        -- split; [tauto|]. intros _. left. apply Hs1. by left.
      * rewrite Ho1 by done. tauto.
Qed.
End any_endpoint.

(** One [add_endpoint] on any queue: it returns, and only the remote sites
    its export policy names with an interface are touched. *)
Lemma add_endpoint_any __debug__ endpoint local_site (db : Queue) :
  ∃ db',
    add_endpoint __debug__ endpoint local_site db = (Returned tt, db') ∧
    ∀ s,
      let named :=
        s ∈ (fun x : string * string * string => x.1.1) <$>
              match exported endpoint local_site with
              | Some policy => targets policy
              | None => []
              end in
      (¬ named → db' !! s = db !! s) ∧
      (is_Some (db' !! s) ↔ is_Some (db !! s) ∨ named).
Proof.
  unfold add_endpoint, exported.
  destruct (bool_decide (ip endpoint = Some "0.0.0.0")
            || bool_decide (ip endpoint = None) && negb (is_deleted endpoint))
    eqn:Hguard.
  { exists db. split; [done|]. intros s. split; [done|].
    split; [by left|]. intros [?|Hn]; [done|]. by apply elem_of_nil in Hn. }
  destruct (get_policy_for_epg _ _ _ _) as [policy|].
  2:{ exists db. split; [done|]. intros s. split; [done|].
      split; [by left|]. intros [?|Hn]; [done|]. by apply elem_of_nil in Hn. }
  apply queue_site_policies_any.
  apply orb_false_iff in Hguard as [_ Hg].
  destruct (is_deleted endpoint); [by left|right].
  rewrite andb_true_r in Hg. apply bool_decide_eq_false in Hg.
  by destruct (ip endpoint).
Qed.

(** X3.  [add_endpoint] never raises: whatever the endpoint, the local
    site and the documents already queued, with assertions on or off, it
    returns. *)
Theorem add_endpoint_returns __debug__ endpoint local_site (db : Queue) :
  (add_endpoint __debug__ endpoint local_site db).1 = Returned tt.
Proof.
  destruct (add_endpoint_any __debug__ endpoint local_site db) as (db' & -> & _).
  done.
Qed.

(** X4.  [add_endpoint] touches only the remote sites its export policy
    names with an interface: the documents queued for any other site stay
    as they are, no site leaves the store, and each of the named sites has an
    entry afterwards. *)
Theorem add_endpoint_touches_named_sites __debug__ endpoint local_site (db : Queue)
    (remote_site : string) :
  let db' := (add_endpoint __debug__ endpoint local_site db).2 in
  let named :=
    remote_site ∈ (fun x : string * string * string => x.1.1) <$>
                    match exported endpoint local_site with
                    | Some policy => targets policy
                    | None => []
                    end in
  (¬ named → db' !! remote_site = db !! remote_site) ∧
  (is_Some (db !! remote_site) → is_Some (db' !! remote_site)) ∧
  (named → is_Some (db' !! remote_site)).
Proof.
  destruct (add_endpoint_any __debug__ endpoint local_site db) as (db' & -> & H).
  cbn. destruct (H remote_site) as [Hkeep Hdom]. cbv zeta in Hkeep, Hdom.
  split; [done|]. split; intros; apply Hdom; tauto.
Qed.

(** X5.  Merging is idempotent: once a document made by
    [_create_tenant_with_l3instp] is merged into the store, whatever the
    store held, merging the same document again changes nothing, and
    neither merge raises. *)
Theorem _merge_tenant_json_idempotent __debug__ l3out_policy endpoint tag
    tenant_json remote_site (db : Queue) :
  _create_tenant_with_l3instp l3out_policy endpoint tag = Returned tenant_json →
  ∃ db',
    _merge_tenant_json __debug__ remote_site tenant_json db = (Returned tt, db') ∧
    _merge_tenant_json __debug__ remote_site tenant_json db' = (Returned tt, db').
Proof.
  intros [p ->]%create_tenant_shape.
  destruct (_merge_tenant_json_any __debug__ (L3OutPolicy_tenant l3out_policy)
              (L3OutPolicy_name l3out_policy) p remote_site db)
    as (db' & Hrun & _ & _ & Hagain).
  by exists db'.
Qed.

Lemma _merge_tenant_json_idempotent_witness :
  ∃ db',
    _merge_tenant_json true "R1"
      (mk_fvTenant "T1"
         [Mo_l3extOut (mk_l3extOut "out1"
            [Mo_l3extInstP (mk_l3extInstP "aa:bb:cc" None (Some "deleted")
               [fvRsProv "c1" None; fvRsProv "c2" None;
                tagInst "isite:T1:A1:G1:local"])])])
      (mon_db sample_queue) = (Returned tt, db') ∧
    _merge_tenant_json true "R1"
      (mk_fvTenant "T1"
         [Mo_l3extOut (mk_l3extOut "out1"
            [Mo_l3extInstP (mk_l3extInstP "aa:bb:cc" None (Some "deleted")
               [fvRsProv "c1" None; fvRsProv "c2" None;
                tagInst "isite:T1:A1:G1:local"])])])
      db' = (Returned tt, db').
Proof.
  apply (_merge_tenant_json_idempotent true sample_l3out
           (sample_endpoint "aa:bb:cc" None true)
           (mkIntersiteTag "T1" "A1" "G1" "local")).
  reflexivity.
Defined.

(** ** A flush, whatever the collector knows *)

Section flush_outcome.
Variable env : Environment.
Variable __debug__ : bool.
Variable collector_sites : list Site.

Lemma flush_requests_app (q1 q2 : list (string * list fvTenant)) :
  flush_requests env collector_sites (q1 ++ q2)
  = flush_requests env collector_sites q1 ++ flush_requests env collector_sites q2.
Proof. unfold flush_requests. apply bind_app. Qed.

Lemma push_site_queue_any (entry : string * list fvTenant) (st : MonitorState) :
  if can_push collector_sites entry then
    ∃ events,
      push_site_queue env __debug__ collector_sites entry st
      = (Returned tt, mkMonitorState (mon_db st) (mon_history st ++ events)) ∧
      push_requests events = flush_requests env collector_sites [entry]
  else
    ∃ e, push_site_queue env __debug__ collector_sites entry st = (Raised e, st).
Proof.
  destruct entry as [remote_site tenants]. unfold can_push. cbn [fst snd].
  destruct (get_site collector_sites remote_site) as [site|] eqn:Hsite.
  - destruct (Site_session site) as [s|] eqn:Hs.
    + destruct (push_site_queue_run env __debug__ collector_sites remote_site
                  tenants st) as (events & Hrun & Hreq & _).
      { unfold site_session_of. rewrite Hsite. cbn. by rewrite Hs. }
      by exists events.
    + case_bool_decide as Hts.
      * subst tenants. exists []. rewrite app_nil_r.
        unfold push_site_queue. cbn [fst snd]. rewrite Hsite.
        unfold py_assert. rewrite bool_decide_eq_true_2 by eauto.
        rewrite andb_false_r. cbn. rewrite Hs. cbn.
        split; [by destruct st|].
        unfold flush_requests, site_session_of. cbn. rewrite Hsite. cbn.
        by rewrite Hs.
      * exists AttributeError. unfold push_site_queue. cbn [fst snd]. rewrite Hsite.
        unfold py_assert. rewrite bool_decide_eq_true_2 by eauto.
        rewrite andb_false_r. cbn. rewrite Hs.
        destruct tenants as [|t ts]; [done|]. reflexivity.
  - exists (if __debug__ then AssertionError else AttributeError).
    unfold push_site_queue. cbn [fst snd]. rewrite Hsite.
    unfold py_assert. rewrite bool_decide_eq_false_2 by (by intros [? ?]).
    by destruct __debug__.
Qed.

Lemma push_sites_loop_any (queue : list (string * list fvTenant)) (st : MonitorState) :
  ∃ events,
    let r := for_each queue (push_site_queue env __debug__ collector_sites) st in
    r.2 = mkMonitorState (mon_db st) (mon_history st ++ events) ∧
    push_requests events `prefix_of` flush_requests env collector_sites queue ∧
    if forallb (can_push collector_sites) queue
    then r.1 = Returned tt ∧
         push_requests events = flush_requests env collector_sites queue
    else ∃ e, r.1 = Raised e.
Proof.
  revert st. induction queue as [|entry queue IH]; intros st.
  - exists []. rewrite app_nil_r. cbn. split; [by destruct st|]. done.
  - cbv zeta. rewrite for_each_cons. cbn [forallb].
    pose proof (push_site_queue_any entry st) as Hentry.
    change (entry :: queue) with ([entry] ++ queue). rewrite flush_requests_app.
    destruct (can_push collector_sites entry).
    + destruct Hentry as (ev1 & -> & Hreq1).
      destruct (IH (mkMonitorState (mon_db st) (mon_history st ++ ev1)))
        as (ev2 & Hst2 & Hpre2 & Hout2).
      cbv zeta in Hst2, Hout2. cbn [mon_db mon_history] in Hst2.
      exists (ev1 ++ ev2). rewrite Hst2, app_assoc. split; [done|].
      rewrite push_requests_app, Hreq1. split; [by apply prefix_app|].
      cbn [andb]. destruct (forallb _ queue); [|done].
      destruct Hout2 as [-> ->]. done.
    + destruct Hentry as (e & ->). exists []. rewrite app_nil_r. cbn [fst snd andb].
      split; [by destruct st|]. split; [apply prefix_nil|]. by exists e.
Qed.

(** X6.  A flush is all or nothing for the store: it returns, with every
    queued document pushed and the store empty, exactly when each queued
    remote site is a site of the collector with a session (or has nothing
    queued); otherwise it raises, the store is left as it was, and the
    pushes already made are the first ones the complete flush would have
    made. *)
Theorem push_to_remote_sites_all_or_nothing (st : MonitorState) :
  ∃ events,
    let r := push_to_remote_sites env __debug__ collector_sites st in
    mon_history r.2 = mon_history st ++ events ∧
    push_requests events
      `prefix_of` flush_requests env collector_sites (map_to_list (mon_db st)) ∧
    if forallb (can_push collector_sites) (map_to_list (mon_db st))
    then r.1 = Returned tt ∧ mon_db r.2 = ∅ ∧
         push_requests events
         = flush_requests env collector_sites (map_to_list (mon_db st))
    else (∃ e, r.1 = Raised e) ∧ mon_db r.2 = mon_db st.
Proof.
  destruct (push_sites_loop_any (map_to_list (mon_db st)) st)
    as (events & Hst & Hpre & Hout).
  cbv zeta in Hst, Hout. exists events. cbv zeta.
  unfold push_to_remote_sites. rewrite M_bind_run. cbv beta iota.
  rewrite M_bind_run.
  destruct (for_each _ _ st) as [[[]|e] st'] eqn:Hrun; cbn [fst snd] in *; subst st'.
  - cbn. split; [done|]. split; [done|].
    destruct (forallb _ _); [|by destruct Hout]. by destruct Hout as [_ ->].
  - cbn. split; [done|]. split; [done|].
    destruct (forallb _ _); [by destruct Hout|]. eauto.
Qed.
End flush_outcome.

(** ** The verification pass *)

Lemma verify_endpoints_loops env collector_sites local_site export_policy :
  verify_endpoints env collector_sites local_site export_policy
  = (_ ← for_each_until (get_site_policies export_policy) (fun site =>
           for_each_until (get_interfaces site)
             (verify_interface env collector_sites local_site export_policy site));
     mret tt).
Proof. reflexivity. Qed.

Lemma first_is_listed {A} (name_of : A → string) (l : list A) (wanted : string) :
  py_truth (first_is name_of l wanted) = true → wanted ∈ name_of <$> l.
Proof.
  destruct l as [|x l]; [done|]. cbn. case_bool_decide as Hx; [|done].
  intros _. rewrite <- Hx. by left.
Qed.

(** X7.  What verification does to one child of a found instance profile:
    a child it marks is a binding, and marking only sets its status to
    "deleted"; a child it leaves alone is left as it is, and if it is a
    binding, the interface policy found for the remote site lists its name.
    So no binding outside the policy is ever left in place. *)
Theorem verify_child_sound export_policy site l3out child :
  let checked := verify_child export_policy site l3out child in
  checked.1 = (if checked.2 then mark_deleted child else child) ∧
  (checked.2 = true → is_Some (binding_name child)) ∧
  (checked.2 = false →
   ∀ n, binding_name child = Some n →
        ∃ found,
          _get_l3out_policy export_policy (RemoteSitePolicy_name site)
            (L3OutPolicy_name l3out) (L3OutPolicy_tenant l3out) = Some found ∧
          n ∈ listed_names found child).
Proof.
  cbv zeta. unfold verify_child, provides, consumes, protected_by, consumes_cif.
  destruct child as [ip|n st|n st|n st|n st|name|cls]; cbn [binding_name mark_deleted];
    try (split; [done|]; split; [done|]; intros _ ? [=]).
  all: destruct (_get_l3out_policy _ _ _ _) as [found|] eqn:Hfound;
       cbn [py_truth];
       [|split; [done|]; split; [by eexists|done]].
  all: match goal with
       | |- context [py_truth (first_is ?f ?l ?w)] =>
           destruct (py_truth (first_is f l w)) eqn:Hfirst
       end; cbn [fst snd];
       (split; [done|]); (split; [by eauto|]); try done.
  all: intros _ ? [= <-]; exists found; split; [done|];
       by apply first_is_listed in Hfirst.
Qed.

Lemma verify_child_marks export_policy site l3out child :
  (verify_child export_policy site l3out child).1
  = (if (verify_child export_policy site l3out child).2
     then mark_deleted child else child) ∧
  ((verify_child export_policy site l3out child).2 = true →
   is_Some (binding_name child)).
Proof.
  unfold verify_child.
  destruct child as [ip|n st|n st|n st|n st|name|cls]; cbn [binding_name mark_deleted];
    try done.
  all: match goal with
       | |- context [if ?b then _ else _] => destruct b
       end; cbn; eauto.
Qed.

Lemma mark_deleted_status child :
  is_Some (binding_name child) → binding_status (mark_deleted child) = Some "deleted".
Proof. destruct child; cbn; try done; by intros [? [=]]. Qed.

Lemma mark_deleted_binding child :
  binding_name (mark_deleted child) = binding_name child.
Proof. by destruct child. Qed.

Lemma verify_entry_dirty export_policy site l3out entry :
  (verify_entry export_policy site l3out entry).2 = true →
  ∃ child, child ∈ instp_children (verify_entry export_policy site l3out entry).1 ∧
           is_Some (binding_name child) ∧ binding_status child = Some "deleted".
Proof.
  unfold verify_entry. cbn [fst snd instp_children].
  intros Hdirty. apply existsb_exists in Hdirty as ([child' d] & Hin & Hd).
  cbn in Hd. subst d.
  apply list_elem_of_In, list_elem_of_fmap in Hin as (child & Hv & Hchild).
  exists child'. split.
  - apply list_elem_of_fmap. exists (child', true). split; [done|].
    apply list_elem_of_fmap. by exists child.
  - destruct (verify_child_marks export_policy site l3out child) as [H1 H2].
    rewrite <- Hv in H1, H2. cbn in H1, H2. subst child'.
    split; [rewrite mark_deleted_binding|apply mark_deleted_status]; by apply H2.
Qed.

(** X8.  What verification does to one found instance profile: its name,
    distinguished name and status stay, and so does every child but the
    bindings it marks, whose status becomes "deleted".  A profile reported
    clean is unchanged; a profile reported dirty holds a binding marked
    deleted. *)
Theorem verify_entry_only_marks export_policy site l3out entry :
  let checked := verify_entry export_policy site l3out entry in
  instp_name checked.1 = instp_name entry ∧
  instp_dn checked.1 = instp_dn entry ∧
  instp_status checked.1 = instp_status entry ∧
  Forall2 (fun child child' =>
             child' = child ∨
             (is_Some (binding_name child) ∧ child' = mark_deleted child))
          (instp_children entry) (instp_children checked.1) ∧
  (checked.2 = false → checked.1 = entry) ∧
  (checked.2 = true →
   ∃ child, child ∈ instp_children checked.1 ∧ is_Some (binding_name child) ∧
            binding_status child = Some "deleted").
Proof.
  cbv zeta. split; [done|]. split; [done|]. split; [done|].
  split; [|split; [|apply verify_entry_dirty]].
  all: unfold verify_entry; cbn [fst snd instp_children];
       destruct entry as [name dn status children]; cbn [instp_children].
  - rewrite <- list_fmap_compose. apply Forall2_fmap_r, Forall_Forall2_diag.
    apply Forall_forall. intros child _. cbn.
    destruct (verify_child_marks export_policy site l3out child) as [-> Hb].
    destruct (verify_child export_policy site l3out child).2; [right|by left].
    split; [by apply Hb|done].
  - intros Hclean. f_equal. rewrite <- list_fmap_compose.
    induction children as [|child children IH]; [done|].
    cbn in Hclean. apply orb_false_iff in Hclean as [Hc Hcs].
    cbn. rewrite (IH Hcs). f_equal.
    destruct (verify_child_marks export_policy site l3out child) as [-> _].
    by rewrite Hc.
Qed.

Section verification.
Variable env : Environment.
Variable collector_sites : list Site.
Variable local_site : Site.
Variable export_policy : ExportPolicy.

Lemma stops_at_failed_get_app {A B} (a : A) (r : result B) is_return is_return'
    (ev1 ev2 : list Event) :
  is_return a = false →
  stops_at_failed_get (Returned a) is_return ev1 →
  stops_at_failed_get r is_return' ev2 →
  stops_at_failed_get r is_return' (ev1 ++ ev2).
Proof.
  unfold stops_at_failed_get. intros -> H1 H2.
  destruct r as [b|e]; [destruct (is_return' b)|].
  - destruct H2 as (before & ev & -> & Hev & Hbefore).
    exists (ev1 ++ before), ev. rewrite app_assoc. split; [done|].
    split; [done|]. by apply Forall_app.
  - by apply Forall_app.
  - by apply Forall_app.
Qed.

(** The loops of the pass: what holds of each round holds of the loop. *)
Lemma for_each_until_events {A} (l : list A) (body : A → M MonitorState flow)
    (P : Event → Prop) (C : A → Prop) :
  (∀ x, x ∈ l → ∀ st, ∃ events,
      (body x st).2 = mkMonitorState (mon_db st) (mon_history st ++ events) ∧
      Forall P events ∧
      stops_at_failed_get (body x st).1 is_Return events ∧
      (C x → ∃ f, (body x st).1 = Returned f)) →
  ∀ st, ∃ events,
    (for_each_until l body st).2
    = mkMonitorState (mon_db st) (mon_history st ++ events) ∧
    Forall P events ∧
    stops_at_failed_get (for_each_until l body st).1 is_Return events ∧
    (Forall C l → ∃ f, (for_each_until l body st).1 = Returned f).
Proof.
  induction l as [|x l IH]; intros Hbody st.
  - exists []. rewrite app_nil_r. cbn. split; [by destruct st|].
    split; [done|]. split; [done|]. eauto.
  - cbn [for_each_until]. rewrite M_bind_run.
    destruct (Hbody x (list_elem_of_here _ _) st) as (ev1 & Hst1 & HP1 & Hstop1 & Hret1).
    destruct (body x st) as [[[]|e] st1] eqn:Hrun; cbn [fst snd] in *; subst st1.
    + destruct (IH (fun y Hy => Hbody y (list_elem_of_further _ _ _ Hy))
                  (mkMonitorState (mon_db st) (mon_history st ++ ev1)))
        as (ev2 & Hst2 & HP2 & Hstop2 & Hret2).
      cbn [mon_db mon_history] in Hst2. exists (ev1 ++ ev2).
      rewrite Hst2, app_assoc. split; [done|]. split; [by apply Forall_app|].
      split.
      * exact (stops_at_failed_get_app Next _ is_Return is_Return ev1 ev2
                 eq_refl Hstop1 Hstop2).
      * intros [_ Hl]%Forall_cons. by apply Hret2.
    + exists ev1. cbn. split; [done|]. split; [done|]. split; [done|]. eauto.
    + exists ev1. split; [done|]. split; [done|]. split; [done|].
      intros [Hx _]%Forall_cons. by apply Hret1.
Qed.

Lemma verify_push_entry_run site l3out s entry (st : MonitorState) :
  site ∈ get_site_policies export_policy → l3out ∈ get_interfaces site →
  site_session_of collector_sites (RemoteSitePolicy_name site) = Some s →
  ∃ events,
    verify_push_entry env export_policy site l3out s entry st
    = (Returned tt, mkMonitorState (mon_db st) (mon_history st ++ events)) ∧
    Forall (verify_request collector_sites export_policy) events ∧
    Forall (fun ev => failed_get ev = false) events.
Proof.
  intros Hsite Hl3out Hs. unfold verify_push_entry.
  pose proof (verify_entry_dirty export_policy site l3out entry) as Hdirty.
  destruct (verify_entry export_policy site l3out entry) as [entry' [|]].
  - eexists [_]. split; [reflexivity|]. split; [|by repeat constructor].
    apply Forall_singleton. cbn. split; [|by apply Hdirty].
    by exists site, l3out.
  - exists []. rewrite app_nil_r. split; [by destruct st|]. done.
Qed.

Lemma verify_entries_run site l3out s (entries : list l3extInstP) (st : MonitorState) :
  site ∈ get_site_policies export_policy → l3out ∈ get_interfaces site →
  site_session_of collector_sites (RemoteSitePolicy_name site) = Some s →
  ∃ events,
    for_each entries (verify_push_entry env export_policy site l3out s) st
    = (Returned tt, mkMonitorState (mon_db st) (mon_history st ++ events)) ∧
    Forall (verify_request collector_sites export_policy) events ∧
    Forall (fun ev => failed_get ev = false) events.
Proof.
  intros Hsite Hl3out Hs. revert st.
  induction entries as [|entry entries IH]; intros st.
  - exists []. rewrite app_nil_r. split; [by destruct st|]. done.
  - destruct (verify_push_entry_run site l3out s entry st Hsite Hl3out Hs)
      as (ev1 & Hrun1 & HP1 & Hok1).
    destruct (IH (mkMonitorState (mon_db st) (mon_history st ++ ev1)))
      as (ev2 & Hrun2 & HP2 & Hok2).
    exists (ev1 ++ ev2). rewrite for_each_cons, Hrun1, Hrun2.
    cbn [mon_db mon_history]. rewrite app_assoc.
    split; [done|]. split; by apply Forall_app.
Qed.

Lemma verify_interface_run site l3out (st : MonitorState) :
  site ∈ get_site_policies export_policy → l3out ∈ get_interfaces site →
  ∃ events,
    (verify_interface env collector_sites local_site export_policy site l3out st).2
    = mkMonitorState (mon_db st) (mon_history st ++ events) ∧
    Forall (verify_request collector_sites export_policy) events ∧
    stops_at_failed_get
      (verify_interface env collector_sites local_site export_policy site l3out st).1
      is_Return events ∧
    (is_Some (site_session_of collector_sites (RemoteSitePolicy_name site)) →
     ∃ f, (verify_interface env collector_sites local_site export_policy site
             l3out st).1 = Returned f).
Proof.
  intros Hsite Hl3out. unfold verify_interface, site_session_of.
  destruct (get_site collector_sites (RemoteSitePolicy_name site)) as [site_obj|]
    eqn:Hobj.
  2:{ exists []. rewrite app_nil_r, M_bind_run. cbn [attr raise fst snd].
      split; [by destruct st|].
      split; [done|]. split; [by constructor|]. by intros [? [=]]. }
  cbn [mbind option_bind]. rewrite M_bind_run. cbn [attr mret M_ret].
  destruct (Site_session site_obj) as [s|] eqn:Hs.
  2:{ exists []. rewrite app_nil_r, M_bind_run. cbn [deref attr raise fst snd].
      split; [by destruct st|].
      split; [done|]. split; [by constructor|]. by intros [? [=]]. }
  assert (Hsess : site_session_of collector_sites (RemoteSitePolicy_name site) = Some s).
  { unfold site_session_of. rewrite Hobj. cbn. exact Hs. }
  assert (Hget : ∀ url ok, verify_request collector_sites export_policy (EvGet s url ok)).
  { intros url ok. cbn. by exists site. }
  rewrite M_bind_run. cbn [deref attr id mret M_ret].
  rewrite M_bind_run. cbn [session_get on_history Session_get].
  match goal with |- context [env_get env ?h ?s ?url] =>
    set (url1 := url); set (resp1 := env_get env h s url1) end.
  destruct (Response_ok resp1) eqn:Hok1; cbn [negb].
  2:{ exists [EvGet s url1 false]. cbn. split; [done|].
      split; [by apply Forall_singleton|]. split; [|eauto].
      exists [], (EvGet s url1 false). done. }
  case_bool_decide as Hcount.
  { exists [EvGet s url1 true]. cbn. split; [done|].
    split; [by apply Forall_singleton|]. split; [|eauto].
    by apply Forall_singleton. }
  rewrite M_bind_run. cbn [session_get on_history Session_get mon_db mon_history].
  match goal with |- context [env_get env ?h ?s ?url] =>
    set (url2 := url); set (resp2 := env_get env h s url2) end.
  destruct (Response_ok resp2) eqn:Hok2; cbn [negb].
  2:{ exists [EvGet s url1 true; EvGet s url2 false]. cbn.
      rewrite <- app_assoc. split; [done|].
      split; [by repeat constructor|]. split; [|eauto].
      exists [EvGet s url1 true], (EvGet s url2 false). by repeat constructor. }
  rewrite M_bind_run.
  destruct (verify_entries_run site l3out s (imdata resp2)
              (mkMonitorState (mon_db st)
                 ((mon_history st ++ [EvGet s url1 true]) ++ [EvGet s url2 true]))
              Hsite Hl3out Hsess)
    as (ev3 & -> & HP3 & Hok3).
  exists ([EvGet s url1 true; EvGet s url2 true] ++ ev3).
  cbn [mon_db mon_history mret M_ret fst snd].
  split; [by rewrite <- !app_assoc|].
  split; [apply Forall_app; split; [by repeat constructor|done]|].
  split; [|eauto]. cbn [stops_at_failed_get is_Return].
  apply Forall_app. split; [by repeat constructor|done].
Qed.

(** The whole pass. *)
Lemma verify_endpoints_run (st : MonitorState) :
  ∃ events,
    (verify_endpoints env collector_sites local_site export_policy st).2
    = mkMonitorState (mon_db st) (mon_history st ++ events) ∧
    Forall (verify_request collector_sites export_policy) events ∧
    (Forall (fun ev => failed_get ev = false) events ∨
     ∃ before ev, events = before ++ [ev] ∧ failed_get ev = true ∧
                  Forall (fun ev => failed_get ev = false) before) ∧
    (Forall (fun site =>
               get_interfaces site = [] ∨
               is_Some (site_session_of collector_sites (RemoteSitePolicy_name site)))
            (get_site_policies export_policy) →
     (verify_endpoints env collector_sites local_site export_policy st).1
     = Returned tt).
Proof.
  rewrite verify_endpoints_loops, M_bind_run.
  set (C := fun site : RemoteSitePolicy =>
              get_interfaces site = [] ∨
              is_Some (site_session_of collector_sites (RemoteSitePolicy_name site))).
  set (inner := fun site : RemoteSitePolicy =>
                  for_each_until (get_interfaces site)
                    (verify_interface env collector_sites local_site
                       export_policy site)).
  assert (Hinner : ∀ site, site ∈ get_site_policies export_policy →
            ∀ st', ∃ events,
              (inner site st').2
              = mkMonitorState (mon_db st') (mon_history st' ++ events) ∧
              Forall (verify_request collector_sites export_policy) events ∧
              stops_at_failed_get (inner site st').1 is_Return events ∧
              (C site → ∃ f, (inner site st').1 = Returned f)).
  { intros site Hsite st'.
    assert (Hbody : ∀ l3out, l3out ∈ get_interfaces site → ∀ st'', ∃ events,
              (verify_interface env collector_sites local_site export_policy
                 site l3out st'').2
              = mkMonitorState (mon_db st'') (mon_history st'' ++ events) ∧
              Forall (verify_request collector_sites export_policy) events ∧
              stops_at_failed_get
                (verify_interface env collector_sites local_site export_policy
                   site l3out st'').1 is_Return events ∧
              (is_Some (site_session_of collector_sites
                          (RemoteSitePolicy_name site)) →
               ∃ f, (verify_interface env collector_sites local_site
                       export_policy site l3out st'').1 = Returned f)).
    { intros l3out Hl3out st''. by apply verify_interface_run. }
    destruct (for_each_until_events _ _ _ _ Hbody st')
      as (events & Hst & HP & Hstop & Hret).
    exists events. split; [exact Hst|]. split; [done|]. split; [done|].
    intros [Hnil|Hsess]; apply Hret.
    - rewrite Hnil. constructor.
    - by apply Forall_forall. }
  destruct (for_each_until_events _ _ _ _ Hinner st)
    as (events & Hst & HP & Hstop & Hret).
  exists events.
  destruct (for_each_until _ _ st) as [[f|e] st'] eqn:Hrun; cbn [fst snd] in *;
    subst st'.
  - cbn. split; [done|]. split; [done|]. split; [|done].
    destruct f; cbn in Hstop; [by left|by right].
  - split; [done|]. split; [done|]. split; [by left|].
    intros Hall. by destruct (Hret Hall).
Qed.

(** X9.  The verification pass leaves the batch store alone and asks
    only this of the remote sites: queries, and pushes of a found instance
    profile in which it marked a binding deleted, sent to an interface of
    the policy; all through the session of a remote site the policy
    names. *)
Theorem verify_endpoints_requests (st : MonitorState) :
  ∃ events,
    (verify_endpoints env collector_sites local_site export_policy st).2
    = mkMonitorState (mon_db st) (mon_history st ++ events) ∧
    Forall (verify_request collector_sites export_policy) events.
Proof.
  destruct (verify_endpoints_run st) as (events & Hst & HP & _).
  by exists events.
Qed.

(** X10.  The verification pass gives up at the first query that is not
    answered: nothing is asked of any remote site after a failed query,
    so the interfaces and remote sites that follow are not verified. *)
Theorem verify_endpoints_stops_at_failed_query (st : MonitorState) :
  ∃ events,
    mon_history (verify_endpoints env collector_sites local_site export_policy st).2
    = mon_history st ++ events ∧
    ∀ before ev after,
      events = before ++ ev :: after → failed_get ev = true → after = [].
Proof.
  destruct (verify_endpoints_run st) as (events & Hst & _ & Hstop & _).
  exists events. rewrite Hst. split; [done|].
  intros before ev after -> Hev.
  destruct Hstop as [Hok|(before' & ev' & Heq & _ & Hok)].
  - apply Forall_app in Hok as [_ [Hok _]%Forall_cons]. congruence.
  - destruct after as [|ev2 after] using rev_ind; [done|].
    rewrite app_comm_cons, app_assoc in Heq.
    apply app_inj_tail in Heq as [<- _].
    apply Forall_app in Hok as [_ [Hok _]%Forall_cons]. congruence.
Qed.
End verification.

(** ** The monitor's two handlers *)

Lemma exported_registered endpoint local_site policy :
  exported endpoint local_site = Some policy →
  policy ∈ LocalSite_policy_db local_site.
Proof.
  unfold exported, get_policy_for_epg.
  destruct (_ || _); [done|]. intros [Hin _]%find_some. by apply list_elem_of_In.
Qed.

(** A burst on any queue returns, and the remote sites it adds to the store
    are named by a registered export policy. *)
Lemma burst_any __debug__ local_site (endpoints : list Endpoint) (db : Queue) :
  ∃ db',
    burst __debug__ local_site endpoints db = (Returned tt, db') ∧
    ∀ s, is_Some (db' !! s) →
         is_Some (db !! s) ∨
         ∃ policy, policy ∈ LocalSite_policy_db local_site ∧
                   s ∈ (fun x : string * string * string => x.1.1) <$> targets policy.
Proof.
  revert db. induction endpoints as [|ep eps IH]; intros db.
  - exists db. split; [done|]. by left.
  - destruct (add_endpoint_any __debug__ ep local_site db) as (db1 & Hrun1 & H1).
    destruct (IH db1) as (db2 & Hrun2 & H2).
    exists db2. unfold burst in *. rewrite for_each_cons, Hrun1. split; [exact Hrun2|].
    intros s [Hs|Hs]%H2; [|by right].
    destruct (H1 s) as [_ Hdom]. cbv zeta in Hdom. apply Hdom in Hs as [Hs|Hs]; [by left|].
    right. destruct (exported ep local_site) as [policy|] eqn:Hexp.
    + exists policy. split; [by eapply exported_registered|done].
    + by apply elem_of_nil in Hs.
Qed.

Lemma burst_snoc __debug__ local_site (endpoints : list Endpoint) endpoint (db : Queue) :
  (burst __debug__ local_site (endpoints ++ [endpoint]) db).2
  = (add_endpoint __debug__ endpoint local_site
       (burst __debug__ local_site endpoints db).2).2.
Proof.
  unfold burst. rewrite for_each_app.
  destruct (burst_any __debug__ local_site endpoints db) as (db1 & Hrun1 & _).
  unfold burst in Hrun1. rewrite Hrun1. cbn [snd]. rewrite for_each_cons.
  destruct (add_endpoint_any __debug__ endpoint local_site db1) as (db2 & -> & _).
  done.
Qed.

(** ** What the verification pass asks *)

(** The loops of the pass: a round that goes on has asked what it had to;
    a round that gives up has seen a query fail. *)
Lemma for_each_until_asks {A} (l : list A) (body : A → M MonitorState flow)
    (Q : A → list Event → Prop) (C : A → Prop) :
  (∀ x ev1 ev2, Q x ev1 → Q x (ev1 ++ ev2)) →
  (∀ x ev1 ev2, Q x ev2 → Q x (ev1 ++ ev2)) →
  (∀ x, x ∈ l → ∀ st, ∃ events,
      (body x st).2 = mkMonitorState (mon_db st) (mon_history st ++ events) ∧
      match (body x st).1 with
      | Returned Next => Q x events
      | Returned Return => Exists (fun ev => failed_get ev = true) events
      | Raised _ => ¬ C x
      end) →
  ∀ st, ∃ events,
    (for_each_until l body st).2
    = mkMonitorState (mon_db st) (mon_history st ++ events) ∧
    match (for_each_until l body st).1 with
    | Returned Next => ∀ x, x ∈ l → Q x events
    | Returned Return => Exists (fun ev => failed_get ev = true) events
    | Raised _ => ¬ Forall C l
    end.
Proof.
  intros Hleft Hright. induction l as [|x l IH]; intros Hbody st.
  - exists []. rewrite app_nil_r. cbn. split; [by destruct st|].
    by intros x Hx%elem_of_nil.
  - cbn [for_each_until]. rewrite M_bind_run.
    destruct (Hbody x (list_elem_of_here _ _) st) as (ev1 & Hst1 & H1).
    destruct (body x st) as [[[]|e] st1] eqn:Hrun; cbn [fst snd] in *; subst st1.
    + destruct (IH (fun y Hy => Hbody y (list_elem_of_further _ _ _ Hy))
                  (mkMonitorState (mon_db st) (mon_history st ++ ev1)))
        as (ev2 & Hst2 & H2).
      cbn [mon_db mon_history] in Hst2. exists (ev1 ++ ev2).
      rewrite Hst2, app_assoc. split; [done|].
      destruct (for_each_until l body _) as [[[]|e] st2]; cbn [fst snd] in *.
      * intros y [->|Hy]%elem_of_cons; [by apply Hleft|by apply Hright, H2].
      * apply Exists_app. by right.
      * intros [_ Hl]%Forall_cons. by apply H2.
    + exists ev1. cbn. done.
    + exists ev1. cbn. split; [done|]. intros [Hx _]%Forall_cons. by apply H1.
Qed.

Section verification_queries.
Variable env : Environment.
Variable collector_sites : list Site.
Variable local_site : Site.
Variable export_policy : ExportPolicy.

(** One interface: unless a query fails or the remote site has no
    session, the tagged profiles of the interface are asked for. *)
Lemma verify_interface_asks site l3out (st : MonitorState) :
  ∃ events,
    (verify_interface env collector_sites local_site export_policy site l3out st).2
    = mkMonitorState (mon_db st) (mon_history st ++ events) ∧
    match (verify_interface env collector_sites local_site export_policy site
             l3out st).1 with
    | Returned Next =>
        ∀ s, site_session_of collector_sites (RemoteSitePolicy_name site) = Some s →
             EvGet s (tagged_query local_site export_policy l3out) true ∈ events
    | Returned Return => Exists (fun ev => failed_get ev = true) events
    | Raised _ =>
        ¬ is_Some (site_session_of collector_sites (RemoteSitePolicy_name site))
    end.
Proof.
  unfold verify_interface, site_session_of.
  destruct (get_site collector_sites (RemoteSitePolicy_name site)) as [site_obj|]
    eqn:Hobj.
  2:{ exists []. rewrite app_nil_r, M_bind_run. cbn [attr raise fst snd].
      split; [by destruct st|]. by intros [? [=]]. }
  cbn [mbind option_bind]. rewrite M_bind_run. cbn [attr mret M_ret].
  destruct (Site_session site_obj) as [s|] eqn:Hs.
  2:{ exists []. rewrite app_nil_r, M_bind_run. cbn [deref attr raise fst snd].
      split; [by destruct st|]. by intros [? [=]]. }
  rewrite M_bind_run. cbn [deref attr id mret M_ret].
  rewrite M_bind_run. cbn [session_get on_history Session_get].
  fold (tagged_query local_site export_policy l3out).
  set (url1 := tagged_query local_site export_policy l3out).
  set (resp1 := env_get env (mon_history st) s url1).
  destruct (Response_ok resp1) eqn:Hok1; cbn [negb].
  2:{ exists [EvGet s url1 false]. cbn. split; [done|]. by left. }
  case_bool_decide as Hcount.
  { exists [EvGet s url1 true]. cbn. split; [done|].
    intros s' [= <-]. by left. }
  rewrite M_bind_run. cbn [session_get on_history Session_get mon_db mon_history].
  match goal with |- context [env_get env ?h ?s ?url] =>
    set (url2 := url); set (resp2 := env_get env h s url2) end.
  destruct (Response_ok resp2) eqn:Hok2; cbn [negb].
  2:{ exists [EvGet s url1 true; EvGet s url2 false]. cbn.
      rewrite <- app_assoc. split; [done|]. right. by left. }
  rewrite M_bind_run.
  match goal with |- context [for_each ?l ?body ?st0] =>
    assert (Hloop : ∃ ev3, for_each l body st0
              = (Returned tt,
                 mkMonitorState (mon_db st0) (mon_history st0 ++ ev3))) end.
  { generalize (imdata resp2). intros entries.
    generalize (mkMonitorState (mon_db st)
                  ((mon_history st ++ [EvGet s url1 true]) ++ [EvGet s url2 true])).
    induction entries as [|entry entries IH]; intros st0.
    - exists []. rewrite app_nil_r. by destruct st0.
    - rewrite for_each_cons. unfold verify_push_entry at 1.
      destruct (verify_entry export_policy site l3out entry) as [entry' [|]].
      + rewrite M_bind_run. cbn [push_to_apic on_history Session_push_to_apic
                                 mret M_ret fst snd mon_db mon_history].
        match goal with |- context [for_each entries _ ?st1] =>
          destruct (IH st1) as (ev3 & ->) end.
        cbn [mon_db mon_history]. eexists (_ :: ev3).
        by rewrite <- app_assoc.
      + cbn [mret M_ret fst snd]. exact (IH st0). }
  destruct Hloop as (ev3 & ->).
  exists ([EvGet s url1 true; EvGet s url2 true] ++ ev3).
  cbn [mon_db mon_history mret M_ret fst snd].
  split; [by rewrite <- !app_assoc|].
  intros s' [= <-]. by left.
Qed.

(** The whole pass: when every remote site of the policy that has an
    interface has a session and no query fails, each interface of the
    policy is asked for its tagged profiles. *)
Lemma verify_endpoints_asks (st : MonitorState) :
  ∃ events,
    (verify_endpoints env collector_sites local_site export_policy st).2
    = mkMonitorState (mon_db st) (mon_history st ++ events) ∧
    (Forall (fun site =>
               get_interfaces site = [] ∨
               is_Some (site_session_of collector_sites (RemoteSitePolicy_name site)))
            (get_site_policies export_policy) →
     Forall (fun ev => failed_get ev = false) events →
     ∀ site l3out s,
       site ∈ get_site_policies export_policy → l3out ∈ get_interfaces site →
       site_session_of collector_sites (RemoteSitePolicy_name site) = Some s →
       EvGet s (tagged_query local_site export_policy l3out) true ∈ events).
Proof.
  rewrite verify_endpoints_loops, M_bind_run.
  set (Q := fun (site : RemoteSitePolicy) (events : list Event) =>
              ∀ l3out s, l3out ∈ get_interfaces site →
                site_session_of collector_sites (RemoteSitePolicy_name site) = Some s →
                EvGet s (tagged_query local_site export_policy l3out) true ∈ events).
  set (C := fun site : RemoteSitePolicy =>
              get_interfaces site = [] ∨
              is_Some (site_session_of collector_sites (RemoteSitePolicy_name site))).
  destruct (for_each_until_asks (get_site_policies export_policy)
              (fun site => for_each_until (get_interfaces site)
                             (verify_interface env collector_sites local_site
                                export_policy site)) Q C) with (st := st)
    as (events & Hst & Hres).
  - intros site ev1 ev2 H l3out s Hl Hs. apply elem_of_app. left. by apply H.
  - intros site ev1 ev2 H l3out s Hl Hs. apply elem_of_app. right. by apply H.
  - intros site _ st'.
    destruct (for_each_until_asks (get_interfaces site)
                (verify_interface env collector_sites local_site export_policy site)
                (fun l3out events =>
                   ∀ s, site_session_of collector_sites (RemoteSitePolicy_name site)
                        = Some s →
                        EvGet s (tagged_query local_site export_policy l3out) true
                        ∈ events)
                (fun _ => is_Some (site_session_of collector_sites
                                     (RemoteSitePolicy_name site)))) with (st := st')
      as (events & Hst & Hres).
    + intros l3out ev1 ev2 H s Hs. apply elem_of_app. left. by apply H.
    + intros l3out ev1 ev2 H s Hs. apply elem_of_app. right. by apply H.
    + intros l3out _ st''. apply verify_interface_asks.
    + exists events. split; [exact Hst|].
      destruct (for_each_until _ _ st').1 as [[]|e].
      * intros l3out s Hl Hs. by apply Hres.
      * exact Hres.
      * intros [Hnil|Hsome]; apply Hres.
        -- rewrite Hnil. constructor.
        -- by apply Forall_forall.
  - exists events.
    destruct (for_each_until _ _ st) as [[f|e] st'] eqn:Hrun; cbn [fst snd] in *;
      subst st'.
    + cbn. split; [done|]. intros HC Hok site l3out s Hsite Hl3out Hs.
      destruct f.
      * by apply (Hres site Hsite l3out s).
      * apply Exists_exists in Hres as (ev & Hin & Hfail).
        rewrite Forall_forall in Hok. rewrite (Hok ev Hin) in Hfail. done.
    + split; [done|]. intros HC. by destruct Hres.
Qed.
End verification_queries.

Section handlers.
Variable env : Environment.
Variable __debug__ : bool.
Variable collector_sites : list Site.
Variable local_site : Site.
Variable self_session : Session.

Lemma handle_endpoint_event_loop_run (num_eps : nat) (st : MonitorState) :
  ∃ endpoints,
    (length endpoints <= num_eps)%nat ∧
    handle_endpoint_event_loop env __debug__ local_site self_session num_eps st
    = (Returned tt,
       mkMonitorState (burst __debug__ local_site endpoints (mon_db st)).2
         (mon_history st ++ (EvGetEvent self_session <$> endpoints))) ∧
    ((length endpoints < num_eps)%nat →
     env_has_events env
       (mon_history st ++ (EvGetEvent self_session <$> endpoints)) self_session
     = false).
Proof.
  revert st. induction num_eps as [|n IH]; intros st.
  - exists []. cbn. rewrite app_nil_r. split; [lia|]. split; [by destruct st|lia].
  - cbn [handle_endpoint_event_loop].
    destruct (env_has_events env (mon_history st) self_session) eqn:Hev.
    2:{ exists []. cbn. rewrite app_nil_r. split; [lia|]. split; [by destruct st|].
        done. }
    set (ep := env_get_event env (mon_history st) self_session).
    rewrite M_bind_run. unfold on_db at 1. cbn [mon_db mon_history].
    destruct (add_endpoint_any __debug__ ep local_site (mon_db st)) as (db1 & Hrun1 & _).
    rewrite Hrun1.
    destruct (IH (mkMonitorState db1 (mon_history st ++ [EvGetEvent self_session ep])))
      as (eps & Hlen & Hrun & Hstop).
    exists (ep :: eps). cbn [length]. split; [lia|]. rewrite Hrun.
    cbn [mon_db mon_history fmap list_fmap].
    rewrite <- app_assoc. cbn [app]. split.
    + do 2 f_equal. unfold burst. rewrite for_each_cons, Hrun1. done.
    + intros Hlt. cbn [mon_history] in Hstop. rewrite <- app_assoc in Hstop.
      apply Hstop. lia.
Qed.

(** X11.  One burst is bounded: [handle_endpoint_event] takes at most
    [MAX_ENDPOINTS] events from the session before it flushes, feeds them
    to [add_endpoint] in the order they came, asks nothing else of the
    session meanwhile, and takes fewer only when no event is pending. *)
Theorem handle_endpoint_event_loop_bounded (st : MonitorState) :
  ∃ endpoints,
    (length endpoints <= MAX_ENDPOINTS)%nat ∧
    handle_endpoint_event_loop env __debug__ local_site self_session
      MAX_ENDPOINTS st
    = (Returned tt,
       mkMonitorState (burst __debug__ local_site endpoints (mon_db st)).2
         (mon_history st ++ (EvGetEvent self_session <$> endpoints))) ∧
    ((length endpoints < MAX_ENDPOINTS)%nat →
     env_has_events env
       (mon_history st ++ (EvGetEvent self_session <$> endpoints)) self_session
     = false).
Proof. apply handle_endpoint_event_loop_run. Qed.

Lemma push_to_remote_sites_run (st : MonitorState) :
  (∀ remote_site, is_Some (mon_db st !! remote_site) →
                  is_Some (site_session_of collector_sites remote_site)) →
  ∃ events,
    push_to_remote_sites env __debug__ collector_sites st
    = (Returned tt, mkMonitorState ∅ (mon_history st ++ events)) ∧
    push_requests events
    = flush_requests env collector_sites (map_to_list (mon_db st)).
Proof.
  intros Hsites.
  destruct (push_sites_loop env __debug__ collector_sites
              (map_to_list (mon_db st)) st) as (events & Hrun & Hreq & _).
  { apply Forall_forall. intros [remote_site tenants] Hin%elem_of_map_to_list.
    apply Hsites. by exists tenants. }
  exists events. split; [|done].
  unfold push_to_remote_sites.
  rewrite M_bind_run. cbv beta iota. rewrite M_bind_run, Hrun. reflexivity.
Qed.

Hypothesis Hknown : remote_sites_known collector_sites local_site.

Lemma burst_known (endpoints : list Endpoint) (db : Queue) :
  (∀ s, is_Some (db !! s) → is_Some (site_session_of collector_sites s)) →
  ∀ s, is_Some ((burst __debug__ local_site endpoints db).2 !! s) →
       is_Some (site_session_of collector_sites s).
Proof.
  intros Hdb s.
  destruct (burst_any __debug__ local_site endpoints db) as (db' & -> & Hdom).
  cbn. intros [Hs|(policy & Hin & Hs)]%Hdom; [by apply Hdb|].
  by eapply Hknown.
Qed.


(** X13.  Seeding a policy ends with an empty store and a verification
    pass.  When the remote sites queued so far, those the registered
    export policies name and those of the policy being seeded all have a
    session, [handle_existing_endpoints] returns after listing the
    endpoints of the scope and pushing every tenant document their burst
    left in the store; what follows is [verify_endpoints] run on the
    emptied store: unless one of its queries fails, which is then its
    last request, it asks every interface of the policy for the profiles
    that carry the tag of the policy, and all it sends is queries and
    pushes of profiles with a binding marked deleted. *)
Theorem handle_existing_endpoints_flushes (policy : ExportPolicy)
    (st : MonitorState) :
  (∀ s, is_Some (mon_db st !! s) → is_Some (site_session_of collector_sites s)) →
  (∀ s, s ∈ (fun x : string * string * string => x.1.1) <$> targets policy →
        is_Some (site_session_of collector_sites s)) →
  ∃ pushes checks,
    let listing := EvGetAllByEpg self_session (ExportPolicy_tenant policy)
                     (ExportPolicy_app policy) (ExportPolicy_epg policy) in
    let endpoints := env_get_all_by_epg env (mon_history st) self_session
                       (ExportPolicy_tenant policy) (ExportPolicy_app policy)
                       (ExportPolicy_epg policy) in
    handle_existing_endpoints env __debug__ collector_sites local_site
      self_session policy st
    = (Returned tt,
       mkMonitorState ∅ (mon_history st ++ listing :: pushes ++ checks)) ∧
    push_requests pushes
    = flush_requests env collector_sites
        (map_to_list (burst __debug__ local_site endpoints (mon_db st)).2) ∧
    verify_endpoints env collector_sites local_site policy
      (mkMonitorState ∅ (mon_history st ++ listing :: pushes))
    = (Returned tt,
       mkMonitorState ∅ (mon_history st ++ listing :: pushes ++ checks)) ∧
    Forall (verify_request collector_sites policy) checks ∧
    (∀ before ev after,
       checks = before ++ ev :: after → failed_get ev = true → after = []) ∧
    (Forall (fun ev => failed_get ev = false) checks →
     ∀ site l3out s,
       site ∈ get_site_policies policy → l3out ∈ get_interfaces site →
       site_session_of collector_sites (RemoteSitePolicy_name site) = Some s →
       EvGet s (tagged_query local_site policy l3out) true ∈ checks).
Proof.
  intros Hdb Hpolicy. cbv zeta.
  unfold handle_existing_endpoints. rewrite M_bind_run. cbn [get_all_by_epg].
  set (endpoints := env_get_all_by_epg env (mon_history st) self_session _ _ _).
  set (listing := EvGetAllByEpg self_session _ _ _).
  rewrite M_bind_run.
  assert (Hburst : ∀ st',
            for_each endpoints
              (fun endpoint => on_db (add_endpoint __debug__ endpoint local_site)) st'
            = (Returned tt,
               mkMonitorState (burst __debug__ local_site endpoints (mon_db st')).2
                 (mon_history st'))).
  { induction endpoints as [|ep eps IH]; intros st'; [by destruct st'|].
    rewrite for_each_cons. unfold on_db at 1.
    destruct (add_endpoint_any __debug__ ep local_site (mon_db st'))
      as (db1 & Hrun1 & _).
    rewrite Hrun1, IH. cbn [mon_db mon_history]. do 2 f_equal.
    unfold burst. by rewrite for_each_cons, Hrun1. }
  rewrite Hburst. cbn [mon_db mon_history]. rewrite M_bind_run.
  edestruct (push_to_remote_sites_run
               (mkMonitorState (burst __debug__ local_site endpoints (mon_db st)).2
                  (mon_history st ++ [listing])))
    as (pushes & Hrun & Hreq).
  { cbn [mon_db]. by apply burst_known. }
  rewrite Hrun. cbn [mon_history] in *.
  assert (Hsessions :
            Forall (fun site =>
                      get_interfaces site = [] ∨
                      is_Some (site_session_of collector_sites
                                 (RemoteSitePolicy_name site)))
                   (get_site_policies policy)).
  { apply Forall_forall. intros site Hsite.
    destruct (get_interfaces site) as [|l3 l3s] eqn:Hl3; [by left|]. right.
    apply Hpolicy. apply list_elem_of_fmap.
    exists (RemoteSitePolicy_name site, L3OutPolicy_tenant l3, L3OutPolicy_name l3).
    split; [done|]. unfold targets. apply list_elem_of_bind. exists site.
    split; [|done]. rewrite Hl3, bind_cons. apply elem_of_app. left. by left. }
  assert (Hhist : (mon_history st ++ [listing]) ++ pushes
                  = mon_history st ++ listing :: pushes).
  { by rewrite <- app_assoc. }
  rewrite Hhist.
  destruct (verify_endpoints_run env collector_sites local_site policy
              (mkMonitorState ∅ (mon_history st ++ listing :: pushes)))
    as (checks & Hst & HP & Hstop & Hret).
  destruct (verify_endpoints_asks env collector_sites local_site policy
              (mkMonitorState ∅ (mon_history st ++ listing :: pushes)))
    as (checks' & Hst' & Hasks).
  assert (checks' = checks) as ->.
  { rewrite Hst in Hst'. injection Hst' as Heq. by apply app_inv_head in Heq. }
  exists pushes, checks.
  destruct (verify_endpoints _ _ _ _ _) as [r st'] eqn:Hverify.
  cbn [fst snd mon_db mon_history] in *. subst st'.
  rewrite (Hret Hsessions).
  assert (Happ : (mon_history st ++ listing :: pushes) ++ checks
                 = mon_history st ++ listing :: pushes ++ checks).
  { by rewrite <- app_assoc. }
  rewrite Happ. split; [done|]. split; [done|]. split; [done|]. split; [done|].
  split; [|by apply Hasks].
  intros before ev after -> Hev.
  destruct Hstop as [Hok|(before' & ev' & Heq & _ & Hok)].
  - apply Forall_app in Hok as [_ [Hok _]%Forall_cons]. congruence.
  - destruct after as [|ev2 after] using rev_ind; [done|].
    rewrite app_comm_cons, app_assoc in Heq.
    apply app_inj_tail in Heq as [<- _].
    apply Forall_app in Hok as [_ [Hok _]%Forall_cons]. congruence.
Qed.
End handlers.

(** ** The registry of sites *)

Lemma get_site_app (l1 l2 : list Site) name :
  get_site (l1 ++ l2) name
  = match get_site l1 name with
    | Some site => Some site
    | None => get_site l2 name
    end.
Proof.
  unfold get_site. induction l1 as [|x l1 IH]; [done|]. cbn.
  by destruct (bool_decide (Site_name x = name)).
Qed.

Lemma get_site_None (l : list Site) name :
  get_site l name = None ↔ ∀ site, site ∈ l → Site_name site ≠ name.
Proof.
  unfold get_site. induction l as [|x l IH]; cbn.
  - split; [|done]. intros _ site Hin. by apply elem_of_nil in Hin.
  - case_bool_decide as Hx.
    + split; [done|]. intros H. exfalso. by apply (H x); [left|].
    + rewrite IH. split.
      * intros H site [->|Hin]%elem_of_cons; auto.
      * intros H site Hin. apply H. by right.
Qed.

Lemma get_site_Some (l : list Site) name site :
  get_site l name = Some site → site ∈ l ∧ Site_name site = name.
Proof.
  unfold get_site. intros [Hin Hn]%find_some. split; [by apply list_elem_of_In|].
  by apply bool_decide_eq_true in Hn.
Qed.

Lemma get_site_skip (l1 l2 : list Site) x name :
  Site_name x ≠ name → get_site (l1 ++ x :: l2) name = get_site (l1 ++ l2) name.
Proof.
  intros Hx. rewrite !get_site_app. destruct (get_site l1 name); [done|].
  unfold get_site. cbn. by rewrite bool_decide_eq_false_2.
Qed.

(** What [delete_site] does to sites with distinct names: nothing when no
    site has the name, else the one site with the name goes. *)
Lemma delete_site_cases name (l : list Site) :
  NoDup (Site_name <$> l) →
  let l' := for_remove (fun site => bool_decide (name = Site_name site)) Site_eq l in
  (∀ site, site ∈ l' → Site_name site ≠ name) ∧
  ((l' = l) ∨ (∃ l1 x l2, l = l1 ++ x :: l2 ∧ Site_name x = name ∧ l' = l1 ++ l2)).
Proof.
  intros Hnd. cbv zeta.
  destruct (unique_key_split (fun site => Some (Site_name site)) name l)
    as [Hnone|(l1 & x & l2 & -> & Hx & H1 & H2)].
  { by rewrite omap_Some_fmap. }
  - rewrite for_remove_none.
    + split; [|by left]. intros site Hin Hn. apply (Hnone site Hin). by rewrite Hn.
    + intros site Hin. apply bool_decide_eq_false. intros Hn.
      apply (Hnone site Hin). by rewrite Hn.
  - injection Hx as Hx. rewrite for_remove_one.
    + split.
      * intros site [Hin|Hin]%elem_of_app Hn; [apply (H1 site Hin)|apply (H2 site Hin)];
          by rewrite Hn.
      * right. by exists l1, x, l2.
    + intros y Hy. apply bool_decide_eq_false. intros Hn. apply (H1 y Hy). by rewrite Hn.
    + intros y Hy. apply bool_decide_eq_false. intros Hn. apply (H2 y Hy). by rewrite Hn.
    + by apply bool_decide_eq_true.
    + intros y Hy%bool_decide_eq_false. unfold Site_eq.
      rewrite bool_decide_eq_false_2; [done|]. congruence.
    + unfold Site_eq. by rewrite bool_decide_eq_true_2.
Qed.

Lemma delete_site_get_site name (l : list Site) :
  NoDup (Site_name <$> l) →
  let l' := for_remove (fun site => bool_decide (name = Site_name site)) Site_eq l in
  get_site l' name = None ∧
  (∀ other, other ≠ name → get_site l' other = get_site l other) ∧
  NoDup (Site_name <$> l').
Proof.
  intros Hnd. destruct (delete_site_cases name l Hnd) as [Hgone Hcases]. cbv zeta in *.
  split; [by apply get_site_None|]. split.
  - intros other Ho. destruct Hcases as [->|(l1 & x & l2 & -> & Hx & ->)]; [done|].
    symmetry. apply get_site_skip. congruence.
  - eapply sublist_NoDup; [exact Hnd|]. apply fmap_sublist, for_remove_from_sublist.
Qed.

(** X16.  Deleting a site from a collector whose site names are distinct:
    [delete_site] returns, no site of that name is found afterwards, every
    other name finds what it found before, names stay distinct and nothing
    is asked of any site. *)
Theorem delete_site_then_get_site name (st : CollectorState) :
  NoDup (site_names st) →
  let r := delete_site name st in
  r.1 = Returned tt ∧
  get_site (sites r.2) name = None ∧
  (∀ other, other ≠ name → get_site (sites r.2) other = get_site (sites st) other) ∧
  NoDup (site_names r.2) ∧
  history r.2 = history st ∧ config r.2 = config st.
Proof.
  intros Hnd. cbv zeta. unfold site_names in *. cbn.
  destruct (delete_site_get_site name (sites st) Hnd) as (H1 & H2 & H3).
  done.
Qed.

Section registry.
Variable env : Environment.

Lemma Site_start_site (site : Site) (st : CollectorState) :
  let s := login_session (Site_credentials site) in
  let resp_ok := env_login env (history st) s in
  ∃ events,
    Site_start env site st
    = (Returned
         (resp_ok,
          mkSite (Site_name site) (Site_local site) (Site_credentials site) (Some s)
            resp_ok
            (if Site_local site && resp_ok then Some (mkMultisiteMonitor s false ∅)
             else LocalSite_monitor site)
            (LocalSite_policy_db site)),
       mkCollectorState (sites st) (config st)
         (history st ++ EvLogin s resp_ok :: events)) ∧
    Forall (fun ev => ∃ msg, ev = EvPrint msg) events.
Proof.
  cbv zeta. unfold Site_start. fold (login_session (Site_credentials site)).
  destruct (env_login env (history st) (login_session (Site_credentials site))).
  - exists []. done.
  - exists [EvPrint "%% Could not login to APIC on Site"].
    rewrite M_bind_run. cbn [print emit modify sites config history mret M_ret].
    rewrite <- app_assoc. split; [done|].
    apply Forall_singleton. by eexists.
Qed.

Lemma add_site_site name creds (local : bool) (st : CollectorState) :
  let s := login_session creds in
  let resp_ok := env_login env (history st) s in
  let site := mkSite name local creds (Some s) resp_ok
                (if local && resp_ok then Some (mkMultisiteMonitor s false ∅)
                 else None) [] in
  ∃ events,
    add_site env name creds local st
    = (Returned resp_ok,
       mkCollectorState
         (for_remove (fun site => bool_decide (name = Site_name site)) Site_eq
            (sites st) ++ [site])
         (config st) (history st ++ EvLogin s resp_ok :: events)) ∧
    Forall (fun ev => ∃ msg, ev = EvPrint msg) events.
Proof.
  cbv zeta. unfold add_site. rewrite M_bind_run.
  change (delete_site name st) with
    (Returned tt,
     mkCollectorState
       (for_remove (fun site => bool_decide (name = Site_name site)) Site_eq (sites st))
       (config st) (history st)).
  cbv beta iota. rewrite M_bind_run.
  edestruct Site_start_site as (events & -> & Hev).
  exists events. split; [|exact Hev]. reflexivity.
Qed.

(** X15.  Adding a site to a collector whose site names are distinct:
    [add_site] returns what the login answered; the name then finds the
    new site, which carries the credentials, the session built from them
    and the login outcome, has no policy yet, and has a monitor exactly
    when it is local and the login succeeded; a site that had the name
    before is replaced; every other name finds what it found before, and
    names stay distinct. *)
Theorem add_site_then_get_site name creds (local : bool) (st : CollectorState) :
  NoDup (site_names st) →
  let r := add_site env name creds local st in
  let resp_ok := env_login env (history st) (login_session creds) in
  r.1 = Returned resp_ok ∧
  get_site (sites r.2) name
  = Some (mkSite name local creds (Some (login_session creds)) resp_ok
            (if local && resp_ok
             then Some (mkMultisiteMonitor (login_session creds) false ∅)
             else None) []) ∧
  (∀ other, other ≠ name → get_site (sites r.2) other = get_site (sites st) other) ∧
  NoDup (site_names r.2).
Proof.
  intros Hnd. cbv zeta. unfold site_names in *.
  destruct (add_site_site name creds local st) as (events & -> & _).
  destruct (delete_site_get_site name (sites st) Hnd) as (Hgone & Hother & Hnd').
  cbv zeta in *. cbn [fst snd sites]. split; [done|]. split; [|split].
  - rewrite get_site_app, Hgone. unfold get_site. cbn.
    by rewrite bool_decide_eq_true_2.
  - intros other Ho. rewrite get_site_app, Hother by done.
    destruct (get_site (sites st) other); [done|].
    unfold get_site. cbn. by rewrite bool_decide_eq_false_2.
  - rewrite fmap_app. cbn. apply NoDup_app. split; [done|]. split.
    + intros n Hn [->|Hin]%elem_of_cons; [|by apply elem_of_nil in Hin].
      apply list_elem_of_fmap in Hn as (site & Hs & Hin).
      by apply (proj1 (get_site_None _ _) Hgone site Hin).
    + apply NoDup_singleton.
Qed.
End registry.

(** ** What the collector's calls keep *)

#[global] Instance names_stay_unique_refl : Reflexive names_stay_unique.
Proof. by intros st H. Qed.
#[global] Instance names_stay_unique_trans : Transitive names_stay_unique.
Proof. intros a b c H1 H2 H. by apply H2, H1. Qed.
#[global] Instance identities_kept_refl : Reflexive identities_kept.
Proof. by intros st. Qed.
#[global] Instance identities_kept_trans : Transitive identities_kept.
Proof. intros a b c H1 H2. unfold identities_kept in *. congruence. Qed.

Lemma identities_kept_names st st' : identities_kept st st' → names_stay_unique st st'.
Proof.
  unfold identities_kept, names_stay_unique, site_names. intros H.
  assert (Hn : ∀ l : list Site, Site_name <$> l = (fun x => x.1.1.1.1.1) <$> (site_identity <$> l)).
  { intros l. by rewrite <- list_fmap_compose. }
  by rewrite !Hn, H.
Qed.

Lemma insert_same_identity (l : list Site) i site site' :
  l !! i = Some site → site_identity site' = site_identity site →
  site_identity <$> <[i := site']> l = site_identity <$> l.
Proof.
  intros Hi Hl. rewrite list_fmap_insert, Hl. apply list_insert_id.
  by rewrite list_lookup_fmap, Hi.
Qed.

Section identities.
Variable env : Environment.
Variable __debug__ : bool.

Lemma print_identities msg : always identities_kept (print msg).
Proof. by intros st. Qed.

Lemma set_config_identities c : always identities_kept (set_config c).
Proof. by intros st. Qed.

Lemma site_at_identities i : always identities_kept (site_at i).
Proof. intros st. unfold site_at. by destruct (sites st !! i). Qed.

Lemma set_policy_db_identities i db : always identities_kept (set_policy_db i db).
Proof.
  intros st. unfold identities_kept. cbn.
  destruct (sites st !! i) as [site|] eqn:Hi; [|done].
  by apply (insert_same_identity _ _ site).
Qed.

Lemma in_collector_identities {A} (m : M (list Event) A) :
  always identities_kept (in_collector m).
Proof. intros st. unfold in_collector. by destruct (m (history st)). Qed.

Lemma monitor_handle_existing_endpoints_identities i policy :
  always identities_kept (monitor_handle_existing_endpoints env __debug__ i policy).
Proof.
  intros st. unfold monitor_handle_existing_endpoints.
  rewrite M_bind_run. unfold site_at.
  destruct (sites st !! i) as [local_site|] eqn:Hi; [|reflexivity].
  rewrite M_bind_run. unfold deref, attr.
  destruct (LocalSite_monitor local_site) as [mon|] eqn:Hmon; [|reflexivity].
  cbn [mret M_ret id].
  destruct (handle_existing_endpoints _ _ _ _ _ _ _) as [r ms].
  unfold identities_kept. cbn.
  apply (insert_same_identity _ _ local_site); [done|].
  unfold site_identity. cbn. by rewrite Hmon.
Qed.

Lemma add_policy_identities i policy :
  always identities_kept (add_policy env __debug__ i policy).
Proof.
  unfold add_policy.
  always_with ltac:(first [apply site_at_identities|apply set_policy_db_identities
                          |apply monitor_handle_existing_endpoints_identities]).
Qed.

Lemma remove_policy_identities i policy :
  always identities_kept (remove_policy i policy).
Proof.
  unfold remove_policy.
  always_with ltac:(first [apply site_at_identities|apply set_policy_db_identities]).
Qed.

Lemma remove_all_entries_identities self itag l3out_name l3out_tenant_name :
  always identities_kept
    (remove_all_entries env self itag l3out_name l3out_tenant_name).
Proof.
  unfold remove_all_entries, deref.
  always_with ltac:(apply in_collector_identities).
Qed.

Lemma remove_all_entries_for_policy_identities export_policy :
  always identities_kept (remove_all_entries_for_policy env export_policy).
Proof.
  unfold remove_all_entries_for_policy, deref.
  always_with ltac:(apply remove_all_entries_identities).
Qed.

Lemma initialize_local_site_identities :
  always identities_kept (initialize_local_site env __debug__).
Proof.
  unfold initialize_local_site, deref.
  always_with ltac:(first [apply print_identities|apply add_policy_identities]).
Qed.

Lemma reload_new_policies_identities old_config new_config :
  always identities_kept (reload_new_policies env __debug__ old_config new_config).
Proof.
  unfold reload_new_policies.
  always_with ltac:(first [apply print_identities|apply add_policy_identities
                          |apply remove_policy_identities
                          |apply monitor_handle_existing_endpoints_identities]).
Qed.

Lemma reload_deleted_policies_identities old_config new_config :
  always identities_kept (reload_deleted_policies env old_config new_config).
Proof.
  unfold reload_deleted_policies.
  always_with ltac:(first [apply print_identities|apply remove_policy_identities
                          |apply remove_all_entries_for_policy_identities]).
Qed.

(** X17.  Policies never touch the registry of sites: registering,
    removing and seeding export policies, and clearing their entries at
    the remote sites, leave every site in place with its name, kind,
    credentials, session and login state, whether the call returns or
    raises. *)
Theorem policy_calls_keep_sites i policy :
  always identities_kept (add_policy env __debug__ i policy) ∧
  always identities_kept (remove_policy i policy) ∧
  always identities_kept (monitor_handle_existing_endpoints env __debug__ i policy) ∧
  always identities_kept (remove_all_entries_for_policy env policy) ∧
  always identities_kept (initialize_local_site env __debug__).
Proof.
  split; [apply add_policy_identities|].
  split; [apply remove_policy_identities|].
  split; [apply monitor_handle_existing_endpoints_identities|].
  split; [apply remove_all_entries_for_policy_identities|].
  apply initialize_local_site_identities.
Qed.

(** *** Site names stay distinct *)

Lemma delete_site_unique name : always names_stay_unique (delete_site name).
Proof.
  intros st Hnd. unfold site_names in *. cbn.
  by destruct (delete_site_get_site name (sites st) Hnd) as (_ & _ & ?).
Qed.

Lemma add_site_unique name creds local :
  always names_stay_unique (add_site env name creds local).
Proof.
  intros st Hnd. unfold site_names in *.
  destruct (add_site_site env name creds local st) as (events & -> & _).
  destruct (delete_site_get_site name (sites st) Hnd) as (Hgone & _ & Hnd').
  cbv zeta in *. cbn [snd sites].
  rewrite fmap_app. cbn. apply NoDup_app. split; [done|]. split.
  - intros n Hn [->|Hin]%elem_of_cons; [|by apply elem_of_nil in Hin].
    apply list_elem_of_fmap in Hn as (site & Hs & Hin).
    by apply (proj1 (get_site_None _ _) Hgone site Hin).
  - apply NoDup_singleton.
Qed.

Lemma add_site_from_config_unique site :
  always names_stay_unique (add_site_from_config env site).
Proof.
  unfold add_site_from_config. always_with ltac:(apply add_site_unique).
Qed.

Lemma _reload_sites_inner_unique old_site new_sites added :
  always names_stay_unique (_reload_sites_inner env old_site new_sites added).
Proof.
  revert added. induction new_sites as [|new_site rest IH]; intros added; cbn.
  - always_step.
  - always_with ltac:(first [apply delete_site_unique|apply add_site_from_config_unique
                            |apply IH]).
Qed.

Lemma _reload_sites_old_unique old_sites new_sites added :
  always names_stay_unique (_reload_sites_old env old_sites new_sites added).
Proof.
  revert added. induction old_sites as [|old_site rest IH]; intros added; cbn.
  - always_step.
  - always_with ltac:(first [apply delete_site_unique|apply _reload_sites_inner_unique
                            |apply IH]).
Qed.

Lemma _reload_sites_new_unique new_sites old_sites added :
  always names_stay_unique (_reload_sites_new env new_sites old_sites added).
Proof.
  revert added. induction new_sites as [|new_site rest IH]; intros added; cbn.
  - always_step.
  - always_with ltac:(first [apply add_site_from_config_unique|apply IH]).
Qed.

Lemma _reload_sites_unique old_config new_config :
  always names_stay_unique (_reload_sites env old_config new_config).
Proof.
  unfold _reload_sites.
  always_with ltac:(first [apply _reload_sites_old_unique
                          |apply _reload_sites_new_unique]).
Qed.

Lemma initialize_local_site_unique :
  always names_stay_unique (initialize_local_site env __debug__).
Proof.
  eapply always_weaken; [apply identities_kept_names|].
  apply initialize_local_site_identities.
Qed.

Lemma reload_config_unique new_config :
  always names_stay_unique (reload_config env __debug__ new_config).
Proof.
  unfold reload_config, deref.
  always_with ltac:(first
    [ apply _reload_sites_unique
    | apply initialize_local_site_unique
    | eapply always_weaken;
      [apply identities_kept_names
      |first [apply print_identities|apply set_config_identities
             |apply reload_new_policies_identities
             |apply reload_deleted_policies_identities]] ]).
Qed.

Lemma initialize_tool_unique config :
  NoDup (site_names (initialize_tool env __debug__ config empty_collector).2).
Proof.
  assert (H : always names_stay_unique (initialize_tool env __debug__ config)).
  { unfold initialize_tool.
    always_with ltac:(first
      [ apply add_site_from_config_unique
      | apply initialize_local_site_unique
      | eapply always_weaken;
        [apply identities_kept_names
        |first [apply print_identities|apply set_config_identities]] ]). }
  apply H. constructor.
Qed.

Lemma run_collector_call_unique call :
  always names_stay_unique (run_collector_call env __debug__ call).
Proof.
  destruct call; cbn [run_collector_call].
  - always_with ltac:(apply add_site_unique).
  - apply add_site_from_config_unique.
  - apply delete_site_unique.
  - apply initialize_local_site_unique.
  - apply reload_config_unique.
Qed.

(** X14.  Site names are distinct in every collector the tool can reach:
    after [initialize_tool] on any configuration and after any sequence of
    add-site, delete-site, initialize-local-site and reload calls, whether
    they return or raise, no two sites of the collector have the same
    name. *)
Theorem site_names_stay_distinct config (calls : list collector_call) :
  NoDup (site_names
           (for_each calls (run_collector_call env __debug__)
              (initialize_tool env __debug__ config empty_collector).2).2).
Proof.
  assert (H : always names_stay_unique
                (for_each calls (run_collector_call env __debug__))).
  { always_with ltac:(apply run_collector_call_unique). }
  apply H, initialize_tool_unique.
Qed.
End identities.

(** ** The registry of export policies *)

Lemma scope_is_spec t a e policy :
  scope_is t a e policy = true ↔ policy_scope policy = (t, a, e).
Proof.
  unfold scope_is, policy_scope. rewrite !andb_true_iff, !bool_decide_eq_true.
  split; [intros [[-> ->] ->]; done|intros [= -> -> ->]; done].
Qed.

Lemma find_app_eq {A} (f : A → bool) (l1 l2 : list A) :
  List.find f (l1 ++ l2)
  = match List.find f l1 with
    | Some x => Some x
    | None => List.find f l2
    end.
Proof. induction l1 as [|x l1 IH]; [done|]. cbn. by destruct (f x). Qed.

Lemma find_none_iff {A} (f : A → bool) (l : list A) :
  List.find f l = None ↔ ∀ x, x ∈ l → f x = false.
Proof.
  induction l as [|x l IH]; cbn.
  - split; [|done]. intros _ y Hy. by apply elem_of_nil in Hy.
  - destruct (f x) eqn:Hx.
    + split; [done|]. intros H. rewrite (H x) in Hx by left. done.
    + rewrite IH. split.
      * intros H y [->|Hy]%elem_of_cons; auto.
      * intros H y Hy. apply H. by right.
Qed.

Lemma get_policy_for_epg_find self t a e :
  get_policy_for_epg self t a e = List.find (scope_is t a e) (LocalSite_policy_db self).
Proof. reflexivity. Qed.

(** The registry after [add_policy], as a list. *)
Lemma add_policy_registry (db : list ExportPolicy) (policy : ExportPolicy) :
  registry_wf db → same_identity_same_policy policy db →
  let old_policy := List.find (scope_is (ExportPolicy_tenant policy)
                                 (ExportPolicy_app policy) (ExportPolicy_epg policy)) db in
  let db1 := match old_policy with
             | Some old => py_remove same_object old db
             | None => db
             end in
  let db2 := if existsb (same_object policy) db1 then db1 else db1 ++ [policy] in
  registry_wf db2 ∧
  List.find (scope_is (ExportPolicy_tenant policy) (ExportPolicy_app policy)
               (ExportPolicy_epg policy)) db2 = Some policy ∧
  (∀ t a e, (t, a, e) ≠ policy_scope policy →
            List.find (scope_is t a e) db2 = List.find (scope_is t a e) db) ∧
  (∀ registered, registered ∈ db2 ↔
     registered = policy ∨
     (registered ∈ db ∧ policy_scope registered ≠ policy_scope policy)).
Proof.
  intros [Hscopes Hids] Hsame. cbv zeta.
  set (f := scope_is _ _ _).
  assert (Hf : ∀ q, f q = true ↔ policy_scope q = policy_scope policy).
  { intros q. apply scope_is_spec. }
  (* the registry without the policy of the same scope *)
  assert (Hdb1 : ∃ db1,
            match List.find f db with
            | Some old => py_remove same_object old db
            | None => db
            end = db1 ∧
            (∀ q, q ∈ db1 → f q = false) ∧
            (∀ q, q ∈ db1 ↔ q ∈ db ∧ policy_scope q ≠ policy_scope policy) ∧
            NoDup (policy_scope <$> db1) ∧ NoDup (export_id <$> db1) ∧
            (∀ t a e, (t, a, e) ≠ policy_scope policy →
                      List.find (scope_is t a e) db1 = List.find (scope_is t a e) db)).
  { destruct (List.find f db) as [old|] eqn:Hold.
    - apply find_some in Hold as [Hin%list_elem_of_In Hfold].
      apply list_elem_of_split in Hin as (l1 & l2 & ->).
      rewrite fmap_app, fmap_cons in Hscopes. rewrite fmap_app, fmap_cons in Hids.
      apply NoDup_app in Hscopes as (Hs1 & Hs12 & [Hs2a Hs2]%NoDup_cons).
      apply NoDup_app in Hids as (Hi1 & Hi12 & [Hi2a Hi2]%NoDup_cons).
      exists (l1 ++ l2). split.
      { apply py_remove_first.
        - intros y Hy. unfold same_object. apply bool_decide_eq_false.
          intros Heq. apply (Hi12 (export_id y)); [by apply list_elem_of_fmap_2|].
          rewrite Heq. by left.
        - unfold same_object. by apply bool_decide_eq_true. }
      apply Hf in Hfold.
      assert (Hnot : ∀ q, q ∈ l1 ++ l2 → policy_scope q ≠ policy_scope policy).
      { intros q [Hq|Hq]%elem_of_app Heq; rewrite <- Hfold in Heq.
        - apply (Hs12 (policy_scope q)); [by apply list_elem_of_fmap_2|].
          rewrite Heq. by left.
        - apply Hs2a. rewrite <- Heq. by apply list_elem_of_fmap_2. }
      split; [|split; [|split; [|split]]].
      + intros q Hq. destruct (f q) eqn:Hfq; [|done].
        apply Hf in Hfq. by apply Hnot in Hq.
      + intros q. split.
        * intros Hq. split; [|by apply Hnot].
          apply elem_of_app in Hq as [?|?]; apply elem_of_app; [by left|right; by right].
        * intros [Hq Hne]. apply elem_of_app in Hq as [?|[->|?]%elem_of_cons];
            apply elem_of_app; [by left|by rewrite Hfold in Hne|by right].
      + rewrite fmap_app. apply NoDup_app. split; [done|]. split; [|done].
        intros x Hx Hx2. apply (Hs12 x Hx). by right.
      + rewrite fmap_app. apply NoDup_app. split; [done|]. split; [|done].
        intros x Hx Hx2. apply (Hi12 x Hx). by right.
      + intros t a e Hne. rewrite !find_app_eq. cbn.
        destruct (scope_is t a e old) eqn:Ho; [|done].
        apply scope_is_spec in Ho. congruence.
    - exists db. split; [done|].
      pose proof (proj1 (find_none_iff f db) Hold) as Hnone.
      split; [done|]. split; [|done].
      intros q. split; [|by intros [? _]]. intros Hq. split; [done|].
      intros Heq%Hf. by rewrite Hnone in Heq. }
  destruct Hdb1 as (db1 & -> & Hnone & Hin1 & Hs1 & Hi1 & Hother).
  assert (Hnew : existsb (same_object policy) db1 = false).
  { destruct (existsb _ db1) eqn:Hex; [|done].
    apply existsb_exists in Hex as (q & Hq%list_elem_of_In & Hid).
    unfold same_object in Hid. apply bool_decide_eq_true in Hid.
    pose proof (proj1 (Hin1 q) Hq) as [Hqdb Hne].
    rewrite (Hsame q Hqdb) in Hne by done. done. }
  rewrite Hnew. split; [split|split; [|split]].
  - rewrite fmap_app. apply NoDup_app. split; [done|]. split; [|apply NoDup_singleton].
    intros x Hx [->|Hin]%elem_of_cons; [|by apply elem_of_nil in Hin].
    apply list_elem_of_fmap in Hx as (q & Hq & Hqin).
    apply Hnone in Hqin. symmetry in Hq. apply Hf in Hq. congruence.
  - rewrite fmap_app. apply NoDup_app. split; [done|]. split; [|apply NoDup_singleton].
    intros x Hx [->|Hin]%elem_of_cons; [|by apply elem_of_nil in Hin].
    apply list_elem_of_fmap in Hx as (q & Hq & Hqin).
    pose proof (proj1 (Hin1 q) Hqin) as [Hqdb Hne].
    rewrite (Hsame q Hqdb) in Hne by done. done.
  - rewrite find_app_eq, (proj2 (find_none_iff f db1) Hnone). cbn.
    by rewrite (proj2 (Hf policy) eq_refl).
  - intros t a e Hne. rewrite find_app_eq, Hother by done.
    destruct (List.find (scope_is t a e) db); [done|]. cbn.
    destruct (scope_is t a e policy) eqn:Hp; [|done].
    apply scope_is_spec in Hp. congruence.
  - intros q. rewrite elem_of_app, list_elem_of_singleton, Hin1. tauto.
Qed.

(** The registry after [remove_policy], as a list. *)
Lemma remove_policy_registry (db : list ExportPolicy) (policy : ExportPolicy) :
  registry_wf db → policy ∈ db →
  let db' := py_remove same_object policy db in
  registry_wf db' ∧
  List.find (scope_is (ExportPolicy_tenant policy) (ExportPolicy_app policy)
               (ExportPolicy_epg policy)) db' = None ∧
  (∀ t a e, (t, a, e) ≠ policy_scope policy →
            List.find (scope_is t a e) db' = List.find (scope_is t a e) db) ∧
  (∀ registered, registered ∈ db' ↔ registered ∈ db ∧ registered ≠ policy).
Proof.
  intros [Hscopes Hids] Hin. cbv zeta.
  apply list_elem_of_split in Hin as (l1 & l2 & ->).
  rewrite fmap_app, fmap_cons in Hscopes. rewrite fmap_app, fmap_cons in Hids.
  apply NoDup_app in Hscopes as (Hs1 & Hs12 & [Hs2a Hs2]%NoDup_cons).
  apply NoDup_app in Hids as (Hi1 & Hi12 & [Hi2a Hi2]%NoDup_cons).
  rewrite py_remove_first.
  2:{ intros y Hy. unfold same_object. apply bool_decide_eq_false.
      intros Heq. apply (Hi12 (export_id y)); [by apply list_elem_of_fmap_2|].
      rewrite Heq. by left. }
  2:{ unfold same_object. by apply bool_decide_eq_true. }
  assert (Hnot : ∀ q, q ∈ l1 ++ l2 → policy_scope q ≠ policy_scope policy).
  { intros q [Hq|Hq]%elem_of_app Heq.
    - apply (Hs12 (policy_scope q)); [by apply list_elem_of_fmap_2|].
      rewrite Heq. by left.
    - apply Hs2a. rewrite <- Heq. by apply list_elem_of_fmap_2. }
  split; [split|split; [|split]].
  - rewrite fmap_app. apply NoDup_app. split; [done|]. split; [|done].
    intros x Hx Hx2. apply (Hs12 x Hx). by right.
  - rewrite fmap_app. apply NoDup_app. split; [done|]. split; [|done].
    intros x Hx Hx2. apply (Hi12 x Hx). by right.
  - apply find_none_iff. intros q Hq.
    destruct (scope_is _ _ _ q) eqn:Hfq; [|done].
    apply scope_is_spec in Hfq. by apply Hnot in Hq.
  - intros t a e Hne. rewrite !find_app_eq. cbn.
    destruct (scope_is t a e policy) eqn:Ho; [|done].
    apply scope_is_spec in Ho. congruence.
  - intros q. split.
    + intros Hq. split.
      * apply elem_of_app in Hq as [?|?]; apply elem_of_app; [by left|right; by right].
      * intros ->. by apply (Hnot policy Hq).
    + intros [Hq Hne]. apply elem_of_app in Hq as [?|[->|?]%elem_of_cons];
        apply elem_of_app; [by left|done|by right].
Qed.

Lemma insert_lookup_same (l : list Site) i site site' :
  l !! i = Some site → <[i := site']> l !! i = Some site'.
Proof. intros Hi. apply list_lookup_insert_eq. by eapply lookup_lt_Some. Qed.

Section registry_of_policies.
Variable env : Environment.
Variable __debug__ : bool.

(** Seeding keeps the registry of the site it runs for. *)
Lemma monitor_handle_existing_endpoints_registry i policy st self :
  sites st !! i = Some self →
  ∃ self',
    sites (monitor_handle_existing_endpoints env __debug__ i policy st).2 !! i
    = Some self' ∧
    LocalSite_policy_db self' = LocalSite_policy_db self.
Proof.
  intros Hi. unfold monitor_handle_existing_endpoints.
  rewrite M_bind_run. unfold site_at. rewrite Hi.
  rewrite M_bind_run. unfold deref, attr.
  destruct (LocalSite_monitor self) as [mon|]; [|by exists self].
  cbn [mret M_ret id].
  destruct (handle_existing_endpoints _ _ _ _ _ _ _) as [r ms]. cbn [snd sites].
  eexists. split; [by eapply insert_lookup_same|done].
Qed.

Lemma add_policy_site i policy st self :
  sites st !! i = Some self →
  let old_policy := get_policy_for_epg self (ExportPolicy_tenant policy)
                      (ExportPolicy_app policy) (ExportPolicy_epg policy) in
  let db1 := match old_policy with
             | Some old => py_remove same_object old (LocalSite_policy_db self)
             | None => LocalSite_policy_db self
             end in
  let db2 := if existsb (same_object policy) db1 then db1 else db1 ++ [policy] in
  ∃ self',
    sites (add_policy env __debug__ i policy st).2 !! i = Some self' ∧
    LocalSite_policy_db self' = db2.
Proof.
  intros Hi. cbv zeta. unfold add_policy. rewrite M_bind_run. unfold site_at at 1.
  rewrite Hi. cbv zeta.
  set (db2 := if existsb (same_object policy) _ then _ else _).
  rewrite M_bind_run. cbn [set_policy_db set_sites modify sites]. rewrite Hi.
  match goal with |- context [monitor_handle_existing_endpoints _ _ _ _ ?s] =>
    destruct (monitor_handle_existing_endpoints_registry i policy s
                (with_policy_db self db2)) as (self' & Hs' & Hdb)
  end.
  { cbn [sites]. by eapply insert_lookup_same. }
  exists self'. split; [exact Hs'|]. by rewrite Hdb.
Qed.

(** X18.  The registry of export policies maps a scope to one policy.
    Once [add_policy] has run for a policy, whether the seeding that
    follows returns or raises, [get_policy_for_epg] finds that policy for
    its scope, in place of any policy registered for the scope before;
    every other scope finds what it found before, and the registry still
    holds one policy for a scope. *)
Theorem add_policy_then_get_policy i policy st self :
  sites st !! i = Some self →
  registry_wf (LocalSite_policy_db self) →
  same_identity_same_policy policy (LocalSite_policy_db self) →
  ∃ self',
    sites (add_policy env __debug__ i policy st).2 !! i = Some self' ∧
    get_policy_for_epg self' (ExportPolicy_tenant policy) (ExportPolicy_app policy)
      (ExportPolicy_epg policy) = Some policy ∧
    (∀ t a e, (t, a, e) ≠ policy_scope policy →
              get_policy_for_epg self' t a e = get_policy_for_epg self t a e) ∧
    registry_wf (LocalSite_policy_db self').
Proof.
  intros Hi Hwf Hsame.
  destruct (add_policy_site i policy st self Hi) as (self' & Hs' & Hdb).
  destruct (add_policy_registry (LocalSite_policy_db self) policy Hwf Hsame)
    as (Hwf' & Hfind & Hother & _).
  cbv zeta in *. rewrite get_policy_for_epg_find in Hdb.
  exists self'. split; [done|]. rewrite !get_policy_for_epg_find, Hdb.
  split; [done|]. split; [|done].
  intros t a e Hne. rewrite !get_policy_for_epg_find, Hdb. by apply Hother.
Qed.

(** X19.  Removing a policy from the registry: [remove_policy] raises
    [ValueError] and changes nothing when the policy is not registered;
    when it is, no policy is found for its scope afterwards and every
    other scope finds what it found before. *)
Theorem remove_policy_then_get_policy i policy st self :
  sites st !! i = Some self →
  registry_wf (LocalSite_policy_db self) →
  same_identity_same_policy policy (LocalSite_policy_db self) →
  if existsb (same_object policy) (LocalSite_policy_db self) then
    ∃ st' self',
      remove_policy i policy st = (Returned tt, st') ∧
      sites st' !! i = Some self' ∧
      get_policy_for_epg self' (ExportPolicy_tenant policy) (ExportPolicy_app policy)
        (ExportPolicy_epg policy) = None ∧
      (∀ t a e, (t, a, e) ≠ policy_scope policy →
                get_policy_for_epg self' t a e = get_policy_for_epg self t a e) ∧
      registry_wf (LocalSite_policy_db self')
  else remove_policy i policy st = (Raised ValueError, st).
Proof.
  intros Hi Hwf Hsame. unfold remove_policy. rewrite M_bind_run. unfold site_at.
  rewrite Hi.
  destruct (existsb _ _) eqn:Hex; [|done].
  assert (Hin : policy ∈ LocalSite_policy_db self).
  { apply existsb_exists in Hex as (q & Hq%list_elem_of_In & Hid).
    unfold same_object in Hid. apply bool_decide_eq_true in Hid.
    by rewrite (Hsame q Hq) in Hq. }
  destruct (remove_policy_registry (LocalSite_policy_db self) policy Hwf Hin)
    as (Hwf' & Hfind & Hother & _).
  cbv zeta in *. unfold set_policy_db, set_sites, modify. rewrite Hi.
  eexists _, _. split; [reflexivity|]. cbn [sites].
  split; [by eapply insert_lookup_same|].
  rewrite !get_policy_for_epg_find. cbn [LocalSite_policy_db].
  split; [done|]. split; [|done].
  intros t a e Hne. rewrite !get_policy_for_epg_find. by apply Hother.
Qed.
End registry_of_policies.

(** ** Loading a configuration *)

Lemma IntersiteConfiguration_items_run env (items : list config_item)
    (self : IntersiteConfiguration) :
  IntersiteConfiguration_items env items self
  = if forallb (item_valid env) items
    then Returned (mkIntersiteConfiguration
                     (site_policies self ++ omap item_site items)
                     (export_policies self ++ omap item_export items))
    else Raised ValueError.
Proof.
  revert self. induction items as [|item items IH]; intros self.
  - cbn. rewrite !app_nil_r. by destruct self.
  - destruct item as [site|export|]; cbn [IntersiteConfiguration_items forallb item_valid].
    + destruct (SitePolicy_validate env site); [|done]. rewrite IH. cbn.
      destruct (forallb _ items); [|done]. by rewrite <- app_assoc.
    + destruct (ExportPolicy_validate export); [|done]. rewrite IH. cbn.
      destruct (forallb _ items); [|done]. by rewrite <- app_assoc.
    + rewrite IH. done.
Qed.

(** ** Reloading the sites *)

Lemma filter_none {A} (f : A → bool) (l : list A) :
  (∀ x, x ∈ l → f x = false) → List.filter f l = [].
Proof.
  induction l as [|x l IH]; intros H; [done|]. cbn. rewrite (H x) by left.
  apply IH. intros y Hy. apply H. by right.
Qed.

Section reload_sites.
Variable env : Environment.

Lemma _reload_sites_old_run (old_sites new_sites : list SitePolicy) added
    (st : CollectorState) :
  _reload_sites_old env old_sites new_sites added st
  = (Returned added,
     (for_each (OpDeleteSite <$> sites_to_delete old_sites new_sites)
        (run_site_operation env) st).2).
Proof.
  revert st. induction old_sites as [|old_site rest IH]; intros st; [done|].
  cbn [_reload_sites_old]. rewrite M_bind_run, _reload_sites_inner_run.
  cbn [fst snd]. rewrite M_bind_run. unfold sites_to_delete. cbn [List.filter].
  destruct (existsb _ new_sites); cbn [negb].
  - cbn [mret M_ret]. apply IH.
  - cbn [fmap list_fmap]. rewrite for_each_cons. cbn [run_site_operation].
    change (delete_site (SitePolicy_name old_site) st) with
      (Returned tt, (delete_site (SitePolicy_name old_site) st).2).
    cbv beta iota. apply IH.
Qed.

Lemma _reload_sites_new_run (new_sites old_sites : list SitePolicy) added
    (st : CollectorState) :
  _reload_sites_new env new_sites old_sites added st
  = (Returned
       (added ||
        existsb (fun site => bool_decide (SitePolicy_local site = "True"))
          (sites_to_add old_sites new_sites)),
     (for_each (OpAddSiteFromConfig <$> sites_to_add old_sites new_sites)
        (run_site_operation env) st).2).
Proof.
  revert added st. induction new_sites as [|new_site rest IH]; intros added st.
  - cbn. by rewrite orb_false_r.
  - cbn [_reload_sites_new]. unfold sites_to_add. cbn [List.filter].
    destruct (existsb _ old_sites); cbn [negb].
    + apply IH.
    + rewrite M_bind_run. cbn [fmap list_fmap existsb]. rewrite for_each_cons.
      cbn [run_site_operation].
      destruct (add_site_from_config_run env new_site st) as (st1 & -> & _).
      rewrite IH. f_equal. f_equal. unfold sites_to_add.
      destruct (bool_decide (SitePolicy_local new_site = "True")); cbn.
      * by rewrite orb_true_r.
      * done.
Qed.

(** X22.  What reloading the sites comes to: [_reload_sites] deletes the
    old sites that have no new entry with the same username, address,
    password, locality and https flag, then adds the new entries whose
    name no old entry has, in the order of the file, and reports whether
    one of those is local.  It returns in every case, and it never adds a
    site under a name the old configuration had: an entry that changed
    anything but its name is not added again. *)
Theorem _reload_sites_outcome (old_config new_config : IntersiteConfiguration)
    (st : CollectorState) :
  let deleted := sites_to_delete (site_policies old_config)
                   (site_policies new_config) in
  let added := sites_to_add (site_policies old_config) (site_policies new_config) in
  _reload_sites env old_config new_config st
  = (Returned (existsb (fun site => bool_decide (SitePolicy_local site = "True")) added),
     (for_each ((OpDeleteSite <$> deleted) ++ (OpAddSiteFromConfig <$> added))
        (run_site_operation env) st).2) ∧
  ∀ site, site ∈ added →
          SitePolicy_name site ∉ SitePolicy_name <$> site_policies old_config.
Proof.
  cbv zeta. split.
  - unfold _reload_sites. rewrite M_bind_run, _reload_sites_old_run.
    rewrite _reload_sites_new_run. cbn [orb]. f_equal.
    rewrite for_each_app.
    destruct (run_site_operations_run env
                (OpDeleteSite <$>
                   sites_to_delete (site_policies old_config)
                     (site_policies new_config)) st) as (st1 & -> & _).
    done.
  - intros site Hin. unfold sites_to_add in Hin.
    apply list_elem_of_In, filter_In in Hin as [_ Hfresh].
    apply negb_true_iff in Hfresh.
    intros (old & Hname & Hold)%list_elem_of_fmap.
    assert (Hex : existsb (fun old_site =>
                             bool_decide (SitePolicy_name site = SitePolicy_name old_site))
                    (site_policies old_config) = true).
    { apply existsb_exists. exists old. split; [by apply list_elem_of_In|].
      by apply bool_decide_eq_true. }
    congruence.
Qed.

Lemma SitePolicy_eq_refl site : SitePolicy_eq site site = true.
Proof.
  unfold SitePolicy_eq. by rewrite !bool_decide_eq_false_2 by (by intros ?).
Qed.

(** X23.  Reloading an unchanged list of sites touches nothing:
    [_reload_sites] on the configuration in force deletes no site, adds no
    site, asks nothing of any site and reports that no local site was
    added. *)
Theorem _reload_sites_unchanged (cfg : IntersiteConfiguration) (st : CollectorState) :
  _reload_sites env cfg cfg st = (Returned false, st).
Proof.
  unfold _reload_sites. rewrite M_bind_run, _reload_sites_old_run.
  rewrite _reload_sites_new_run.
  assert (Hdel : sites_to_delete (site_policies cfg) (site_policies cfg) = []).
  { unfold sites_to_delete. rewrite filter_none; [done|].
    intros x Hx. apply negb_false_iff, existsb_exists.
    exists x. split; [by apply list_elem_of_In|apply SitePolicy_eq_refl]. }
  assert (Hadd : sites_to_add (site_policies cfg) (site_policies cfg) = []).
  { unfold sites_to_add. rewrite filter_none; [done|].
    intros x Hx. apply negb_false_iff, existsb_exists.
    exists x. split; [by apply list_elem_of_In|by apply bool_decide_eq_true]. }
  rewrite Hdel, Hadd. reflexivity.
Qed.
End reload_sites.

(** ** Clearing the entries of a policy at a remote site *)

Section remove_entries.
Variable env : Environment.

Lemma remove_entries_loop (s : Session) (entries : list l3extInstP)
    (st : CollectorState) :
  Forall (fun entry => is_Some (instp_dn entry)) entries →
  ∃ events,
    for_each entries (fun entry =>
      dn ← lift_result (match instp_dn entry with
                        | Some dn => Returned dn
                        | None => Raised KeyError
                        end);
      _ ← in_collector (Session_push_to_apic env s ("/api/mo/" +:+ dn +:+ ".json")
                          StatusDeletedDoc);
      mret tt) st
    = (Returned tt,
       mkCollectorState (sites st) (config st) (history st ++ events)) ∧
    push_requests events = deletion_requests s entries ∧
    length events = length entries.
Proof.
  intros Hdn. revert st. induction Hdn as [|entry entries [dn Hdn] _ IH]; intros st.
  - exists []. rewrite app_nil_r. by destruct st.
  - rewrite for_each_cons, M_bind_run. unfold lift_result at 1. rewrite Hdn.
    rewrite M_bind_run. cbn [in_collector Session_push_to_apic mret M_ret].
    match goal with |- context [for_each _ _ ?st1] =>
      destruct (IH st1) as (events & -> & Hreq & Hlen) end.
    eexists (_ :: events). cbn [sites config history].
    rewrite <- app_assoc. split; [reflexivity|]. split.
    + unfold deletion_requests in *. cbn. rewrite Hdn. cbn.
      unfold push_requests in Hreq. by rewrite Hreq.
    + cbn. by rewrite Hlen.
Qed.

(** X24.  Clearing the entries of a policy at a remote site asks for the
    instance profiles that carry the tag and, when the query is answered,
    sends one deletion for each profile found, to the address made from
    its distinguished name, whatever the earlier deletions answered;
    when the query fails nothing is sent.  The sites and the configuration
    are not touched. *)
Theorem remove_all_entries_requests (self : Site) (s : Session)
    (itag l3out_name l3out_tenant_name : string) (st : CollectorState) :
  Site_local self = false → Site_session self = Some s →
  let url := tagged_query_url l3out_tenant_name l3out_name itag in
  let resp := env_get env (history st) s url in
  Forall (fun entry => is_Some (instp_dn entry)) (imdata resp) →
  ∃ events,
    remove_all_entries env self itag l3out_name l3out_tenant_name st
    = (Returned tt,
       mkCollectorState (sites st) (config st)
         (history st ++ EvGet s url (Response_ok resp) :: events)) ∧
    push_requests events
    = (if Response_ok resp then deletion_requests s (imdata resp) else []) ∧
    length events = (if Response_ok resp then length (imdata resp) else 0).
Proof.
  intros Hremote Hs. cbv zeta. intros Hdn.
  unfold remove_all_entries. rewrite Hremote, Hs.
  rewrite M_bind_run. cbn [deref attr mret M_ret id].
  rewrite M_bind_run. cbn [in_collector Session_get].
  destruct (Response_ok (env_get env (history st) s _)) eqn:Hok; cbn [negb].
  - match goal with |- context [for_each _ _ ?st1] =>
      destruct (remove_entries_loop s _ st1 Hdn) as (events & -> & Hreq & Hlen) end.
    exists events. cbn [sites config history]. rewrite <- app_assoc. done.
  - exists []. done.
Qed.
End remove_entries.

(** ** Finding the local site *)

(** X25.  [get_local_site] gives the first site of the collector that is
    local, in the order the sites were added, and nothing when no site is
    local; sites that are local but come later are never given.  The two
    filters of [get_sites] split the sites between them. *)
Theorem get_local_site_first (l : list Site) :
  (∀ site, get_local_site l = Some site ↔
           ∃ i, l !! i = Some site ∧ Site_local site = true ∧
                ∀ j earlier, l !! j = Some earlier → (j < i)%nat →
                             Site_local earlier = false) ∧
  (get_local_site l = None ↔ ∀ site, site ∈ l → Site_local site = false) ∧
  (∀ i, local_site_index l = Some i → l !! i = get_local_site l) ∧
  length (get_sites l true false) + length (get_sites l false true) = length l.
Proof.
  unfold get_local_site, local_site_index, get_sites.
  induction l as [|x l (IH1 & IH2 & IH3 & IH4)].
  - split; [|split; [|split]]; try done.
    + intros site. split; [done|]. by intros (i & Hi & _).
    + split; [|done]. intros _ site Hin. by apply elem_of_nil in Hin.
  - cbn [List.filter list_find]. destruct (Site_local x) eqn:Hx.
    + rewrite decide_True by done. split; [|split; [|split]].
      * intros site. split.
        -- intros [= <-]. exists 0. split; [done|]. split; [done|]. intros; lia.
        -- intros (i & Hi & Hloc & Hbefore). destruct i as [|i]; [by injection Hi as ->|].
           rewrite (Hbefore 0 x) in Hx by (done || lia). done.
      * split; [done|]. intros H. rewrite (H x) in Hx by left. done.
      * cbn. by intros i [= <-].
      * cbn. f_equal. exact IH4.
    + rewrite decide_False by (by intros []). cbn [negb]. split; [|split; [|split]].
      * intros site. rewrite IH1. split.
        -- intros (i & Hi & Hloc & Hbefore). exists (S i). split; [done|]. split; [done|].
           intros [|j] earlier Hj Hlt; [by injection Hj as <-|].
           apply (Hbefore j); [done|lia].
        -- intros (i & Hi & Hloc & Hbefore). destruct i as [|i].
           { injection Hi as ->. congruence. }
           exists i. split; [done|]. split; [done|].
           intros j earlier Hj Hlt. apply (Hbefore (S j)); [done|lia].
      * rewrite IH2. split.
        -- intros H site [->|Hin]%elem_of_cons; auto.
        -- intros H site Hin. apply H. by right.
      * intros i. destruct (list_find _ l) as [[k site]|] eqn:Hfind; cbn; [|done].
        intros [= <-]. cbn. apply IH3. done.
      * cbn. rewrite Nat.add_succ_r. f_equal. exact IH4.
Qed.

(** ** The properties at the sample data *)

Lemma sample_sites_known : remote_sites_known sample_sites sample_local_site.
Proof.
  intros policy s ->%list_elem_of_singleton Hs. vm_compute in Hs.
  apply list_elem_of_singleton in Hs as ->. vm_compute. by eexists.
Qed.

Lemma sample_loaded_sites : sites sample_loaded = sample_sites.
Proof. vm_compute. reflexivity. Qed.

Lemma sample_loaded_names : NoDup (site_names sample_loaded).
Proof.
  unfold site_names. rewrite sample_loaded_sites. cbn.
  apply NoDup_cons. split; [by intros [=]%list_elem_of_singleton|].
  apply NoDup_singleton.
Qed.

Lemma sample_registry_wf : registry_wf [sample_export 0].
Proof. split; apply NoDup_singleton. Qed.


Lemma handle_existing_endpoints_flushes_witness :
  ∃ pushes checks,
    handle_existing_endpoints pending_event_env true sample_sites sample_local_site
      sample_session (sample_export 0) (mkMonitorState ∅ [])
    = (Returned tt,
       mkMonitorState ∅
         ([] ++ EvGetAllByEpg sample_session "T1" "A1" "G1" :: pushes ++ checks)) ∧
    push_requests pushes
    = flush_requests pending_event_env sample_sites
        (map_to_list
           (burst true sample_local_site
              [sample_endpoint "aa:bb:cc" (Some "10.0.0.5") false] ∅).2) ∧
    verify_endpoints pending_event_env sample_sites sample_local_site (sample_export 0)
      (mkMonitorState ∅ ([] ++ EvGetAllByEpg sample_session "T1" "A1" "G1" :: pushes))
    = (Returned tt,
       mkMonitorState ∅
         ([] ++ EvGetAllByEpg sample_session "T1" "A1" "G1" :: pushes ++ checks)) ∧
    Forall (verify_request sample_sites (sample_export 0)) checks ∧
    (∀ before ev after,
       checks = before ++ ev :: after → failed_get ev = true → after = []) ∧
    (Forall (fun ev => failed_get ev = false) checks →
     ∀ site l3out s,
       site ∈ get_site_policies (sample_export 0) → l3out ∈ get_interfaces site →
       site_session_of sample_sites (RemoteSitePolicy_name site) = Some s →
       EvGet s (tagged_query sample_local_site (sample_export 0) l3out) true ∈ checks).
Proof.
  apply (handle_existing_endpoints_flushes pending_event_env true sample_sites
           sample_local_site sample_session sample_sites_known (sample_export 0)
           (mkMonitorState ∅ [])).
  - intros s [x Hx]. cbn in Hx. by rewrite lookup_empty in Hx.
  - intros s Hs. vm_compute in Hs. apply list_elem_of_singleton in Hs as ->.
    vm_compute. by eexists.
Defined.

Lemma add_site_then_get_site_witness :
  let creds := mkSiteLoginCredentials "10.0.0.8" "admin" "pw" true in
  let r := add_site quiet_env "R2" creds false sample_loaded in
  r.1 = Returned true ∧
  get_site (sites r.2) "R2"
  = Some (mkSite "R2" false creds (Some (mkSession "https://10.0.0.8" "admin" "pw"))
            true None []) ∧
  (∀ other, other ≠ "R2" → get_site (sites r.2) other = get_site (sites sample_loaded) other) ∧
  NoDup (site_names r.2).
Proof.
  exact (add_site_then_get_site quiet_env "R2"
           (mkSiteLoginCredentials "10.0.0.8" "admin" "pw" true) false sample_loaded
           sample_loaded_names).
Defined.

Lemma delete_site_then_get_site_witness :
  let r := delete_site "R1" sample_loaded in
  r.1 = Returned tt ∧
  get_site (sites r.2) "R1" = None ∧
  (∀ other, other ≠ "R1" → get_site (sites r.2) other = get_site (sites sample_loaded) other) ∧
  NoDup (site_names r.2) ∧
  history r.2 = history sample_loaded ∧ config r.2 = config sample_loaded.
Proof. exact (delete_site_then_get_site "R1" sample_loaded sample_loaded_names). Defined.

Lemma add_policy_then_get_policy_witness :
  ∃ self',
    sites (add_policy quiet_env true 0 (sample_export 1) sample_loaded).2 !! 0
    = Some self' ∧
    get_policy_for_epg self' "T1" "A1" "G1" = Some (sample_export 1) ∧
    (∀ t a e, (t, a, e) ≠ ("T1", "A1", "G1") →
              get_policy_for_epg self' t a e = get_policy_for_epg sample_local_site t a e) ∧
    registry_wf (LocalSite_policy_db self').
Proof.
  apply (add_policy_then_get_policy quiet_env true 0 (sample_export 1) sample_loaded
           sample_local_site).
  - by rewrite sample_loaded_sites.
  - exact sample_registry_wf.
  - intros q ->%list_elem_of_singleton. vm_compute. discriminate.
Defined.

Lemma remove_policy_then_get_policy_witness :
  ∃ st' self',
    remove_policy 0 (sample_export 0) sample_loaded = (Returned tt, st') ∧
    sites st' !! 0 = Some self' ∧
    get_policy_for_epg self' "T1" "A1" "G1" = None ∧
    (∀ t a e, (t, a, e) ≠ ("T1", "A1", "G1") →
              get_policy_for_epg self' t a e = get_policy_for_epg sample_local_site t a e) ∧
    registry_wf (LocalSite_policy_db self').
Proof.
  apply (remove_policy_then_get_policy 0 (sample_export 0) sample_loaded
           sample_local_site).
  - by rewrite sample_loaded_sites.
  - exact sample_registry_wf.
  - by intros q ->%list_elem_of_singleton.
Defined.

Lemma remove_all_entries_requests_witness :
  let s := mkSession "http://10.0.0.9" "admin" "pw" in
  let url := tagged_query_url "T1" "out1" "isite:T1:A1:G1:local" in
  ∃ events,
    remove_all_entries found_profile_env sample_remote_site "isite:T1:A1:G1:local"
      "out1" "T1" empty_collector
    = (Returned tt, mkCollectorState [] None ([] ++ EvGet s url true :: events)) ∧
    push_requests events
    = [(s, "/api/mo/uni/tn-T1/out-out1/instP-aa:bb:cc.json", StatusDeletedDoc)] ∧
    length events = 1.
Proof.
  apply (remove_all_entries_requests found_profile_env sample_remote_site
           (mkSession "http://10.0.0.9" "admin" "pw") "isite:T1:A1:G1:local"
           "out1" "T1" empty_collector).
  - reflexivity.
  - reflexivity.
  - apply Forall_singleton. by eexists.
Defined.

(** ** Validating what the configuration file holds *)

Lemma result_for_each_Returned {A} (l : list A) (body : A → result unit) :
  result_for_each l body = Returned tt ↔ Forall (fun x => body x = Returned tt) l.
Proof.
  induction l as [|x l IH]; cbn.
  - split; [constructor|done].
  - rewrite Forall_cons, <- IH. destruct (body x) as [[]|e]; cbn.
    + tauto.
    + split; [done|]. by intros [? _].
Qed.

Lemma assoc_Some_elem_of {A} key (entries : list (string * A)) v :
  assoc key entries = Some v → (key, v) ∈ entries.
Proof.
  induction entries as [|[k w] entries IH]; [done|]. cbn.
  case_bool_decide as Hk.
  - intros [= ->]. subst. by left.
  - intros H. right. by apply IH.
Qed.

Lemma assoc_NoDup {A} key (entries : list (string * A)) v :
  NoDup entries.*1 → (key, v) ∈ entries → assoc key entries = Some v.
Proof.
  induction entries as [|[k w] entries IH]; intros Hnd Hin.
  - by apply elem_of_nil in Hin.
  - cbn in *. apply NoDup_cons in Hnd as [Hk Hnd].
    apply elem_of_cons in Hin as [[= -> ->]|Hin].
    + by rewrite bool_decide_eq_true_2.
    + rewrite bool_decide_eq_false_2; [by apply IH|].
      intros ->. apply Hk. apply list_elem_of_fmap. by exists (key, v).
Qed.

(** The loop over the keywords of a dict returns exactly when every
    keyword is known and its value passes the validator of the keyword,
    and what follows each round returns, if there is a round. *)
Lemma validate_keywords_dict env keyword_validators entries then_each :
  NoDup entries.*1 →
  validate_keywords env keyword_validators (JDict entries) then_each = Returned tt ↔
  (∀ keyword value, (keyword, value) ∈ entries →
     ∃ v, assoc keyword keyword_validators = Some v ∧
          run_validator env v value = Returned tt) ∧
  (entries = [] ∨ then_each = Returned tt).
Proof.
  intros Hnd. unfold validate_keywords. cbn [py_iter mbind result_bind].
  rewrite result_for_each_Returned, Forall_fmap, Forall_fmap, Forall_forall.
  split.
  - intros H. split.
    + intros keyword value Hin. specialize (H (keyword, value) Hin). cbn in H.
      destruct (assoc keyword keyword_validators) as [v|]; [|done].
      exists v. split; [done|]. rewrite (assoc_NoDup _ _ _ Hnd Hin) in H. cbn in H.
      by destruct (run_validator env v value) as [[]|].
    + destruct entries as [|[keyword value] entries]; [by left|right].
      specialize (H (keyword, value) (list_elem_of_here _ _)). cbn in H.
      destruct (assoc keyword keyword_validators) as [v|]; [|done].
      rewrite bool_decide_eq_true_2 in H by done. cbn in H.
      by destruct (run_validator env v value) as [[]|].
  - intros [Hall Hthen] [keyword value] Hin. cbn.
    destruct (Hall keyword value Hin) as (v & -> & Hv).
    rewrite (assoc_NoDup _ _ _ Hnd Hin). cbn. rewrite Hv. cbn.
    destruct Hthen as [->|Hthen]; [by apply elem_of_nil in Hin|done].
Qed.

(** X26.  What validation accepts as a site entry.  For an entry whose
    "site" value is a dict, [SitePolicy] validates exactly when every key of
    that dict is one of the six keywords and its value fits the keyword: a
    string for the name, the username and the password; a string
    [socket.inet_aton] reads for the address; "True" or "False" for [local]
    and [use_https].  No key is required, and any other key is refused. *)
Theorem SitePolicy_json_validate_accepts env (top entries : list (string * json)) :
  assoc "site" top = Some (JDict entries) →
  NoDup entries.*1 →
  SitePolicy_json_validate env (JDict top) = Returned tt ↔
  ∀ keyword value, (keyword, value) ∈ entries →
    (keyword ∈ ["username"; "name"; "password"] ∧ ∃ s, value = JStr s) ∨
    (keyword = "ip_address" ∧
     ∃ s, value = JStr s ∧ is_ascii_string s = true ∧
          contains_char nul s = false ∧ env_inet_aton env s = true) ∨
    (keyword ∈ ["local"; "use_https"] ∧
     (value = JStr "True" ∨ value = JStr "False")).
Proof.
  intros Htop Hnd. unfold SitePolicy_json_validate. cbn [py_contains py_getitem].
  rewrite Htop. cbn [mbind result_bind negb].
  rewrite bool_decide_eq_true_2 by eauto. cbn [negb].
  rewrite validate_keywords_dict by done.
  split.
  - intros [Hall _] keyword value Hin.
    destruct (Hall keyword value Hin) as (v & Hv & Hrun).
    unfold SitePolicy_keyword_validators in Hv. cbn in Hv.
    repeat (case_bool_decide; [injection Hv as <-; subst keyword|]); try done.
    + left. split; [set_solver|]. destruct value; try done. eauto.
    + left. split; [set_solver|]. destruct value; try done. eauto.
    + right. left. split; [done|]. destruct value as [| | |s| |]; try done.
      cbn in Hrun. exists s. split; [done|].
      destruct (is_ascii_string s); [|done]. cbn in Hrun.
      destruct (contains_char nul s); [done|].
      destruct (env_inet_aton env s); done.
    + left. split; [set_solver|]. destruct value; try done. eauto.
    + right. right. split; [set_solver|]. cbn in Hrun.
      unfold run__validate_boolean_string in Hrun.
      destruct value as [| | |s| |]; try done. cbn in Hrun.
      repeat case_bool_decide; subst; auto; done.
    + right. right. split; [set_solver|]. cbn in Hrun.
      unfold run__validate_boolean_string in Hrun.
      destruct value as [| | |s| |]; try done. cbn in Hrun.
      repeat case_bool_decide; subst; auto; done.
  - intros Hall. split; [|by right]. intros keyword value Hin.
    destruct (Hall keyword value Hin)
      as [[Hk [s ->]]|[[-> (s & -> & Ha & Hn & Hi)]|[Hk Hv]]].
    + exists _validate_string. split; [|done].
      repeat (apply elem_of_cons in Hk as [->|Hk]; [reflexivity|]).
      by apply elem_of_nil in Hk.
    + exists _validate_ip_address. split; [reflexivity|].
      cbn. by rewrite Ha, Hn, Hi.
    + exists _validate_boolean_string_of. split.
      * repeat (apply elem_of_cons in Hk as [->|Hk]; [reflexivity|]).
        by apply elem_of_nil in Hk.
      * by destruct Hv as [->| ->].
Qed.

(** ** The typed configuration against the JSON it stands for *)

Lemma named_policy_json_validate_named keyword name :
  named_policy_json_validate keyword (json_of_named keyword name)
  = if _validate_non_empty_string name then Returned tt else Raised ValueError.
Proof.
  unfold named_policy_json_validate, json_of_named. cbn.
  rewrite !(bool_decide_eq_true_2 (keyword = keyword)) by done.
  rewrite bool_decide_eq_true_2 by eauto. cbn.
  unfold _validate_non_empty_string. by destruct (_ || _).
Qed.

Lemma result_map_validated {A} (enc : A → json) (validate : json → result unit)
    (ok : A → bool) (l : list A) :
  (∀ x, validate (enc x) = if ok x then Returned tt else Raised ValueError) →
  result_map (enc <$> l) (fun policy => _ ← validate policy; Returned policy)
  = if forallb ok l then Returned (enc <$> l) else Raised ValueError.
Proof.
  intros Hv. induction l as [|x l IH]; [done|]. cbn. rewrite Hv.
  destruct (ok x); cbn; [|done]. rewrite IH. by destruct (forallb ok l).
Qed.

Lemma _get_policies_provides l3out :
  _get_policies "contract_name" "provides" (json_of_L3OutPolicy l3out)
  = if forallb (fun c => _validate_non_empty_string (contract_name c))
         (get_provided_contract_policies l3out)
    then Returned (json_of_named "contract_name" ∘ contract_name
                     <$> get_provided_contract_policies l3out)
    else Raised ValueError.
Proof.
  rewrite <- (result_map_validated _ (named_policy_json_validate "contract_name")).
  - reflexivity.
  - intros c. apply named_policy_json_validate_named.
Qed.

Lemma _get_policies_consumes l3out :
  _get_policies "contract_name" "consumes" (json_of_L3OutPolicy l3out)
  = if forallb (fun c => _validate_non_empty_string (contract_name c))
         (get_consumed_contract_policies l3out)
    then Returned (json_of_named "contract_name" ∘ contract_name
                     <$> get_consumed_contract_policies l3out)
    else Raised ValueError.
Proof.
  rewrite <- (result_map_validated _ (named_policy_json_validate "contract_name")).
  - reflexivity.
  - intros c. apply named_policy_json_validate_named.
Qed.

Lemma _get_policies_protected_by l3out :
  _get_policies "taboo_name" "protected_by" (json_of_L3OutPolicy l3out)
  = if forallb (fun t => _validate_non_empty_string (taboo_name t))
         (get_protected_by_policies l3out)
    then Returned (json_of_named "taboo_name" ∘ taboo_name
                     <$> get_protected_by_policies l3out)
    else Raised ValueError.
Proof.
  rewrite <- (result_map_validated _ (named_policy_json_validate "taboo_name")).
  - reflexivity.
  - intros c. apply named_policy_json_validate_named.
Qed.

Lemma _get_policies_consumes_interface l3out :
  _get_policies "cif_name" "consumes_interface" (json_of_L3OutPolicy l3out)
  = if forallb (fun c => _validate_non_empty_string (consumes_interface c))
         (get_consumes_interface_policies l3out)
    then Returned (json_of_named "cif_name" ∘ consumes_interface
                     <$> get_consumes_interface_policies l3out)
    else Raised ValueError.
Proof.
  rewrite <- (result_map_validated _ (named_policy_json_validate "cif_name")).
  - reflexivity.
  - intros c. apply named_policy_json_validate_named.
Qed.

Lemma L3OutPolicy_json_validate_typed env l3out :
  L3OutPolicy_json_validate env (json_of_L3OutPolicy l3out)
  = if L3OutPolicy_validate l3out then Returned tt else Raised ValueError.
Proof.
  unfold L3OutPolicy_json_validate.
  rewrite _get_policies_provides, _get_policies_consumes,
    _get_policies_protected_by, _get_policies_consumes_interface.
  unfold L3OutPolicy_validate.
  destruct (forallb _ (get_provided_contract_policies l3out));
    [|reflexivity].
  destruct (forallb (A:=ProvidedContractPolicy) _
              (get_consumed_contract_policies l3out));
    [|reflexivity].
  destruct (forallb _ (get_protected_by_policies l3out));
    [|reflexivity].
  destruct (forallb _ (get_consumes_interface_policies l3out));
    reflexivity.
Qed.

Lemma get_interfaces_json_typed env site :
  get_interfaces_json env (json_of_RemoteSitePolicy site)
  = if RemoteSitePolicy_validate site
    then Returned (json_of_L3OutPolicy <$> get_interfaces site)
    else Raised ValueError.
Proof.
  unfold RemoteSitePolicy_validate.
  rewrite <- (result_map_validated _ (L3OutPolicy_json_validate env)).
  - reflexivity.
  - intros l3out. apply L3OutPolicy_json_validate_typed.
Qed.

Lemma RemoteSitePolicy_json_validate_typed env site :
  RemoteSitePolicy_json_validate env (json_of_RemoteSitePolicy site)
  = if RemoteSitePolicy_validate site then Returned tt else Raised ValueError.
Proof.
  unfold RemoteSitePolicy_json_validate. rewrite get_interfaces_json_typed.
  destruct (RemoteSitePolicy_validate site); reflexivity.
Qed.

Lemma get_site_policies_json_typed env export :
  get_site_policies_json env (json_of_ExportPolicy export)
  = if ExportPolicy_validate export
    then Returned (json_of_RemoteSitePolicy <$> get_site_policies export)
    else Raised ValueError.
Proof.
  unfold ExportPolicy_validate.
  rewrite <- (result_map_validated _ (RemoteSitePolicy_json_validate env)).
  - reflexivity.
  - intros site. apply RemoteSitePolicy_json_validate_typed.
Qed.

Lemma ExportPolicy_json_validate_typed env export :
  ExportPolicy_json_validate env (json_of_ExportPolicy export)
  = if ExportPolicy_validate export then Returned tt else Raised ValueError.
Proof.
  unfold ExportPolicy_json_validate. rewrite get_site_policies_json_typed.
  destruct (ExportPolicy_validate export); reflexivity.
Qed.

Lemma run__validate_boolean_string_typed s :
  run__validate_boolean_string (JStr s)
  = if _validate_boolean_string s then Returned tt else Raised ValueError.
Proof.
  unfold run__validate_boolean_string, _validate_boolean_string. cbn.
  destruct (decide (s = "True")) as [->|Htrue]; [reflexivity|].
  destruct (decide (s = "False")) as [->|Hfalse]; [reflexivity|].
  rewrite (bool_decide_eq_false_2 (s = "True")) by done.
  rewrite (bool_decide_eq_false_2 (s = "False")) by done.
  rewrite bool_decide_eq_false_2; [done|].
  intros [->|[->|Hnil]%elem_of_cons]%elem_of_cons; [done|done|].
  by apply elem_of_nil in Hnil.
Qed.

Lemma SitePolicy_json_validate_typed env site :
  is_ascii_string (SitePolicy_ip_address site) = true →
  contains_char nul (SitePolicy_ip_address site) = false →
  SitePolicy_json_validate env (json_of_SitePolicy site)
  = if SitePolicy_validate env site then Returned tt else Raised ValueError.
Proof.
  intros Hascii Hnul.
  assert (Hip : run__validate_ip_address env (JStr (SitePolicy_ip_address site))
                = if env_inet_aton env (SitePolicy_ip_address site)
                  then Returned tt else Raised ValueError).
  { cbn. by rewrite Hascii, Hnul. }
  pose proof (run__validate_boolean_string_typed (SitePolicy_use_https site)) as Hhttps.
  pose proof (run__validate_boolean_string_typed (SitePolicy_local site)) as Hlocal.
  unfold SitePolicy_validate.
  change (SitePolicy_json_validate env (json_of_SitePolicy site)) with
    (_ ← (_ ← run__validate_ip_address env (JStr (SitePolicy_ip_address site));
          Returned tt);
     _ ← (_ ← run__validate_boolean_string (JStr (SitePolicy_use_https site));
          Returned tt);
     _ ← (_ ← run__validate_boolean_string (JStr (SitePolicy_local site));
          Returned tt);
     Returned tt).
  rewrite Hip, Hhttps, Hlocal.
  destruct (env_inet_aton env _); [|reflexivity].
  destruct (_validate_boolean_string (SitePolicy_use_https site));
    destruct (_validate_boolean_string (SitePolicy_local site)); reflexivity.
Qed.

Lemma IntersiteConfiguration_json_items_typed env (items : list config_item)
    (self : IntersiteConfiguration_json) :
  forallb plain_address items = true →
  IntersiteConfiguration_json_items env (json_of_item <$> items) self
  = if forallb (item_valid env) items
    then Returned (mkIntersiteConfiguration_json
                     (site_policies_json self
                      ++ (json_of_SitePolicy <$> omap item_site items))
                     (export_policies_json self
                      ++ (json_of_ExportPolicy <$> omap item_export items)))
    else Raised ValueError.
Proof.
  revert self. induction items as [|item items IH]; intros self Hplain.
  - cbn. rewrite !app_nil_r. by destruct self.
  - cbn [forallb] in Hplain. apply andb_true_iff in Hplain as [Hitem Hplain].
    rewrite fmap_cons. destruct item as [site|export|].
    + cbn in Hitem. apply andb_true_iff in Hitem as [Hascii Hnul%negb_true_iff].
      change (IntersiteConfiguration_json_items env
                (json_of_item (ItemSite site) :: (json_of_item <$> items)) self)
        with (_ ← SitePolicy_json_validate env (json_of_SitePolicy site);
              IntersiteConfiguration_json_items env (json_of_item <$> items)
                (mkIntersiteConfiguration_json
                   (site_policies_json self ++ [json_of_SitePolicy site])
                   (export_policies_json self))).
      rewrite SitePolicy_json_validate_typed by done.
      cbn [forallb item_valid omap item_site item_export].
      destruct (SitePolicy_validate env site); [|reflexivity].
      cbn [mbind result_bind andb]. rewrite IH by done.
      destruct (forallb _ items); [|done]. cbn. by rewrite <- app_assoc.
    + change (IntersiteConfiguration_json_items env
                (json_of_item (ItemExport export) :: (json_of_item <$> items)) self)
        with (_ ← ExportPolicy_json_validate env (json_of_ExportPolicy export);
              IntersiteConfiguration_json_items env (json_of_item <$> items)
                (mkIntersiteConfiguration_json (site_policies_json self)
                   (export_policies_json self ++ [json_of_ExportPolicy export]))).
      rewrite ExportPolicy_json_validate_typed.
      cbn [forallb item_valid omap item_site item_export].
      destruct (ExportPolicy_validate export); [|reflexivity].
      cbn [mbind result_bind andb]. rewrite IH by done.
      destruct (forallb _ items); [|done]. cbn. by rewrite <- app_assoc.
    + change (IntersiteConfiguration_json_items env
                (json_of_item ItemOther :: (json_of_item <$> items)) self)
        with (IntersiteConfiguration_json_items env (json_of_item <$> items) self).
      rewrite IH by done. reflexivity.
Qed.

(** X27.  The typed configuration stands for the JSON faithfully.  Write a
    list of typed entries out as JSON, every site and policy with all its
    keys, the addresses in ASCII: [IntersiteConfiguration] on that JSON, run
    through the validators of [ConfigObject] keyword by keyword, accepts it
    exactly when the typed validation does, keeps the same entries in the
    same order, and otherwise raises the same [ValueError]; a file without
    "config" raises it too. *)
Theorem IntersiteConfiguration_json_init_typed env
    (config : option (list config_item)) :
  (∀ items, config = Some items → forallb plain_address items = true) →
  IntersiteConfiguration_json_init env (json_of_config config)
  = match IntersiteConfiguration_init env config with
    | Returned cfg =>
        Returned (mkIntersiteConfiguration_json
                    (json_of_SitePolicy <$> site_policies cfg)
                    (json_of_ExportPolicy <$> export_policies cfg))
    | Raised e => Raised e
    end.
Proof.
  intros Hplain. destruct config as [items|]; [|reflexivity].
  specialize (Hplain items eq_refl).
  change (IntersiteConfiguration_json_init env (json_of_config (Some items))) with
    (IntersiteConfiguration_json_items env (json_of_item <$> items)
       (mkIntersiteConfiguration_json [] [])).
  rewrite IntersiteConfiguration_json_items_typed by done.
  unfold IntersiteConfiguration_init. rewrite IntersiteConfiguration_items_run.
  destruct (forallb (item_valid env) items); reflexivity.
Qed.

Lemma IntersiteConfiguration_json_init_typed_witness :
  IntersiteConfiguration_json_init quiet_env (json_of_config (sample_config "10.0.0.1" 0))
  = Returned (mkIntersiteConfiguration_json
                [json_of_SitePolicy (sample_site_policy "local" "10.0.0.1" "True");
                 json_of_SitePolicy (sample_site_policy "R1" "10.0.0.9" "False")]
                [json_of_ExportPolicy (sample_export 0)]).
Proof.
  apply (IntersiteConfiguration_json_init_typed quiet_env (sample_config "10.0.0.1" 0)).
  intros items [= <-]. vm_compute. reflexivity.
Defined.

Lemma SitePolicy_json_validate_accepts_witness :
  let entries := [("name", JStr "local"); ("local", JStr "True")] in
  SitePolicy_json_validate quiet_env (JDict [("site", JDict entries)]) = Returned tt ↔
  ∀ keyword value, (keyword, value) ∈ entries →
    (keyword ∈ ["username"; "name"; "password"] ∧ ∃ s, value = JStr s) ∨
    (keyword = "ip_address" ∧
     ∃ s, value = JStr s ∧ is_ascii_string s = true ∧
          contains_char nul s = false ∧ env_inet_aton quiet_env s = true) ∨
    (keyword ∈ ["local"; "use_https"] ∧
     (value = JStr "True" ∨ value = JStr "False")).
Proof.
  apply (SitePolicy_json_validate_accepts quiet_env
           [("site", JDict [("name", JStr "local"); ("local", JStr "True")])]).
  - reflexivity.
  - cbn. apply NoDup_cons. split; [by intros [=]%list_elem_of_singleton|].
    apply NoDup_singleton.
Defined.

(** ** Keys that validation does not ask for *)

Lemma assoc_None_keys {A} key (entries : list (string * A)) :
  key ∉ entries.*1 → assoc key entries = None.
Proof.
  induction entries as [|[k v] entries IH]; [done|]. cbn.
  intros Hnot. rewrite bool_decide_eq_false_2.
  - apply IH. intros Hin. apply Hnot. by right.
  - intros ->. apply Hnot. by left.
Qed.

(** X28.  Validation asks for no key, and a missing list is met later, as
    a [KeyError].  An export entry whose dict is empty validates.  An
    export entry that gives strings for some of tenant, application and
    endpoint group but no "remote_sites" does not fail with the
    [ValueError] the tool reports as an improperly formatted file: making
    the policy raises [KeyError], and so does loading a configuration that
    holds the entry. *)
Theorem ExportPolicy_json_validate_missing_list env
    (top entries : list (string * json)) :
  assoc "export" top = Some (JDict entries) →
  assoc "site" top = None →
  NoDup entries.*1 →
  (∀ keyword value, (keyword, value) ∈ entries →
     keyword ∈ ["tenant"; "app"; "epg"] ∧ ∃ s, value = JStr s) →
  ExportPolicy_json_validate env (JDict top)
  = (if bool_decide (entries = []) then Returned tt else Raised KeyError) ∧
  IntersiteConfiguration_json_init env (JDict [("config", JList [JDict top])])
  = (if bool_decide (entries = [])
     then Returned (mkIntersiteConfiguration_json [] [JDict top])
     else Raised KeyError).
Proof.
  intros Htop Hsite Hnd Hentries.
  assert (Hvalidate : ExportPolicy_json_validate env (JDict top)
            = (if bool_decide (entries = []) then Returned tt else Raised KeyError)).
  { unfold ExportPolicy_json_validate. cbn [py_contains py_getitem].
    rewrite Htop. cbn [mbind result_bind].
    rewrite bool_decide_eq_true_2 by eauto. cbn [negb].
    destruct entries as [|[keyword value] entries]; [reflexivity|].
    rewrite bool_decide_eq_false_2 by done.
    unfold validate_keywords. cbn [py_iter mbind result_bind fmap list_fmap fst
                                     result_for_each].
    destruct (Hentries keyword value (list_elem_of_here _ _)) as [Hk [s ->]].
    assert (Hv : assoc keyword ExportPolicy_keyword_validators = Some _validate_string).
    { repeat (apply elem_of_cons in Hk as [->|Hk]; [reflexivity|]).
      by apply elem_of_nil in Hk. }
    rewrite Hv. cbn [py_getitem assoc]. rewrite bool_decide_eq_true_2 by done.
    cbn [mbind result_bind run_validator run__validate_string].
    unfold get_site_policies_json. cbn [py_getitem]. rewrite Htop.
    cbn [mbind result_bind py_getitem].
    rewrite (assoc_None_keys "remote_sites"); [reflexivity|].
    intros ((k & v) & Hkey & Hin)%list_elem_of_fmap. cbn in Hkey. subst k.
    destruct (Hentries _ _ Hin) as [Hk' _].
    repeat (apply elem_of_cons in Hk' as [[=]|Hk']). by apply elem_of_nil in Hk'. }
  split; [exact Hvalidate|].
  unfold IntersiteConfiguration_json_init. cbn [py_contains py_getitem assoc].
  rewrite !(bool_decide_eq_true_2 ("config" = "config")) by done.
  rewrite bool_decide_eq_true_2 by eauto.
  cbn [negb mbind result_bind py_iter IntersiteConfiguration_json_items py_contains].
  rewrite Hsite, Htop. rewrite bool_decide_eq_false_2 by (by intros [? [=]]).
  rewrite bool_decide_eq_true_2 by eauto. rewrite Hvalidate.
  by destruct (bool_decide (entries = [])).
Qed.

Lemma ExportPolicy_json_validate_missing_list_witness :
  let top := [("export", JDict [("tenant", JStr "T1")])] in
  ExportPolicy_json_validate quiet_env (JDict top) = Raised KeyError ∧
  IntersiteConfiguration_json_init quiet_env (JDict [("config", JList [JDict top])])
  = Raised KeyError.
Proof.
  apply (ExportPolicy_json_validate_missing_list quiet_env
           [("export", JDict [("tenant", JStr "T1")])] [("tenant", JStr "T1")]).
  - reflexivity.
  - reflexivity.
  - apply NoDup_singleton.
  - intros keyword value [= -> ->]%list_elem_of_singleton.
    split; [by left|by eexists].
Defined.

(** ** What one round of the monitor pushes *)


Section rounds.
Variable env : Environment.
Variable __debug__ : bool.
Variable collector_sites : list Site.
Variable local_site : Site.
Variable self_session : Session.


Hypothesis Hknown : remote_sites_known collector_sites local_site.

End rounds.


(** The round on [two_event_env]: the endpoint appears and is removed, and
    the one document pushed holds one profile, with the deletion marker. *)
Lemma two_events_one_push :
  handle_endpoint_event two_event_env true sample_sites sample_local_site
    sample_session (mkMonitorState ∅ [])
  = (Returned tt,
     mkMonitorState ∅
       [EvGetEvent sample_session (sample_endpoint "aa:bb:cc" (Some "10.0.0.5") false);
        EvGetEvent sample_session (sample_endpoint "aa:bb:cc" None true);
        EvPush (mkSession "http://10.0.0.9" "admin" "pw") "/api/mo/uni.json"
          (TenantDoc
             (mk_fvTenant "T1"
                [Mo_l3extOut
                   (mk_l3extOut "out1"
                      [Mo_l3extInstP
                         (mk_l3extInstP "aa:bb:cc" None (Some "deleted")
                            [fvRsProv "c1" None; fvRsProv "c2" None;
                             tagInst "isite:T1:A1:G1:local"])])]))
          true]).
Proof. vm_compute. reflexivity. Qed.

(** ** Local sites, by name *)

(** Sites with distinct names of which the local ones all bear one name:
    at most one is local. *)
Lemma one_name_one_local (l : list Site) (name : string) :
  NoDup (Site_name <$> l) →
  (∀ site, site ∈ l → Site_local site = true → Site_name site = name) →
  (num_local l <= 1)%nat.
Proof.
  unfold num_local, get_sites. induction l as [|x l IH]; intros Hnd Hall; [cbn; lia|].
  rewrite fmap_cons in Hnd. apply NoDup_cons in Hnd as [Hx Hnd].
  cbn [List.filter]. destruct (Site_local x) eqn:Hloc.
  - assert (List.filter Site_local l = []) as ->; [|cbn; lia].
    apply filter_none. intros y Hy. destruct (Site_local y) eqn:Hy'; [|done].
    exfalso. apply Hx. apply list_elem_of_fmap. exists y. split; [|done].
    rewrite (Hall x) by (by left || done). rewrite (Hall y); [done|by right|done].
  - apply IH; [done|]. intros site Hin. apply Hall. by right.
Qed.

#[global] Instance keeps_local_names_refl names : Reflexive (keeps_local_names names).
Proof. by intros st H. Qed.
#[global] Instance keeps_local_names_trans names : Transitive (keeps_local_names names).
Proof. intros a b c H1 H2 H. by apply H2, H1. Qed.

Lemma identities_kept_local names st st' :
  identities_kept st st' → keeps_local_names names st st'.
Proof.
  intros H [Hnd Hloc]. split; [by apply (identities_kept_names st st' H)|].
  intros site' Hin Hl. apply list_elem_of_lookup in Hin as [i Hi].
  assert (Hi' : (site_identity <$> sites st) !! i = Some (site_identity site')).
  { unfold identities_kept in H. by rewrite <- H, list_lookup_fmap, Hi. }
  rewrite list_lookup_fmap in Hi'. apply fmap_Some in Hi' as (site & Hs & Heq).
  unfold site_identity in Heq. injection Heq as Hname Hlocal _ _ _ _.
  rewrite Hname. apply Hloc; [by eapply list_elem_of_lookup_2|congruence].
Qed.

Section local_names.
Variable env : Environment.
Variable __debug__ : bool.
Variable names : list string.

Lemma delete_site_local name : always (keeps_local_names names) (delete_site name).
Proof.
  intros st [Hnd Hloc]. split; [by apply delete_site_unique|].
  cbn. intros site Hin. apply Hloc.
  eapply elem_of_sublist; [exact Hin|apply for_remove_from_sublist].
Qed.

Lemma add_site_local name creds (local : bool) :
  (local = true → name ∈ names) →
  always (keeps_local_names names) (add_site env name creds local).
Proof.
  intros Hname st [Hnd Hloc].
  pose proof (add_site_unique env name creds local st Hnd) as Hnd'.
  destruct (add_site_site env name creds local st) as (events & Hrun & _).
  cbv zeta in Hrun. rewrite Hrun in Hnd' |- *. split; [exact Hnd'|].
  cbn [snd sites]. intros site [Hin|Hin]%elem_of_app Hl.
  - apply Hloc; [|done].
    eapply elem_of_sublist; [exact Hin|apply for_remove_from_sublist].
  - apply list_elem_of_singleton in Hin as ->. cbn in *. by apply Hname.
Qed.

Lemma add_site_from_config_local site :
  allowed_local names site →
  always (keeps_local_names names) (add_site_from_config env site).
Proof.
  intros Hsite. unfold add_site_from_config.
  apply always_bind; [tc_solve| |intros ?; apply always_ret; tc_solve].
  apply add_site_local. intros Hl. apply Hsite. unfold marked_local.
  by destruct (bool_decide (SitePolicy_local site = "True")).
Qed.

Lemma _reload_sites_inner_local old_site new_sites added :
  Forall (allowed_local names) new_sites →
  always (keeps_local_names names)
    (_reload_sites_inner env old_site new_sites added).
Proof.
  intros Hall. revert added.
  induction Hall as [|new_site rest Hsite _ IH]; intros added; cbn.
  - always_step.
  - always_with ltac:(first [apply delete_site_local
                            |by apply add_site_from_config_local
                            |apply IH]).
Qed.

Lemma _reload_sites_old_local old_sites new_sites added :
  Forall (allowed_local names) new_sites →
  always (keeps_local_names names)
    (_reload_sites_old env old_sites new_sites added).
Proof.
  intros Hall. revert added.
  induction old_sites as [|old_site rest IH]; intros added; cbn.
  - always_step.
  - always_with ltac:(first [apply delete_site_local
                            |by apply _reload_sites_inner_local
                            |apply IH]).
Qed.

Lemma _reload_sites_new_local new_sites old_sites added :
  Forall (allowed_local names) new_sites →
  always (keeps_local_names names)
    (_reload_sites_new env new_sites old_sites added).
Proof.
  intros Hall. revert added.
  induction Hall as [|new_site rest Hsite _ IH]; intros added; cbn.
  - always_step.
  - always_with ltac:(first [by apply add_site_from_config_local|apply IH]).
Qed.

Lemma _reload_sites_local old_config new_config :
  Forall (allowed_local names) (site_policies new_config) →
  always (keeps_local_names names) (_reload_sites env old_config new_config).
Proof.
  intros Hall. unfold _reload_sites.
  always_with ltac:(first [by apply _reload_sites_old_local
                          |by apply _reload_sites_new_local]).
Qed.

(** The site entries of a configuration that loaded are those of the
    file. *)
Lemma loaded_sites_allowed (config : option (list config_item)) cfg :
  (∀ n, n ∈ config_local_names config → n ∈ names) →
  IntersiteConfiguration_init env config = Returned cfg →
  Forall (allowed_local names) (site_policies cfg).
Proof.
  intros Hnames Hinit. destruct config as [items|]; [|done].
  unfold IntersiteConfiguration_init in Hinit.
  rewrite IntersiteConfiguration_items_run in Hinit.
  destruct (forallb _ items); [|done]. injection Hinit as <-. cbn.
  apply Forall_forall. intros site Hin Hl. apply Hnames. cbn.
  apply list_elem_of_fmap. exists site. split; [done|].
  apply list_elem_of_In, filter_In. split; [by apply list_elem_of_In|done].
Qed.

Lemma kept_identities_local {A} (m : M CollectorState A) :
  always identities_kept m → always (keeps_local_names names) m.
Proof. apply always_weaken, identities_kept_local. Qed.

Lemma print_error_identities e : always identities_kept (print_error e).
Proof. by intros st. Qed.

Lemma reload_config_local new_config :
  (∀ n, n ∈ config_local_names new_config → n ∈ names) →
  always (keeps_local_names names) (reload_config env __debug__ new_config).
Proof.
  intros Hnames. unfold reload_config.
  destruct new_config as [items|]; [|apply kept_identities_local, print_identities].
  apply always_bind; [tc_solve|apply always_get_state; tc_solve|intros st0].
  destruct (IntersiteConfiguration_init env (Some items)) as [cfg|e] eqn:Hinit.
  - pose proof (loaded_sites_allowed _ cfg Hnames Hinit) as Hall.
    unfold deref.
    always_with ltac:(first
      [ by apply _reload_sites_local
      | apply kept_identities_local;
        first [apply print_identities|apply set_config_identities
              |apply initialize_local_site_identities
              |apply reload_new_policies_identities
              |apply reload_deleted_policies_identities] ]).
  - destruct e;
      always_with ltac:(apply kept_identities_local;
                        first [apply print_identities|apply print_error_identities]).
Qed.

Lemma add_sites_local (site_entries : list SitePolicy) :
  Forall (allowed_local names) site_entries →
  always (keeps_local_names names)
    (for_each site_entries (add_site_from_config env)).
Proof.
  induction 1 as [|site rest Hsite _ IH]; [apply always_ret; tc_solve|].
  cbn [for_each]. apply always_bind; [tc_solve| |intros _; exact IH].
  by apply add_site_from_config_local.
Qed.

Lemma initialize_tool_local config :
  (∀ n, n ∈ config_local_names config → n ∈ names) →
  local_sites_named names (initialize_tool env __debug__ config empty_collector).2.
Proof.
  intros Hnames.
  assert (H : always (keeps_local_names names) (initialize_tool env __debug__ config)).
  { unfold initialize_tool.
    destruct (IntersiteConfiguration_init env config) as [cfg|e] eqn:Hinit.
    - pose proof (loaded_sites_allowed _ cfg Hnames Hinit) as Hall.
      apply always_bind; [tc_solve|apply kept_identities_local, set_config_identities|].
      intros _. apply always_bind; [tc_solve| |].
      + by apply add_sites_local.
      + intros _. apply kept_identities_local, initialize_local_site_identities.
    - destruct e;
        always_with ltac:(apply kept_identities_local;
                          first [apply print_identities|apply print_error_identities]). }
  apply H. split; [constructor|]. by intros site Hin%elem_of_nil.
Qed.

Lemma run_collector_call_local call :
  (∀ n, n ∈ call_local_names call → n ∈ names) →
  always (keeps_local_names names) (run_collector_call env __debug__ call).
Proof.
  intros Hnames. destruct call as [name creds local|site|name| |new_config];
    cbn [run_collector_call call_local_names] in *.
  - apply always_bind; [tc_solve| |intros ?; apply always_ret; tc_solve].
    apply add_site_local. intros ->. apply Hnames. by left.
  - apply add_site_from_config_local. intros Hl. apply Hnames.
    rewrite Hl. by left.
  - apply delete_site_local.
  - apply kept_identities_local, initialize_local_site_identities.
  - by apply reload_config_local.
Qed.

Lemma run_calls_local (calls : list collector_call) (st : CollectorState) :
  (∀ n, n ∈ calls ≫= call_local_names → n ∈ names) →
  local_sites_named names st →
  local_sites_named names (run_calls env __debug__ calls st).
Proof.
  revert st. induction calls as [|call calls IH]; intros st Hnames Hst; [done|].
  cbn [run_calls foldl]. apply IH.
  - intros n Hn. apply Hnames. rewrite bind_cons. apply elem_of_app. by right.
  - apply run_collector_call_local; [|done].
    intros n Hn. apply Hnames. rewrite bind_cons. apply elem_of_app. by left.
Qed.
End local_names.

Section one_local_site.
Variable env : Environment.
Variable __debug__ : bool.

(** C9, amended.  Take any configuration and any sequence of add-site,
    delete-site, initialize-local-site and reload calls after its load,
    each call returning or raising.  If the site entries marked local, of
    the configuration and of the reloads, and the add-site calls marked
    local all bear one name, the collector holds at most one local site
    after the load and after each call.  Neither validation nor add-site
    bounds the number of local sites: what keeps one local site is that
    [add_site] replaces the site of the same name. *)
Theorem at_most_one_local_site (config : option (list config_item))
    (calls : list collector_call) (name : string) (k : nat) :
  (∀ n, n ∈ config_local_names config ++ (calls ≫= call_local_names) → n = name) →
  (num_local
     (sites
        (run_calls env __debug__ (take k calls)
           (initialize_tool env __debug__ config empty_collector).2))
   <= 1)%nat.
Proof.
  intros Hone.
  assert (Hnamed : local_sites_named [name]
                     (run_calls env __debug__ (take k calls)
                        (initialize_tool env __debug__ config empty_collector).2)).
  { apply run_calls_local.
    - intros n Hn. apply list_elem_of_singleton, Hone, elem_of_app. right.
      apply list_elem_of_bind in Hn as (call & Hn & Hcall).
      apply list_elem_of_bind. exists call. split; [done|].
      eapply elem_of_sublist; [exact Hcall|apply sublist_take].
    - apply initialize_tool_local. intros n Hn.
      apply list_elem_of_singleton, Hone, elem_of_app. by left. }
  destruct Hnamed as [Hnd Hloc].
  apply (one_name_one_local _ name); [exact Hnd|].
  intros site Hin Hl. by apply list_elem_of_singleton, Hloc.
Qed.
End one_local_site.

(** The sample configuration is loaded; the local site is added again, the
    configuration is reloaded with another address for the local site, a
    remote site is added and another deleted. *)
Lemma at_most_one_local_site_witness :
  (num_local
     (sites
        (run_calls quiet_env true
           (take 4
              [CallAddSite "local" (mkSiteLoginCredentials "10.0.0.2" "admin" "pw" false)
                 true;
               CallReloadConfig (sample_config "10.0.0.3" 1);
               CallAddSite "R2" (mkSiteLoginCredentials "10.0.0.8" "admin" "pw" false)
                 false;
               CallDeleteSite "R1"])
           (initialize_tool quiet_env true (sample_config "10.0.0.1" 0)
              empty_collector).2))
   <= 1)%nat.
Proof.
  apply (at_most_one_local_site quiet_env true (sample_config "10.0.0.1" 0) _ "local").
  intros n Hn. vm_compute in Hn.
  repeat (apply elem_of_cons in Hn as [->|Hn]; [reflexivity|]).
  by apply elem_of_nil in Hn.
Defined.

(** ** Loading a configuration file *)

Lemma IntersiteConfiguration_json_items_entries env
    (entries : list (list (string * json))) (self : IntersiteConfiguration_json) :
  IntersiteConfiguration_json_items env (JDict <$> entries) self
  = (_ ← result_for_each entries (entry_validate env);
     Returned (mkIntersiteConfiguration_json
                 (site_policies_json self
                  ++ (JDict <$> List.filter entry_is_site entries))
                 (export_policies_json self
                  ++ (JDict <$> List.filter entry_is_export entries)))).
Proof.
  revert self. induction entries as [|entry entries IH]; intros self.
  - cbn. rewrite !app_nil_r. by destruct self.
  - rewrite fmap_cons.
    cbn [IntersiteConfiguration_json_items result_for_each List.filter].
    change (py_contains "site" (JDict entry)) with (Returned (entry_is_site entry)).
    change (py_contains "export" (JDict entry))
      with (Returned (bool_decide (is_Some (assoc "export" entry)))).
    cbn [mbind result_bind].
    assert (Hexport : entry_is_export entry
                      = negb (entry_is_site entry)
                        && bool_decide (is_Some (assoc "export" entry)))
      by reflexivity.
    assert (Hvalidate :
              entry_validate env entry
              = if entry_is_site entry then SitePolicy_json_validate env (JDict entry)
                else if entry_is_export entry
                     then ExportPolicy_json_validate env (JDict entry)
                     else Returned tt) by reflexivity.
    rewrite Hvalidate, Hexport. clear Hvalidate Hexport.
    destruct (entry_is_site entry); cbn [negb andb].
    + destruct (SitePolicy_json_validate env (JDict entry)) as [[]|e];
        cbn [mbind result_bind]; [|done].
      rewrite IH. cbn [site_policies_json export_policies_json fmap list_fmap].
      destruct (result_for_each entries (entry_validate env)) as [[]|e];
        cbn [mbind result_bind]; [|done].
      by rewrite <- app_assoc.
    + destruct (bool_decide (is_Some (assoc "export" entry))).
      * destruct (ExportPolicy_json_validate env (JDict entry)) as [[]|e];
          cbn [mbind result_bind]; [|done].
        rewrite IH. cbn [site_policies_json export_policies_json fmap list_fmap].
        destruct (result_for_each entries (entry_validate env)) as [[]|e];
          cbn [mbind result_bind]; [|done].
        by rewrite <- app_assoc.
      * cbn [mbind result_bind]. by rewrite IH.
Qed.

(** X20.  Loading a configuration file whose "config" is a list of
    objects: the entries are validated in the order of the file and kept in
    that order.  An entry with a "site" key is validated and kept as a
    site, also when it has an "export" key; of the others, an entry with an
    "export" key is validated and kept as an export policy; every other
    entry is dropped unchecked.  The error raised is that of the first
    entry that does not validate, so every entry of a configuration that
    loaded has passed its validation; and a file without "config" raises
    [ValueError]. *)
Theorem IntersiteConfiguration_json_init_outcome env (top : list (string * json))
    (entries : list (list (string * json))) :
  assoc "config" top = Some (JList (JDict <$> entries)) →
  IntersiteConfiguration_json_init env (JDict top)
  = (_ ← result_for_each entries (entry_validate env);
     Returned (mkIntersiteConfiguration_json
                 (JDict <$> List.filter entry_is_site entries)
                 (JDict <$> List.filter entry_is_export entries))) ∧
  (∀ cfg, IntersiteConfiguration_json_init env (JDict top) = Returned cfg →
     Forall (fun site => SitePolicy_json_validate env site = Returned tt)
            (site_policies_json cfg) ∧
     Forall (fun export => ExportPolicy_json_validate env export = Returned tt)
            (export_policies_json cfg)) ∧
  (∀ other, assoc "config" other = None →
     IntersiteConfiguration_json_init env (JDict other) = Raised ValueError).
Proof.
  intros Hconfig.
  assert (Hrun : IntersiteConfiguration_json_init env (JDict top)
                 = (_ ← result_for_each entries (entry_validate env);
                    Returned (mkIntersiteConfiguration_json
                                (JDict <$> List.filter entry_is_site entries)
                                (JDict <$> List.filter entry_is_export entries)))).
  { unfold IntersiteConfiguration_json_init. cbn [py_contains py_getitem py_iter].
    rewrite Hconfig. rewrite bool_decide_eq_true_2 by eauto.
    cbn [mbind result_bind negb]. apply IntersiteConfiguration_json_items_entries. }
  split; [exact Hrun|]. split.
  - intros cfg. rewrite Hrun.
    destruct (result_for_each entries (entry_validate env)) as [[]|e] eqn:Hall;
      cbn [mbind result_bind]; [|done].
    intros [= <-]. cbn [site_policies_json export_policies_json].
    apply result_for_each_Returned in Hall. rewrite Forall_forall in Hall.
    split; apply Forall_forall; intros item (entry & -> & Hin)%list_elem_of_fmap;
      apply list_elem_of_In, filter_In in Hin as [Hin%list_elem_of_In Hkind];
      specialize (Hall entry Hin); unfold entry_validate in Hall.
    + by rewrite Hkind in Hall.
    + pose proof Hkind as Hsite. unfold entry_is_export in Hsite.
      apply andb_true_iff in Hsite as [Hsite%negb_true_iff _].
      by rewrite Hsite, Hkind in Hall.
  - intros other Hnone. unfold IntersiteConfiguration_json_init.
    cbn [py_contains]. rewrite Hnone. rewrite bool_decide_eq_false_2; [done|].
    by intros [? [=]].
Qed.

Lemma IntersiteConfiguration_json_init_outcome_witness :
  let site := [("site", JDict [("name", JStr "local"); ("local", JStr "True")]);
               ("export", JDict [])] in
  let export := [("export", JDict [])] in
  let other := [("comment", JStr "sites of the lab")] in
  IntersiteConfiguration_json_init quiet_env
    (JDict [("config", JList [JDict other; JDict export; JDict site])])
  = Returned (mkIntersiteConfiguration_json [JDict site] [JDict export]).
Proof.
  cbv zeta.
  destruct (IntersiteConfiguration_json_init_outcome quiet_env
              [("config",
                JList [JDict [("comment", JStr "sites of the lab")];
                       JDict [("export", JDict [])];
                       JDict [("site", JDict [("name", JStr "local");
                                              ("local", JStr "True")]);
                              ("export", JDict [])]])]
              [[("comment", JStr "sites of the lab")];
               [("export", JDict [])];
               [("site", JDict [("name", JStr "local"); ("local", JStr "True")]);
                ("export", JDict [])]] eq_refl) as [Hrun _].
  exact Hrun.
Defined.

(** ** A configuration file that does not load *)

Section rejected.
Variable env : Environment.
Variable __debug__ : bool.

(** X21.  A configuration that validation refuses changes nothing.  Take
    a file whose entries hold every key, with addresses that are plain
    strings, one entry of which does not validate: reading it raises
    [ValueError]; [reload_config] catches it, prints its message and the
    error, and returns with the sites, their policies and the
    configuration in force as they were; [initialize_tool] prints the
    same two lines and exits the program before any login. *)
Theorem invalid_configuration_is_rejected (items : list config_item)
    (st : CollectorState) :
  forallb plain_address items = true →
  forallb (item_valid env) items = false →
  IntersiteConfiguration_json_init env (json_of_config (Some items))
  = Raised ValueError ∧
  reload_config env __debug__ (Some items) st
  = (Returned tt,
     mkCollectorState (sites st) (config st)
       (history st
        ++ [EvPrint "Could not load improperly formatted configuration file";
            EvPrintError ValueError])) ∧
  initialize_tool env __debug__ (Some items) empty_collector
  = (Raised SystemExit,
     mkCollectorState [] None
       [EvPrint "Could not load improperly formatted configuration file";
        EvPrintError ValueError]).
Proof.
  intros Hplain Hbad.
  pose proof (IntersiteConfiguration_items_run env items
                (mkIntersiteConfiguration [] [])) as Hinit.
  rewrite Hbad in Hinit. split.
  - change (IntersiteConfiguration_json_init env (json_of_config (Some items))) with
      (IntersiteConfiguration_json_items env (json_of_item <$> items)
         (mkIntersiteConfiguration_json [] [])).
    rewrite IntersiteConfiguration_json_items_typed by done. by rewrite Hbad.
  - unfold reload_config, initialize_tool, IntersiteConfiguration_init.
    rewrite Hinit. split.
    + unfold print, print_error, emit, modify, get_state.
      rewrite !M_bind_run. cbn. by rewrite <- app_assoc.
    + reflexivity.
Qed.
End rejected.

Lemma invalid_configuration_is_rejected_witness :
  let items := [ItemSite (sample_site_policy "local" "10.0.0.1" "yes")] in
  IntersiteConfiguration_json_init quiet_env (json_of_config (Some items))
  = Raised ValueError ∧
  reload_config quiet_env true (Some items) sample_loaded
  = (Returned tt,
     mkCollectorState (sites sample_loaded) (config sample_loaded)
       (history sample_loaded
        ++ [EvPrint "Could not load improperly formatted configuration file";
            EvPrintError ValueError])) ∧
  initialize_tool quiet_env true (Some items) empty_collector
  = (Raised SystemExit,
     mkCollectorState [] None
       [EvPrint "Could not load improperly formatted configuration file";
        EvPrintError ValueError]).
Proof.
  apply (invalid_configuration_is_rejected quiet_env true); vm_compute; reflexivity.
Defined.
